(** * tinypng-cli: the compression pipeline of [tinypng_cli.py]

    A shallow embedding of [ImageCompressor] (parameter resolution, the three
    encoders' control flow, [compress_image], [batch_compress]) and of the
    [main] entry point, over an explicit model of the world the program acts
    on: a file system, the lines waiting on standard input and the messages
    printed so far.  The image codec (Pillow) and the EXIF writer (piexif)
    are outside the repository; they enter as section variables. *)

From Stdlib Require Import ZArith NArith QArith Ascii String List Bool Lia.
From stdpp Require Import base option list strings gmap fin_maps pretty.

Import ListNotations.
Local Open Scope string_scope.
Local Open Scope Z_scope.

(** ** Python strings *)

Module PyStr.

(** [str.lower] on one character.  Strings are byte strings here; only
    [A]..[Z] change.  No code point outside ASCII lowercases to a string
    that the program compares with (the extensions and ["y"]), so the
    comparisons below agree with Python's on every input. *)
Definition lower_ascii (c : ascii) : ascii :=
  let n := nat_of_ascii c in
  if ((65 <=? n)%nat && (n <=? 90)%nat)%bool then ascii_of_nat (n + 32) else c.

Fixpoint lower (s : string) : string :=
  match s with
  | EmptyString => EmptyString
  | String c r => String (lower_ascii c) (lower r)
  end.

(** [s.startswith('.')] *)
Definition startswith_dot (s : string) : bool :=
  match s with
  | String c _ => Ascii.eqb c "."%char
  | EmptyString => false
  end.

(** [s.rfind('.')]: the index of the last dot, [None] for Python's -1. *)
Fixpoint rfind_dot (s : string) : option nat :=
  match s with
  | EmptyString => None
  | String c r =>
      match rfind_dot r with
      | Some i => Some (S i)
      | None => if Ascii.eqb c "."%char then Some O else None
      end
  end.

(** [s[i:]] and [s[:i]] *)
Fixpoint drop (i : nat) (s : string) : string :=
  match i, s with
  | O, _ => s
  | S i', String _ r => drop i' r
  | S _, EmptyString => EmptyString
  end.

Fixpoint take (i : nat) (s : string) : string :=
  match i, s with
  | O, _ => EmptyString
  | S i', String c r => String c (take i' r)
  | S _, EmptyString => EmptyString
  end.

(** [x in xs] for a list or set of strings *)
Definition mem (x : string) (xs : list string) : bool :=
  existsb (String.eqb x) xs.

End PyStr.

(** ** Preset resolution: [ImageCompressor.__init__] *)

Record ImageCompressor := mkCompressor {
  preset : string;
  quality : Z;
  optimize : bool;
  progressive : bool
}.

(** [ImageCompressor.__init__], lines 72-90.  The constructor has four
    branches and none of them raises. *)
Definition ImageCompressor_init (quality0 : Z) (optimize0 progressive0 : bool)
    (preset0 : string) : ImageCompressor :=
  if String.eqb preset0 "fast" then
    mkCompressor preset0 (Z.max 70 (quality0 - 10)) false false
  else if String.eqb preset0 "balanced" then
    mkCompressor preset0 quality0 optimize0 progressive0
  else if String.eqb preset0 "quality" then
    mkCompressor preset0 (Z.min 95 (quality0 + 5)) true true
  else
    mkCompressor preset0 quality0 optimize0 progressive0.

(** ** Paths: the fragment of [pathlib.PurePath] the program uses

    A path is the list of its components below the working directory; the
    empty list is the working directory itself ([Path('.')]). *)

Abbreviation path := (list string).

Module PyPath.

(** [p.name]: the last component, [''] when there is none *)
Definition name (p : path) : string := List.last p "".

(** [p.parent] *)
Definition parent (p : path) : path := removelast p.

(** [p.suffix] as pathlib defines it: with [i = name.rfind('.')], the text
    from the last dot on when [0 < i < len(name) - 1], else [''].  So
    [a.tar.gz] has suffix [.gz], and [.png] and [a.] have none. *)
Definition suffix (p : path) : string :=
  let n := name p in
  match PyStr.rfind_dot n with
  | Some i =>
      if ((0 <? i)%nat && (i <? String.length n - 1)%nat)%bool
      then PyStr.drop i n else ""
  | None => ""
  end.

(** [p / q] for a relative [q] *)
Definition join (p q : path) : path := (p ++ q)%list.

(** [p.with_suffix(sfx)] for a well-formed [sfx]; [None] stands for the
    [ValueError] raised on a path with an empty name. *)
Definition with_suffix (p : path) (sfx : string) : option path :=
  let n := name p in
  if String.eqb n "" then None
  else
    let old := suffix p in
    let stem := PyStr.take (String.length n - String.length old) n in
    Some (join (parent p) [stem ++ sfx]).

(** [p.relative_to(d)]: [None] stands for the [ValueError] raised when
    [d] is not a prefix of [p]. *)
Fixpoint strip_prefix (d p : path) : option path :=
  match d, p with
  | [], _ => Some p
  | c :: d', c' :: p' => if String.eqb c c' then strip_prefix d' p' else None
  | _ :: _, [] => None
  end.

(** The non-empty prefixes of [p], shortest first: the directories that
    [mkdir(parents=True)] walks through. *)
Fixpoint prefixes (p : path) : list path :=
  match p with
  | [] => []
  | c :: r => [c] :: List.map (cons c) (prefixes r)
  end.

End PyPath.

(** ** The world: images, files, exceptions, messages *)

(** A value of the [img.info] mapping: raw bytes or anything else, the
    latter kept as its [str()]. *)
Inductive meta_value :=
| Bytes (b : string)
| Text (s : string).

(** What Pillow's [Image.open] gives for a file: the detected format, the
    pixel mode, the info mapping, and whether the pixel data can be
    loaded (the header is parsed at [open], the pixels only at the first
    use). *)
Record Image := mkImage {
  img_format : string;
  img_mode : string;
  img_info : list (string * meta_value);
  img_loads : bool
}.

(** A regular file: its [st_size] and what [Image.open] makes of its bytes
    ([None]: not an image). *)
Record file := mkFile {
  st_size : N;
  decoded : option Image
}.

Inductive node :=
| NFile (f : file)
| NDir.

Inductive exn :=
| FileNotFoundError
| FileExistsError
| NotADirectoryError
| IsADirectoryError
| UnidentifiedImageError
| OSError
| ValueError
| ZeroDivisionError
| EOFError
| SystemExit (code : Z).

(** [except Exception] does not catch [SystemExit]. *)
Definition is_Exception (e : exn) : bool :=
  match e with
  | SystemExit _ => false
  | _ => true
  end.

(** The lines the program prints, one constructor per [print] call of the
    source (the spinner's and tqdm's cosmetic output is left out). *)
Inductive message :=
| MsgExifKept
| MsgExifWriteFailed
| MsgMetadataFailed
| MsgPngSaveFailed
| MsgJpegFailed (e : exn)
| MsgPngFailed (e : exn)
| MsgWebpFailed (e : exn)
| MsgInputMissing (p : path)
| MsgOutputExists (p : path)
| MsgAskOverwrite
| MsgCancelled
| MsgUnsupportedFormat (fmt : string)
| MsgUnknownImageFormat (fmt : string)
| MsgCannotRead (e : exn)
| MsgSuccess (original compressed : N) (ratio : Q) (out : path)
| MsgFailed
| MsgDirMissing (p : path)
| MsgNoImages (p : path)
| MsgFound (n : nat)
| MsgBatchStart (n : nat)
| MsgProcessing (i n : nat) (name : string)
| MsgBatchDone
| MsgTally (succeeded total : nat)
| MsgTotalRatio (ratio : Q)
| MsgSaved (bytes : Z)
| MsgWarnOutputIgnored
| MsgDefaultDir (d : path)
| MsgBatchBegin
| MsgNotAFile
| MsgWarnDirIgnored
| MsgSingleBegin.

Record World := mkWorld {
  fs : gmap path node;
  stdin : list string;
  stdout : list message
}.

(** ** Computations: state and exceptions *)

Inductive result (A : Type) :=
| Ok (a : A)
| Raise (e : exn).
Arguments Ok {A} a.
Arguments Raise {A} e.

Definition M (A : Type) : Type := World -> result A * World.

Definition ret {A} (a : A) : M A := fun w => (Ok a, w).

Definition bind {A B} (m : M A) (k : A -> M B) : M B :=
  fun w =>
    match m w with
    | (Ok a, w') => k a w'
    | (Raise e, w') => (Raise e, w')
    end.

Definition raise {A} (e : exn) : M A := fun w => (Raise e, w).

(** [try: m  except Exception as e: h e] *)
Definition try_except {A} (m : M A) (h : exn -> M A) : M A :=
  fun w =>
    match m w with
    | (Raise e, w') => if is_Exception e then h e w' else (Raise e, w')
    | r => r
    end.

Declare Scope io_scope.
Delimit Scope io_scope with io.
Notation "'let*' x ':=' m 'in' k" := (bind m (fun x => k))
  (at level 10, x name, m at level 100, k at level 200) : io_scope.
Notation "m '>>' k" := (bind m (fun _ => k))
  (at level 100, k at level 200, right associativity) : io_scope.
Local Open Scope io_scope.

Definition print (msg : message) : M unit :=
  fun w => (Ok tt, mkWorld (fs w) (stdin w) (stdout w ++ [msg])%list).

(** [input("")]: one line off standard input, [EOFError] when there is
    none. *)
Definition input : M string :=
  fun w =>
    match stdin w with
    | line :: rest => (Ok line, mkWorld (fs w) rest (stdout w))
    | [] => (Raise EOFError, w)
    end.

(** ** The file system *)

Module FS.

(** What is at a path: the working directory always exists. *)
Definition stat (m : gmap path node) (p : path) : option node :=
  match p with
  | [] => Some NDir
  | _ => m !! p
  end.

Definition exists_ (m : gmap path node) (p : path) : bool :=
  match stat m p with Some _ => true | None => false end.

Definition is_file (m : gmap path node) (p : path) : bool :=
  match stat m p with Some (NFile _) => true | _ => false end.

Definition is_dir (m : gmap path node) (p : path) : bool :=
  match stat m p with Some NDir => true | _ => false end.

(** [st_size] of a directory depends on the file system; 4096 as on ext4. *)
Definition dir_st_size : N := 4096.

(** [p.stat().st_size] *)
Definition size_of (m : gmap path node) (p : path) : result N :=
  match stat m p with
  | Some (NFile f) => Ok (st_size f)
  | Some NDir => Ok dir_st_size
  | None => Raise FileNotFoundError
  end.

(** [os.mkdir] along the chain of prefixes of
    [p.mkdir(parents=True, exist_ok=True)]: existing directories are
    kept, a regular file in the way raises. *)
Fixpoint mkdir_chain (ds : list path) (m : gmap path node)
  : result (gmap path node) :=
  match ds with
  | [] => Ok m
  | d :: r =>
      match m !! d with
      | Some NDir => mkdir_chain r m
      | Some (NFile _) =>
          Raise (match r with [] => FileExistsError | _ => NotADirectoryError end)
      | None => mkdir_chain r (<[d := NDir]> m)
      end
  end.

Definition mkdir_p (m : gmap path node) (p : path) : result (gmap path node) :=
  mkdir_chain (PyPath.prefixes p) m.

(** [open(p, "w+b")]: the error it raises, if any. *)
Definition open_w (m : gmap path node) (p : path) : option exn :=
  match stat m p with
  | Some NDir => Some IsADirectoryError
  | _ =>
      match stat m (PyPath.parent p) with
      | Some NDir => None
      | Some (NFile _) => Some NotADirectoryError
      | None => Some FileNotFoundError
      end
  end.

(** The paths [d.glob('*')] yields: the direct entries of [d].  The order
    of a directory scan is unspecified; the model takes the map's. *)
Definition is_child (d p : path) : bool :=
  match PyPath.strip_prefix d p with
  | Some [_] => true
  | _ => false
  end.

Definition glob_star (m : gmap path node) (d : path) : list path :=
  List.filter (is_child d) (map_to_list m).*1.

(** The paths [d.rglob('*')] yields: everything below [d]. *)
Definition is_below (d p : path) : bool :=
  match PyPath.strip_prefix d p with
  | Some (_ :: _) => true
  | _ => false
  end.

Definition rglob_star (m : gmap path node) (d : path) : list path :=
  List.filter (is_below d) (map_to_list m).*1.

End FS.

Definition path_exists (p : path) : M bool := fun w => (Ok (FS.exists_ (fs w) p), w).
Definition path_is_dir (p : path) : M bool := fun w => (Ok (FS.is_dir (fs w) p), w).
Definition path_is_file (p : path) : M bool := fun w => (Ok (FS.is_file (fs w) p), w).
Definition path_size (p : path) : M N := fun w => (FS.size_of (fs w) p, w).

(** [p.mkdir(parents=True, exist_ok=True)] *)
Definition mkdir_parents (p : path) : M unit :=
  fun w =>
    match FS.mkdir_p (fs w) p with
    | Ok m => (Ok tt, mkWorld m (stdin w) (stdout w))
    | Raise e => (Raise e, w)
    end.

Definition set_fs (m : gmap path node) (w : World) : World :=
  mkWorld m (stdin w) (stdout w).

(** ** Python dictionaries with string keys, in insertion order *)

Module PyDict.

Section Dict.
Context {V : Type}.

Fixpoint get (k : string) (d : list (string * V)) : option V :=
  match d with
  | [] => None
  | (k', v) :: r => if String.eqb k k' then Some v else get k r
  end.

(** [d[k] = v] *)
Fixpoint set (k : string) (v : V) (d : list (string * V)) : list (string * V) :=
  match d with
  | [] => [(k, v)]
  | (k', v') :: r =>
      if String.eqb k k' then (k', v) :: r else (k', v') :: set k v r
  end.

(** [d.update(u)] *)
Definition update (d u : list (string * V)) : list (string * V) :=
  fold_left (fun acc kv => set (fst kv) (snd kv) acc) u d.
End Dict.

End PyDict.

(** ** The libraries: Pillow and piexif

    The codec is outside the repository.  A keyword argument of
    [Image.save] is an integer, a flag, a metadata value passed through, or
    the text chunks of a [PngInfo]. *)

Inductive kwarg :=
| KInt (z : Z)
| KBool (b : bool)
| KMeta (v : meta_value)
| KPngInfo (chunks : list (string * string)).

(** What the encoder does once the output file is open: it writes a whole
    file, or fails and leaves [partial] behind. *)
Inductive encode_outcome :=
| Encoded (f : file)
| EncodeFails (partial : file).

Record Library := mkLibrary {
  (** the encoder behind [img.save(path, format, **kwargs)] *)
  pil_encode : Image -> string -> list (string * kwarg) -> encode_outcome;
  (** whether this Pillow removes a file that a failed [save] created *)
  pil_removes_created : bool;
  (** [piexif.insert(exif, path)] on the file at [path]; [None]: it raises *)
  piexif_insert : meta_value -> file -> option file;
  (** [bytes.decode('utf-8', errors='ignore')] *)
  utf8_ignore : string -> string
}.

Section Pipeline.

Variable lib : Library.

(** [Image.open(p)] *)
Definition Image_open (p : path) : M Image :=
  fun w =>
    match FS.stat (fs w) p with
    | None => (Raise FileNotFoundError, w)
    | Some NDir => (Raise IsADirectoryError, w)
    | Some (NFile f) =>
        match decoded f with
        | Some img => (Ok img, w)
        | None => (Raise UnidentifiedImageError, w)
        end
    end.

(** Loading the pixel data, which [convert], [split], [paste] and [save]
    all start with. *)
Definition load (img : Image) : M unit :=
  if img_loads img then ret tt else raise OSError.

(** [img.convert(mode)] *)
Definition convert (img : Image) (mode : string) : M Image :=
  load img >> ret (mkImage "" mode (img_info img) true).

(** [Image.new('RGB', img.size, (255, 255, 255))] *)
Definition Image_new (mode : string) : Image := mkImage "" mode [] true.

(** [background.paste(img, mask=...)]: the result is [background] *)
Definition paste (background img : Image) : M unit := load img.

(** [img.save(p, fmt, **kwargs)]: load the pixels, open [p] with ["w+b"],
    encode. *)
Definition Image_save (img : Image) (p : path) (fmt : string)
    (kwargs : list (string * kwarg)) : M unit :=
  load img >>
  fun w =>
    let created := negb (FS.exists_ (fs w) p) in
    match FS.open_w (fs w) p with
    | Some e => (Raise e, w)
    | None =>
        match pil_encode lib img fmt kwargs with
        | Encoded f => (Ok tt, set_fs (<[p := NFile f]> (fs w)) w)
        | EncodeFails partial =>
            (Raise OSError,
             if (created && pil_removes_created lib)%bool then w
             else set_fs (<[p := NFile partial]> (fs w)) w)
        end
    end.

(** [piexif.insert(exif_data, str(p))] *)
Definition piexif_insert_at (exif_data : meta_value) (p : path) : M unit :=
  fun w =>
    match FS.stat (fs w) p with
    | Some (NFile f) =>
        match piexif_insert lib exif_data f with
        | Some f' => (Ok tt, set_fs (<[p := NFile f']> (fs w)) w)
        | None => (Raise ValueError, w)
        end
    | Some NDir => (Raise IsADirectoryError, w)
    | None => (Raise FileNotFoundError, w)
    end.

(** [_extract_metadata], lines 92-103: a copy of [img.info] *)
Definition _extract_metadata (img : Image) : list (string * meta_value) :=
  img_info img.

(** [_preserve_metadata], lines 105-121 *)
Definition _preserve_metadata (original_path output_path : path) : M unit :=
  try_except
    (let* original_img := Image_open original_path in
     match PyDict.get "exif" (img_info original_img) with
     | Some exif_data =>
         try_except
           (piexif_insert_at exif_data output_path >> print MsgExifKept)
           (fun _ => print MsgExifWriteFailed)
     | None => ret tt
     end)
    (fun _ => print MsgMetadataFailed).

(** The [PngInfo] built at lines 129-142 *)
Definition png_text (v : meta_value) : string :=
  match v with
  | Bytes b => utf8_ignore lib b
  | Text s => s
  end.

(** [_save_png_with_metadata], lines 123-151 *)
Definition _save_png_with_metadata (self : ImageCompressor) (img : Image)
    (output_path : path) (metadata : list (string * meta_value)) : M bool :=
  try_except
    (let meta := List.map (fun kv => (fst kv, png_text (snd kv))) metadata in
     Image_save img output_path "PNG"
       [("pnginfo", KPngInfo meta); ("optimize", KBool (optimize self));
        ("compress_level", KInt 0)] >>
     ret true)
    (fun _ => print MsgPngSaveFailed >> ret false).

(** Lines 167-176 of [compress_jpeg]: an image with alpha or a palette is
    pasted on a white RGB background, any other non-RGB image is
    converted. *)
Definition jpeg_rgb (img : Image) : M Image :=
  if PyStr.mem (img_mode img) ["RGBA"; "LA"; "P"] then
    let background := Image_new "RGB" in
    let* img := (if String.eqb (img_mode img) "P"
                 then convert img "RGBA" else ret img) in
    paste background img >> ret background
  else if negb (String.eqb (img_mode img) "RGB") then convert img "RGB"
  else ret img.

(** [compress_jpeg], lines 153-200 *)
Definition compress_jpeg (self : ImageCompressor) (input_path output_path : path)
  : M bool :=
  try_except
    (let* img := Image_open input_path in
     let metadata := _extract_metadata img in
     let* img := jpeg_rgb img in
     let save_kwargs :=
       PyDict.update
         [("quality", KInt (quality self)); ("optimize", KBool (optimize self));
          ("progressive", KBool (progressive self))]
         (List.map (fun kv => (fst kv, KMeta (snd kv))) metadata) in
     Image_save img output_path "JPEG" save_kwargs >>
     _preserve_metadata input_path output_path >>
     ret true)
    (fun e => print (MsgJpegFailed e) >> ret false).

(** [compress_png], lines 202-232 *)
Definition compress_png (self : ImageCompressor) (input_path output_path : path)
  : M bool :=
  try_except
    (let* img := Image_open input_path in
     let metadata := _extract_metadata img in
     let* img := (if String.eqb (img_mode img) "P"
                  then convert img "RGBA" else ret img) in
     let* success := _save_png_with_metadata self img output_path metadata in
     ret success)
    (fun e => print (MsgPngFailed e) >> ret false).

(** [compress_webp], lines 234-279 *)
Definition compress_webp (self : ImageCompressor) (input_path output_path : path)
  : M bool :=
  try_except
    (let* img := Image_open input_path in
     let original_info := img_info img in
     let save_kwargs :=
       fold_left
         (fun kw key =>
            match PyDict.get key original_info with
            | Some v => PyDict.set key (KMeta v) kw
            | None => kw
            end)
         ["exif"; "iptc"; "xmp"; "icc_profile"]
         [("quality", KInt (quality self)); ("method", KInt 6);
          ("lossless", KBool false)] in
     (if PyStr.mem (img_mode img) ["RGBA"; "LA"; "P"] then
        let* img := (if String.eqb (img_mode img) "P"
                     then convert img "RGBA" else ret img) in
        Image_save img output_path "WEBP" save_kwargs
      else
        let* img := convert img "RGB" in
        Image_save img output_path "WEBP" save_kwargs) >>
     _preserve_metadata input_path output_path >>
     ret true)
    (fun e => print (MsgWebpFailed e) >> ret false).

(** [p.with_suffix(sfx)] as a computation: [ValueError] on an empty name *)
Definition with_suffix (p : path) (sfx : string) : M path :=
  match PyPath.with_suffix p sfx with
  | Some q => ret q
  | None => raise ValueError
  end.

(** The value of [(1 - compressed_size / original_size) * 100] *)
Definition compression_ratio_of (compressed_size original_size : N) : Q :=
  ((1 - inject_Z (Z.of_N compressed_size) / inject_Z (Z.of_N original_size))
   * inject_Z 100)%Q.

(** [compressed_size / original_size], lines 342-344: Python's true
    division raises on a zero divisor; the quotient is taken in the
    rationals. *)
Definition compression_ratio (compressed_size original_size : N) : M Q :=
  if (original_size =? 0)%N then raise ZeroDivisionError
  else ret (compression_ratio_of compressed_size original_size).

(** The output format of lines 303-309 *)
Definition format_token (input_path : path) (format : option string) : string :=
  match format with
  | None => PyStr.lower (PyPath.suffix input_path)
  | Some f =>
      let f := PyStr.lower f in
      if PyStr.startswith_dot f then f else "." ++ f
  end.

(** The dispatch of lines 314-338.  [Some success] is the value of the
    variable [success] when control reaches line 340; [None] is one of the
    two [return False] of the detection branch. *)
Definition dispatch (self : ImageCompressor) (input_path output_path : path)
    (format : string) : M (option bool) :=
  if PyStr.mem format [".jpg"; ".jpeg"] then
    let* success := compress_jpeg self input_path output_path in ret (Some success)
  else if String.eqb format ".png" then
    let* success := compress_png self input_path output_path in ret (Some success)
  else if String.eqb format ".webp" then
    let* success := compress_webp self input_path output_path in ret (Some success)
  else
    print (MsgUnsupportedFormat format) >>
    try_except
      (let* img := Image_open input_path in
       if String.eqb (img_format img) "JPEG" then
         let* out := with_suffix output_path ".jpg" in
         let* success := compress_jpeg self input_path out in ret (Some success)
       else if String.eqb (img_format img) "PNG" then
         let* out := with_suffix output_path ".png" in
         let* success := compress_png self input_path out in ret (Some success)
       else if String.eqb (img_format img) "WEBP" then
         let* out := with_suffix output_path ".webp" in
         let* success := compress_webp self input_path out in ret (Some success)
       else
         print (MsgUnknownImageFormat (img_format img)) >> ret None)
      (fun e => print (MsgCannotRead e) >> ret None).

(** Lines 311-359: what [compress_image] does once the job is to go
    ahead. *)
Definition compress_to (self : ImageCompressor) (input_path output_path : path)
    (format : option string) : M bool :=
  let format := format_token input_path format in
  mkdir_parents (PyPath.parent output_path) >>
  let* r := dispatch self input_path output_path format in
  match r with
  | None => ret false
  | Some true =>
      let* original_size := path_size input_path in
      let* compressed_size := path_size output_path in
      let* ratio := compression_ratio compressed_size original_size in
      print (MsgSuccess original_size compressed_size ratio output_path) >>
      ret true
  | Some false => print MsgFailed >> ret false
  end.

(** Lines 289-293: the output path of the job *)
Definition resolve_output (input_path : path) (output_path : option path) : path :=
  match output_path with
  | None =>
      PyPath.join (PyPath.parent input_path)
        ["compressed_" ++ PyPath.name input_path]
  | Some o => o
  end.

(** [compress_image], lines 281-359 *)
Definition compress_image (self : ImageCompressor) (input_path : path)
    (output_path : option path) (format : option string) (overwrite : bool)
  : M bool :=
  let* ex := path_exists input_path in
  if negb ex then print (MsgInputMissing input_path) >> ret false
  else
    let output_path := resolve_output input_path output_path in
    let* out_ex := path_exists output_path in
    if (out_ex && negb overwrite)%bool then
      print (MsgOutputExists output_path) >>
      print MsgAskOverwrite >>
      let* line := input in
      if negb (String.eqb (PyStr.lower line) "y") then
        print MsgCancelled >> ret false
      else compress_to self input_path output_path format
    else compress_to self input_path output_path format.

(** ** Batch mode *)

Definition supported_formats : list string :=
  [".jpg"; ".jpeg"; ".png"; ".webp"; ".bmp"; ".tiff"].

(** The filter of line 399 *)
Definition is_image_file (m : gmap path node) (f : path) : bool :=
  (FS.is_file m f && PyStr.mem (PyStr.lower (PyPath.suffix f)) supported_formats)%bool.

(** Lines 393-399: the files of the batch, on the file system [m] *)
Definition image_files (m : gmap path node) (input_dir : path) (recursive : bool)
  : list path :=
  List.filter (is_image_file m)
    (if recursive then FS.rglob_star m input_dir else FS.glob_star m input_dir).

(** The counters of lines 408-410 *)
Record tally := mkTally {
  success_count : nat;
  total_original_size : N;
  total_compressed_size : N
}.

(** Lines 419-424: where the job for [image_file] writes *)
Definition output_file_of (input_dir output_dir : path) (recursive : bool)
    (image_file : path) : M path :=
  let* rel_path :=
    (if recursive then
       match PyPath.strip_prefix input_dir image_file with
       | Some rel => ret rel
       | None => raise ValueError
       end
     else ret [PyPath.name image_file]) in
  ret (PyPath.join output_dir rel_path).

(** The body of the loop, lines 415-433 *)
Definition batch_step (self : ImageCompressor) (input_dir output_dir : path)
    (recursive : bool) (format : option string) (overwrite : bool)
    (n i : nat) (image_file : path) (acc : tally) : M tally :=
  print (MsgProcessing (i + 1) n (PyPath.name image_file)) >>
  let* output_file := output_file_of input_dir output_dir recursive image_file in
  mkdir_parents (PyPath.parent output_file) >>
  let* ok := compress_image self image_file (Some output_file) format overwrite in
  if ok then
    let* o := path_size image_file in
    let* c := path_size output_file in
    ret (mkTally (success_count acc + 1) (total_original_size acc + o)
           (total_compressed_size acc + c))
  else ret acc.

(** The loop of line 414, over the files still to do *)
Fixpoint batch_loop (self : ImageCompressor) (input_dir output_dir : path)
    (recursive : bool) (format : option string) (overwrite : bool)
    (n i : nat) (files : list path) (acc : tally) : M tally :=
  match files with
  | [] => ret acc
  | image_file :: rest =>
      let* acc' := batch_step self input_dir output_dir recursive format
                     overwrite n i image_file acc in
      batch_loop self input_dir output_dir recursive format overwrite n (S i)
        rest acc'
  end.

(** The report of lines 435-441 *)
Definition batch_report (n : nat) (acc : tally) : M unit :=
  print MsgBatchDone >>
  print (MsgTally (success_count acc) n) >>
  if (0 <? success_count acc)%nat then
    let* total_compression_ratio :=
      compression_ratio (total_compressed_size acc) (total_original_size acc) in
    print (MsgTotalRatio total_compression_ratio) >>
    print (MsgSaved (Z.of_N (total_original_size acc)
                     - Z.of_N (total_compressed_size acc)))
  else ret tt.

(** [batch_compress], lines 372-441 *)
Definition batch_compress (self : ImageCompressor) (input_dir : path)
    (output_dir : option path) (recursive : bool) (format : option string)
    (overwrite : bool) : M unit :=
  let* ex := path_exists input_dir in
  let* isd := path_is_dir input_dir in
  if (negb ex || negb isd)%bool then print (MsgDirMissing input_dir)
  else
    let output_dir :=
      match output_dir with
      | None => PyPath.join input_dir ["compressed"]
      | Some d => d
      end in
    mkdir_parents output_dir >>
    let* files := (fun w => (Ok (image_files (fs w) input_dir recursive), w)) in
    match files with
    | [] => print (MsgNoImages input_dir)
    | _ =>
        let n := List.length files in
        print (MsgFound n) >>
        print (MsgBatchStart n) >>
        let* acc := batch_loop self input_dir output_dir recursive format
                      overwrite n 0 files (mkTally 0 0 0) in
        batch_report n acc
    end.

End Pipeline.

(** ** Sizes as printed: [format_size], lines 361-370 *)

Definition size_names : list string := ["B"; "KB"; "MB"; "GB"].

(** The loop of lines 367-369.  [size_bytes] is an integer on entry and a
    float after the first division.  Dividing a float by [1024.0] only
    lowers its exponent, and the conversion of an integer below [2^53] to a
    float is exact, so for the sizes of that range the loop computes the
    rational [size_bytes / 1024^i] with no rounding.  The condition
    [i < len(size_names) - 1] lets the body run [len(size_names) - 1] times
    at most, which is the fuel given. *)
Fixpoint format_size_loop (fuel : nat) (size_bytes : Q) (i : nat) : Q * nat :=
  match fuel with
  | O => (size_bytes, i)
  | S fuel' =>
      if (Qle_bool 1024 size_bytes && (i <? length size_names - 1)%nat)%bool
      then format_size_loop fuel' (size_bytes / 1024) (i + 1)
      else (size_bytes, i)
  end.

(** The nearest integer, a tie going to the even one: the rounding of
    Python's float formatting. *)
Definition round_half_even (x : Q) : Z :=
  let p := Qnum x in
  let q := Zpos (Qden x) in
  let f := p / q in
  match (2 * (p mod q)) ?= q with
  | Lt => f
  | Gt => f + 1
  | Eq => if Z.even f then f else f + 1
  end.

(** [f"{x:.1f}"]: the sign, the integer part, a dot and one decimal *)
Definition one_decimal (x : Q) : string :=
  let t := Z.abs (round_half_even (x * 10)) in
  (if Qle_bool 0 x then "" else "-")
  ++ pretty (Z.to_N (t / 10)) ++ "." ++ pretty (Z.to_N (t mod 10)).

(** [format_size], lines 361-370 *)
Definition format_size (size_bytes : Z) : string :=
  if size_bytes =? 0 then "0B"
  else
    let (x, i) :=
      format_size_loop (length size_names - 1) (inject_Z size_bytes) 0 in
    one_decimal x ++ nth i size_names "".

(** The sizes a printed line shows, as [format_size] renders them: lines
    351-352 and 441 *)
Definition shown_sizes (msg : message) : list string :=
  match msg with
  | MsgSuccess original compressed _ _ =>
      [format_size (Z.of_N original); format_size (Z.of_N compressed)]
  | MsgSaved bytes => [format_size bytes]
  | _ => []
  end.

(** ** The command line: [main], lines 443-515 *)

Record Args := mkArgs {
  a_input_path : path;
  a_output_path : option path;
  a_format : option string;
  a_quality : Z;
  a_output_dir : option path;
  a_recursive : bool;
  a_no_optimize : bool;
  a_no_progressive : bool;
  a_preset : string;
  a_overwrite : bool
}.

(** The checks of the click decorators, lines 444-452: the input path must
    exist, the quality lie in 1..100, the preset be one of the three
    choices.  click exits with code 2 on a usage error. *)
Definition click_accepts (a : Args) (w : World) : bool :=
  (FS.exists_ (fs w) (a_input_path a)
   && (1 <=? a_quality a) && (a_quality a <=? 100)
   && PyStr.mem (a_preset a) ["fast"; "balanced"; "quality"])%bool.

(** The batch branch, lines 478-494 *)
Definition main_batch (lib : Library) (a : Args) : M unit :=
  (match a_output_path a with
   | Some _ => print MsgWarnOutputIgnored
   | None => ret tt
   end) >>
  let* output_dir :=
    (match a_output_dir a with
     | Some d => ret d
     | None =>
         let d := PyPath.join (a_input_path a) ["compressed"] in
         print (MsgDefaultDir d) >> ret d
     end) in
  print MsgBatchBegin >>
  let compressor :=
    ImageCompressor_init (a_quality a) (negb (a_no_optimize a))
      (negb (a_no_progressive a)) (a_preset a) in
  batch_compress lib compressor (a_input_path a) (Some output_dir)
    (a_recursive a) (a_format a) (a_overwrite a).

(** The single-file branch, lines 497-515 *)
Definition main_single (lib : Library) (a : Args) : M unit :=
  let* isf := path_is_file (a_input_path a) in
  if negb isf then print MsgNotAFile >> raise (SystemExit 1)
  else
    (match a_output_dir a with
     | Some _ => print MsgWarnDirIgnored
     | None => ret tt
     end) >>
    print MsgSingleBegin >>
    let compressor :=
      ImageCompressor_init (a_quality a) (negb (a_no_optimize a))
        (negb (a_no_progressive a)) (a_preset a) in
    let* success := compress_image lib compressor (a_input_path a)
                      (a_output_path a) (a_format a) (a_overwrite a) in
    if negb success then raise (SystemExit 1) else ret tt.

(** The body of [main], lines 472-515 *)
Definition main (lib : Library) (a : Args) : M unit :=
  let* is_batch_mode := path_is_dir (a_input_path a) in
  if is_batch_mode then main_batch lib a else main_single lib a.

(** The exit status of the process: 2 when click rejects the arguments, the
    code of [sys.exit], 1 for an exception that nothing catches, 0 when
    [main] returns. *)
Definition exit_code {A} (r : result A) : Z :=
  match r with
  | Ok _ => 0
  | Raise (SystemExit n) => n
  | Raise _ => 1
  end.

Definition run (lib : Library) (a : Args) (w : World) : Z * World :=
  if click_accepts a w then
    let (r, w') := main lib a w in (exit_code r, w')
  else (2, w).

(** ** Worlds and outcomes used in the statements *)

(** The world after one more printed line *)
Definition say (msg : message) (w : World) : World :=
  mkWorld (fs w) (stdin w) (stdout w ++ [msg])%list.

(** The world once the two lines of the prompt are printed and one line of
    input is taken *)
Definition prompted (out : path) (rest : list string) (w : World) : World :=
  mkWorld (fs w) rest (stdout (say MsgAskOverwrite (say (MsgOutputExists out) w))).

(** The input of a job cannot be decoded: there is no regular file at [p],
    or Pillow does not recognise it, or its pixel data do not load. *)
Definition undecodable (m : gmap path node) (p : path) : Prop :=
  forall f img,
    FS.stat m p = Some (NFile f) -> decoded f = Some img -> img_loads img = false.

(** The regular files of two file systems are the same. *)
Definition same_files (m m' : gmap path node) : Prop :=
  forall q f, m' !! q = Some (NFile f) <-> m !! q = Some (NFile f).

(** The compressor [main] builds from its arguments, lines 488-493 and
    507-512 *)
Definition compressor_of (a : Args) : ImageCompressor :=
  ImageCompressor_init (a_quality a) (negb (a_no_optimize a))
    (negb (a_no_progressive a)) (a_preset a).

(** The world in which the single-file branch calls [compress_image] *)
Definition single_world (a : Args) (w : World) : World :=
  say MsgSingleBegin
    (match a_output_dir a with
     | Some _ => say MsgWarnDirIgnored w
     | None => w
     end).

(** The output directory of the batch branch, and the world in which it
    calls [batch_compress] *)
Definition batch_dir (a : Args) : path :=
  match a_output_dir a with
  | Some d => d
  | None => PyPath.join (a_input_path a) ["compressed"]
  end.

Definition batch_world (a : Args) (w : World) : World :=
  let w1 := match a_output_path a with
            | Some _ => say MsgWarnOutputIgnored w
            | None => w
            end in
  say MsgBatchBegin
    (match a_output_dir a with
     | Some _ => w1
     | None => say (MsgDefaultDir (batch_dir a)) w1
     end).

(** A file that decodes as an image is not empty. *)
Definition wf_file (f : file) : Prop := decoded f <> None -> st_size f <> 0%N.

Definition wf_fs (m : gmap path node) : Prop :=
  forall p f, m !! p = Some (NFile f) -> wf_file f.

(** What is assumed of the libraries: a file Pillow has encoded, and a file
    piexif has rewritten, is not empty; a partial file a failed [save]
    leaves behind is empty or not an image. *)
Record lib_ok (lib : Library) : Prop := mk_lib_ok {
  encoded_nonempty :
    forall img fmt kw f, pil_encode lib img fmt kw = Encoded f -> st_size f <> 0%N;
  partial_wf :
    forall img fmt kw f, pil_encode lib img fmt kw = EncodeFails f -> wf_file f;
  exif_nonempty :
    forall e f0 f, piexif_insert lib e f0 = Some f -> st_size f <> 0%N
}.

(** There is a regular file of non-zero size at [p]. *)
Definition nonempty_at (p : path) (w : World) : Prop :=
  exists f, FS.stat (fs w) p = Some (NFile f) /\ st_size f <> 0%N.

(** The counters of a batch never have a success without original bytes. *)
Definition tally_ok (acc : tally) : Prop :=
  (0 < success_count acc)%nat -> total_original_size acc <> 0%N.

(** An exception is benign when [except Exception] catches it and it is not
    a division by zero. *)
Definition benign (e : exn) : Prop :=
  is_Exception e = true /\ e <> ZeroDivisionError.

(** A number of tenths [t] written with one decimal, then a unit *)
Definition shown (t : Z) (u : string) : string :=
  pretty (Z.to_N (t / 10)) ++ "." ++ pretty (Z.to_N (t mod 10)) ++ u.

(** The keyword arguments [compress_jpeg] starts from, lines 179-183, and
    those of [compress_webp], lines 249-253 *)
Definition jpeg_settings (self : ImageCompressor) : list (string * kwarg) :=
  [("quality", KInt (quality self)); ("optimize", KBool (optimize self));
   ("progressive", KBool (progressive self))].

Definition webp_settings (self : ImageCompressor) : list (string * kwarg) :=
  [("quality", KInt (quality self)); ("method", KInt 6); ("lossless", KBool false)].

(** [f1] is [f0], or [f0] with an EXIF block put in by piexif. *)
Definition exif_added (lib : Library) (f0 f1 : file) : Prop :=
  f1 = f0 \/ exists e, piexif_insert lib e f0 = Some f1.

(** [f1] is what Pillow's encoder for [format] has produced, possibly with
    an EXIF block added. *)
Definition encoded_as (lib : Library) (format : string) (f1 : file) : Prop :=
  exists img kw f0, pil_encode lib img format kw = Encoded f0 /\ exif_added lib f0 f1.

(** The Pillow format a known format token selects, lines 316-321 *)
Definition encoder_of (token : string) : option string :=
  if PyStr.mem token [".jpg"; ".jpeg"] then Some "JPEG"
  else if String.eqb token ".png" then Some "PNG"
  else if String.eqb token ".webp" then Some "WEBP"
  else None.

(** The encoder the probe of lines 326-332 selects for a detected format,
    with the suffix it gives the output path *)
Definition probed (lib : Library) (self : ImageCompressor) (format : string)
  : option (string * (path -> path -> M bool)) :=
  if String.eqb format "JPEG" then Some (".jpg", compress_jpeg lib self)
  else if String.eqb format "PNG" then Some (".png", compress_png lib self)
  else if String.eqb format "WEBP" then Some (".webp", compress_webp lib self)
  else None.

(** The paths a job may write: its output path and what the probe of the
    header makes of it. *)
Definition job_targets (out q : path) : Prop :=
  q = out
  \/ exists sfx, In sfx [".jpg"; ".png"; ".webp"] /\ PyPath.with_suffix out sfx = Some q.

(** The file system [m'] is [m] outside [P], new directories at paths of
    [D] apart. *)
Definition outside (P D : path -> Prop) (m m' : gmap path node) : Prop :=
  forall q, ~ P q ->
    m' !! q = m !! q \/ (m !! q = None /\ m' !! q = Some NDir /\ D q).

(** The paths at or below [d], and the ancestors of [d] *)
Definition at_or_below (d q : path) : Prop := exists rel, q = (d ++ rel)%list.
Definition ancestor_of (d q : path) : Prop := exists rest, d = (q ++ rest)%list.

(** ** Terms of the statements about batches and failed jobs *)

(** Lowercasing as a table, written out independently of [PyStr.lower]:
    each of the 26 capital letters becomes the small letter at the same
    place of the alphabet, every other character stays. *)
Definition ascii_uppercase : string := "ABCDEFGHIJKLMNOPQRSTUVWXYZ".
Definition ascii_lowercase : string := "abcdefghijklmnopqrstuvwxyz".

Fixpoint small_letter (upper lower : string) (c : ascii) : ascii :=
  match upper, lower with
  | String u upper', String l lower' =>
      if Ascii.eqb c u then l else small_letter upper' lower' c
  | _, _ => c
  end.

Fixpoint spec_lower (s : string) : string :=
  match s with
  | EmptyString => EmptyString
  | String c r => String (small_letter ascii_uppercase ascii_lowercase c) (spec_lower r)
  end.

(** What a failed encoder leaves behind, writing to [p]: the file system
    [m] as it was, or, when Pillow's [save] failed after it had opened
    [p], the partial file at [p].  The partial file stays when [p]
    existed before the call or when this Pillow does not remove a file it
    created. *)
Definition left_by_failed_save (lib : Library) (p : path) (m m' : gmap path node)
  : Prop :=
  m' = m
  \/ exists img fmt kw partial,
       pil_encode lib img fmt kw = EncodeFails partial
       /\ m' = <[p := NFile partial]> m
       /\ (FS.exists_ m p = true \/ pil_removes_created lib = false).

(** The same, seen at the single path [out]: [out] holds what it held, or
    the partial file of a failed [save]. *)
Definition left_at (lib : Library) (out : path) (m m' : gmap path node) : Prop :=
  m' !! out = m !! out
  \/ exists img fmt kw partial,
       pil_encode lib img fmt kw = EncodeFails partial
       /\ m' !! out = Some (NFile partial)
       /\ (FS.exists_ m out = true \/ pil_removes_created lib = false).



(** ** Sample worlds *)

Module Demo.

(** A codec that always succeeds and writes 40 bytes, on a Pillow that
    leaves a partial file behind, with a piexif whose EXIF block adds 20
    bytes. *)
Definition lib : Library :=
  mkLibrary
    (fun img fmt _ => Encoded (mkFile 40 (Some (mkImage fmt (img_mode img) [] true))))
    false (fun _ f => Some (mkFile (st_size f + 20) (decoded f))) (fun s => s).

(** A codec whose encoder always fails after writing 7 bytes. *)
Definition failing_lib : Library :=
  mkLibrary (fun _ _ _ => EncodeFails (mkFile 7 None))
    false (fun _ f => Some f) (fun s => s).

Definition png (sz : N) : node := NFile (mkFile sz (Some (mkImage "PNG" "RGB" [] true))).
Definition jpg (sz : N) : node := NFile (mkFile sz (Some (mkImage "JPEG" "RGB" [] true))).
(** a JPEG whose header parses and whose pixel data are cut short *)
Definition truncated_jpg (sz : N) : node :=
  NFile (mkFile sz (Some (mkImage "JPEG" "RGB" [] false))).
Definition text (sz : N) : node := NFile (mkFile sz None).

Definition compressor : ImageCompressor := ImageCompressor_init 85 true true "balanced".

(** [tinypng-cli INPUT [-o OUTPUT] [--overwrite]] *)
Definition single (input_path : path) (output_path : option path) (overwrite : bool)
  : Args :=
  mkArgs input_path output_path None 85 None false false false "balanced" overwrite.

(** [tinypng-cli DIR -d OUT [-r] --overwrite] *)
Definition batch (input_dir output_dir : path) (recursive : bool) : Args :=
  mkArgs input_dir None None 85 (Some output_dir) recursive false false "balanced" true.

(** [a.png], an existing [out.png], a text file named [bad.png]; the user
    answers [n]. *)
Definition asked_world : World :=
  mkWorld
    (<[ ["a.png"] := png 100 ]>
       (<[ ["out.png"] := png 30 ]> (<[ ["bad.png"] := text 12 ]> ∅)))
    ["n"] [].

(** The directory [in] of {a.png, b.jpg, notes.txt} *)
Definition flat_world : World :=
  mkWorld
    (<[ ["in"; "notes.txt"] := text 5 ]>
       (<[ ["in"; "b.jpg"] := jpg 100 ]>
          (<[ ["in"; "a.png"] := png 100 ]> (<[ ["in"] := NDir ]> ∅))))
    [] [].

(** The tree [root]/{x.png, sub/y.png} *)
Definition tree_world : World :=
  mkWorld
    (<[ ["root"; "sub"; "y.png"] := png 100 ]>
       (<[ ["root"; "sub"] := NDir ]>
          (<[ ["root"; "x.png"] := png 100 ]> (<[ ["root"] := NDir ]> ∅))))
    [] [].

(** [photo.jfif], a JPEG under an extension the dispatch does not know, and
    [cut.jfif], the same with its pixel data cut short *)
Definition jfif_world : World :=
  mkWorld
    (<[ ["d"; "cut.jfif"] := truncated_jpg 60 ]>
       (<[ ["d"; "photo.jfif"] := jpg 100 ]> (<[ ["d"] := NDir ]> ∅)))
    [] [].

(** A directory whose only image is unreadable *)
Definition hopeless_world : World :=
  mkWorld (<[ ["in"; "bad.png"] := text 12 ]> (<[ ["in"] := NDir ]> ∅)) [] [].


Definition bmp (sz : N) : node := NFile (mkFile sz (Some (mkImage "BMP" "RGB" [] true))).

(** a progressive JPEG with an EXIF block, and a PNG with a palette *)
Definition shot : node :=
  NFile (mkFile 900
           (Some (mkImage "JPEG" "RGB"
                    [("exif", Bytes "Exif"); ("progressive", Text "1")] true))).
Definition icon : node :=
  NFile (mkFile 200 (Some (mkImage "PNG" "P" [("dpi", Text "(72, 72)")] true))).

(** The directory [album] of {shot.jpg, icon.png, scan.bmp, notes.txt} *)
Definition album_world : World :=
  mkWorld
    (<[ ["album"; "notes.txt"] := text 5 ]>
       (<[ ["album"; "scan.bmp"] := bmp 300 ]>
          (<[ ["album"; "icon.png"] := icon ]>
             (<[ ["album"; "shot.jpg"] := shot ]> (<[ ["album"] := NDir ]> ∅)))))
    [] [].

(** The files of [asked_world] with nothing to read on standard input *)
Definition silent_world : World := mkWorld (fs asked_world) [] [].

(** A directory without images *)
Definition docs_world : World :=
  mkWorld (<[ ["docs"; "notes.txt"] := text 5 ]> (<[ ["docs"] := NDir ]> ∅)) [] [].

(** The failing codec on a Pillow that removes a file its [save] created *)
Definition tidy_failing_lib : Library :=
  mkLibrary (fun _ _ _ => EncodeFails (mkFile 7 None))
    true (fun _ f => Some f) (fun s => s).

Definition webp (sz : N) : node :=
  NFile (mkFile sz (Some (mkImage "WEBP" "RGB" [] true))).
Definition tiff (sz : N) : node :=
  NFile (mkFile sz (Some (mkImage "TIFF" "RGB" [] true))).
Definition gif (sz : N) : node :=
  NFile (mkFile sz (Some (mkImage "GIF" "P" [] true))).

(** The directory [pics]: one file for each supported extension, in mixed
    case; a GIF, a backup copy, a file named [.png], a file without
    extension and a directory named [dir.png], none of which is an image
    file of the batch; and a JPEG one level down. *)
Definition gallery_world : World :=
  mkWorld
    (<[ ["pics"; "sub"; "deep.JPG"] := jpg 100 ]>
       (<[ ["pics"; "sub"] := NDir ]>
          (<[ ["pics"; "dir.png"] := NDir ]>
             (<[ ["pics"; "README"] := text 5 ]>
                (<[ ["pics"; ".png"] := png 100 ]>
                   (<[ ["pics"; "h.png.bak"] := png 100 ]>
                      (<[ ["pics"; "g.gif"] := gif 100 ]>
                         (<[ ["pics"; "f.tiff"] := tiff 100 ]>
                            (<[ ["pics"; "e.Bmp"] := bmp 100 ]>
                               (<[ ["pics"; "d.WebP"] := webp 100 ]>
                                  (<[ ["pics"; "c.tar.PNG"] := png 100 ]>
                                     (<[ ["pics"; "b.JPEG"] := jpg 100 ]>
                                        (<[ ["pics"; "A.JPG"] := jpg 100 ]>
                                           (<[ ["pics"] := NDir ]> ∅))))))))))))))
    [] [].

End Demo.

(** * Properties *)

Local Open Scope list_scope.

(** ** Preset resolution *)

Lemma init_cases (q : Z) (o p : bool) (preset0 : string) :
  ImageCompressor_init q o p preset0 =
    mkCompressor preset0 (Z.max 70 (q - 10)) false false /\ preset0 = "fast"
  \/ ImageCompressor_init q o p preset0 =
       mkCompressor preset0 (Z.min 95 (q + 5)) true true /\ preset0 = "quality"
  \/ ImageCompressor_init q o p preset0 = mkCompressor preset0 q o p
     /\ preset0 <> "fast" /\ preset0 <> "quality".
Proof.
  unfold ImageCompressor_init.
  destruct (String.eqb_spec preset0 "fast") as [-> | Hf]; [now left |].
  destruct (String.eqb_spec preset0 "balanced") as [-> | Hb].
  - right; right. repeat split; discriminate.
  - destruct (String.eqb_spec preset0 "quality") as [-> | Hq]; [right; now left |].
    right; right. now repeat split.
Qed.

(** C1: for a base quality in 1..100 the resolved quality is in 1..100
    whatever the preset; [fast] clears both flags and gives
    [max(70, q - 10)], at least 70; [quality] sets both flags and gives
    [min(95, q + 5)]; [balanced] keeps the quality and the flags given. *)
Theorem C1_preset_resolution (q : Z) (o p : bool) (Hq : 1 <= q <= 100) :
  (forall preset0, 1 <= quality (ImageCompressor_init q o p preset0) <= 100)
  /\ (let c := ImageCompressor_init q o p "fast" in
      optimize c = false /\ progressive c = false
      /\ quality c = Z.max 70 (q - 10) /\ 70 <= quality c)
  /\ (let c := ImageCompressor_init q o p "quality" in
      optimize c = true /\ progressive c = true
      /\ quality c = Z.min 95 (q + 5))
  /\ (let c := ImageCompressor_init q o p "balanced" in
      quality c = q /\ optimize c = o /\ progressive c = p).
Proof.
  split; [| split; [| split]].
  - intros preset0.
    destruct (init_cases q o p preset0) as [[-> _] | [[-> _] | [-> _]]];
      cbn [quality]; lia.
  - cbn. repeat split; lia.
  - cbn. repeat split.
  - cbn. repeat split.
Qed.

Lemma C1_preset_resolution_witness :
  (forall preset0, 1 <= quality (ImageCompressor_init 50 false true preset0) <= 100)
  /\ quality (ImageCompressor_init 50 false true "fast") = 70
  /\ quality (ImageCompressor_init 50 false true "quality") = 55.
Proof.
  destruct (C1_preset_resolution 50 false true ltac:(lia)) as (Hall & Hf & Hq & _).
  split; [exact Hall |]. split.
  - destruct Hf as (_ & _ & -> & _). reflexivity.
  - destruct Hq as (_ & _ & ->). reflexivity.
Defined.

(** C7, as stated, fails: the constructor has no error path; an unknown
    preset name goes through the final [else] and yields a parameter
    set. *)
Lemma C7_unknown_preset_counterexample :
  ImageCompressor_init 85 true true "turbo" = mkCompressor "turbo" 85 true true.
Proof. reflexivity. Qed.

(** C7, amended: for a preset name that is none of [fast], [balanced],
    [quality], construction succeeds with the base quality and the flags
    given, exactly the parameters of [balanced]; such a name never reaches
    the constructor from the command line, where click's choice check ends
    the process with status 2. *)
Theorem C7_unknown_preset_falls_back (q : Z) (o p : bool) (preset0 : string)
    (Hf : preset0 <> "fast") (Hb : preset0 <> "balanced") (Hq : preset0 <> "quality") :
  ImageCompressor_init q o p preset0 = mkCompressor preset0 q o p
  /\ quality (ImageCompressor_init q o p preset0)
     = quality (ImageCompressor_init q o p "balanced")
  /\ optimize (ImageCompressor_init q o p preset0)
     = optimize (ImageCompressor_init q o p "balanced")
  /\ progressive (ImageCompressor_init q o p preset0)
     = progressive (ImageCompressor_init q o p "balanced")
  /\ forall lib a w, a_preset a = preset0 -> run lib a w = (2, w).
Proof.
  assert (E : ImageCompressor_init q o p preset0 = mkCompressor preset0 q o p).
  { destruct (init_cases q o p preset0) as [[_ ?] | [[_ ?] | [E _]]]; congruence. }
  rewrite E. repeat split.
  intros lib a w Ha. unfold run, click_accepts. rewrite Ha.
  assert (Hm : PyStr.mem preset0 ["fast"; "balanced"; "quality"] = false).
  { unfold PyStr.mem. cbn [existsb].
    destruct (String.eqb_spec preset0 "fast"); [congruence |].
    destruct (String.eqb_spec preset0 "balanced"); [congruence |].
    destruct (String.eqb_spec preset0 "quality"); [congruence |]. reflexivity. }
  rewrite Hm. now rewrite andb_false_r.
Qed.

Lemma C7_unknown_preset_falls_back_witness :
  ImageCompressor_init 85 false true "turbo" = mkCompressor "turbo" 85 false true.
Proof.
  apply (C7_unknown_preset_falls_back 85 false true "turbo"); discriminate.
Defined.

(** C8, as stated, fails: under [quality] a caller's [optimize = false]
    and [progressive = false] are lost, and under [fast] a caller's [true]
    flags are lost. *)
Lemma C8_flags_overridden_counterexample :
  optimize (ImageCompressor_init 85 false false "quality") = true
  /\ progressive (ImageCompressor_init 85 false false "quality") = true
  /\ optimize (ImageCompressor_init 85 true true "fast") = false
  /\ progressive (ImageCompressor_init 85 true true "fast") = false.
Proof. repeat split. Qed.

(** C8, amended: the flags supplied by the caller are carried only under
    [balanced] (and under a name the constructor does not know); [fast]
    yields both flags false and [quality] both flags true whatever the
    caller supplied; the quality is the caller's under [balanced],
    [max(70, q - 10)] under [fast] and [min(95, q + 5)] under [quality]. *)
Theorem C8_flags_follow_the_preset (q : Z) (o p : bool) (preset0 : string) :
  let c := ImageCompressor_init q o p preset0 in
  optimize c = (if String.eqb preset0 "fast" then false
                else if String.eqb preset0 "quality" then true else o)
  /\ progressive c = (if String.eqb preset0 "fast" then false
                      else if String.eqb preset0 "quality" then true else p)
  /\ quality c = (if String.eqb preset0 "fast" then Z.max 70 (q - 10)
                  else if String.eqb preset0 "quality" then Z.min 95 (q + 5) else q).
Proof.
  cbv zeta. unfold ImageCompressor_init.
  destruct (String.eqb preset0 "fast"); [repeat split |].
  destruct (String.eqb_spec preset0 "balanced") as [-> | _]; [repeat split |].
  destruct (String.eqb preset0 "quality"); repeat split.
Qed.

(** ** Strings and paths *)

Lemma mem_In (x : string) (xs : list string) : PyStr.mem x xs = true <-> In x xs.
Proof.
  unfold PyStr.mem. rewrite existsb_exists. split.
  - intros (y & Hy & E). apply String.eqb_eq in E. now subst.
  - intros H. exists x. split; [exact H | apply String.eqb_refl].
Qed.

Lemma strip_prefix_spec (d p rel : path) :
  PyPath.strip_prefix d p = Some rel <-> p = (d ++ rel)%list.
Proof.
  revert p. induction d as [| c d IH]; intros p; cbn.
  - split; [intros [= ->]; reflexivity | intros ->; reflexivity].
  - destruct p as [| c' p]; [split; discriminate |].
    destruct (String.eqb_spec c c') as [-> | Hne].
    + rewrite IH. split; [intros ->; reflexivity | intros [= ->]; reflexivity].
    + split; [discriminate | intros [= E _]; congruence].
Qed.

Lemma strip_prefix_app (d rel : path) : PyPath.strip_prefix d (d ++ rel) = Some rel.
Proof. now apply strip_prefix_spec. Qed.

Lemma is_child_spec (d p : path) :
  FS.is_child d p = true <-> exists n, p = (d ++ [n])%list.
Proof.
  unfold FS.is_child. split.
  - destruct (PyPath.strip_prefix d p) as [[| n [| ? ?]] |] eqn:E; try discriminate.
    intros _. exists n. now apply strip_prefix_spec.
  - intros (n & ->). now rewrite strip_prefix_app.
Qed.

Lemma is_below_spec (d p : path) :
  FS.is_below d p = true <-> exists rel, rel <> [] /\ p = (d ++ rel)%list.
Proof.
  unfold FS.is_below. split.
  - destruct (PyPath.strip_prefix d p) as [[| n r] |] eqn:E; try discriminate.
    intros _. exists (n :: r). split; [discriminate | now apply strip_prefix_spec].
  - intros (rel & Hrel & ->). rewrite strip_prefix_app.
    destruct rel; [congruence | reflexivity].
Qed.

Lemma name_app_last (d : path) (n : string) : PyPath.name (d ++ [n]) = n.
Proof. unfold PyPath.name. apply last_last. Qed.

Lemma parent_app_last (d : path) (n : string) : PyPath.parent (d ++ [n]) = d.
Proof. unfold PyPath.parent. apply removelast_last. Qed.

(** ** Discovery *)

Lemma keys_In (m : gmap path node) (p : path) :
  In p (map_to_list m).*1 <-> exists x, m !! p = Some x.
Proof.
  rewrite <- list_elem_of_In, list_elem_of_fmap. split.
  - intros ([q x] & -> & H). exists x. now apply elem_of_map_to_list in H.
  - intros (x & H). exists (p, x). split; [reflexivity | now apply elem_of_map_to_list].
Qed.

Lemma is_file_spec (m : gmap path node) (p : path) :
  FS.is_file m p = true <-> p <> [] /\ exists f, m !! p = Some (NFile f).
Proof.
  unfold FS.is_file, FS.stat. destruct p as [| c r].
  - split; [discriminate | intros [H _]; congruence].
  - destruct (m !! (c :: r)) as [[f |] |].
    + split; [intros _ | reflexivity]. split; [discriminate | exists f; reflexivity].
    + split; [discriminate | intros (_ & f & [=])].
    + split; [discriminate | intros (_ & f & [=])].
Qed.

Lemma image_files_spec (m : gmap path node) (input_dir : path) (recursive : bool)
    (p : path) :
  In p (image_files m input_dir recursive) <->
  exists rel f,
    p = (input_dir ++ rel)%list
    /\ (if recursive then rel <> [] else exists n, rel = [n])
    /\ m !! p = Some (NFile f)
    /\ In (PyStr.lower (PyPath.suffix p)) supported_formats.
Proof.
  unfold image_files, is_image_file.
  rewrite filter_In, andb_true_iff, is_file_spec, mem_In. split.
  - intros (Hd & (Hne & f & Hf) & Hs).
    destruct recursive.
    + unfold FS.rglob_star in Hd. apply filter_In in Hd as [_ Hd].
      apply is_below_spec in Hd as (rel & Hrel & ->). now exists rel, f.
    + unfold FS.glob_star in Hd. apply filter_In in Hd as [_ Hd].
      apply is_child_spec in Hd as (n & ->). exists [n], f. eauto.
  - intros (rel & f & -> & Hrel & Hf & Hs).
    assert (Hne : rel <> []) by (destruct recursive; [assumption | destruct Hrel as [n ->]; discriminate]).
    split; [| split; [split |]]; eauto.
    + destruct recursive.
      * apply filter_In. split; [apply keys_In; eauto | apply is_below_spec; eauto].
      * destruct Hrel as [n ->]. apply filter_In.
        split; [apply keys_In; eauto | apply is_child_spec; eauto].
    + destruct rel; [congruence | destruct input_dir; discriminate].
Qed.

Lemma image_files_NoDup (m : gmap path node) (input_dir : path) (recursive : bool) :
  List.NoDup (image_files m input_dir recursive).
Proof.
  unfold image_files, FS.rglob_star, FS.glob_star.
  apply List.NoDup_filter.
  destruct recursive; apply List.NoDup_filter, NoDup_ListNoDup, NoDup_fst_map_to_list.
Qed.

(** [mkdir] only adds directories. *)
Lemma mkdir_chain_lookup (ds : list path) (m m' : gmap path node) :
  FS.mkdir_chain ds m = Ok m' ->
  forall q, m' !! q = m !! q \/ (m !! q = None /\ m' !! q = Some NDir /\ In q ds).
Proof.
  revert m. induction ds as [| d r IH]; intros m H q; cbn in H.
  - injection H as <-. now left.
  - destruct (m !! d) as [[f |] |] eqn:E; [discriminate | |].
    + destruct (IH _ H q) as [-> | (? & ? & ?)]; [now left | right; cbn; eauto].
    + destruct (IH _ H q) as [-> | (Hn & ? & ?)].
      * destruct (decide (d = q)) as [<- | Hne].
        -- rewrite lookup_insert_eq. right. cbn. eauto.
        -- rewrite lookup_insert_ne by assumption. now left.
      * destruct (decide (d = q)) as [<- | Hne].
        -- now rewrite lookup_insert_eq in Hn.
        -- rewrite lookup_insert_ne in Hn by assumption. right. cbn. eauto.
Qed.

Lemma mkdir_p_files (m m' : gmap path node) (d q : path) (f : file) :
  FS.mkdir_p m d = Ok m' -> (m' !! q = Some (NFile f) <-> m !! q = Some (NFile f)).
Proof.
  intros H. destruct (mkdir_chain_lookup _ _ _ H q) as [-> | (Hn & Hd & _)];
    [reflexivity |].
  rewrite Hn, Hd. split; discriminate.
Qed.

Lemma image_files_mkdir (m m' : gmap path node) (out input_dir : path)
    (recursive : bool) (p : path) :
  FS.mkdir_p m out = Ok m' ->
  (In p (image_files m' input_dir recursive) <-> In p (image_files m input_dir recursive)).
Proof.
  intros H. rewrite !image_files_spec.
  split; intros (rel & f & ? & ? & Hf & ?); exists rel, f;
    (repeat split; try assumption); now apply (mkdir_p_files _ _ _ _ _ H).
Qed.

(** ** Reasoning about computations *)

Lemma print_eq (msg : message) (w : World) : print msg w = (Ok tt, say msg w).
Proof. reflexivity. Qed.

Lemma bind_ok_inv {A B} (m : M A) (k : A -> M B) (w w' : World) (b : B) :
  bind m k w = (Ok b, w') ->
  exists a w1, m w = (Ok a, w1) /\ k a w1 = (Ok b, w').
Proof.
  unfold bind. destruct (m w) as [[a | e] w1]; [eauto | discriminate].
Qed.

Lemma bind_eq_ok {A B} (m : M A) (k : A -> M B) (w w1 : World) (a : A) :
  m w = (Ok a, w1) -> bind m k w = k a w1.
Proof. unfold bind. now intros ->. Qed.

Lemma bind_eq_raise {A B} (m : M A) (k : A -> M B) (w w1 : World) (e : exn) :
  m w = (Raise e, w1) -> bind m k w = (Raise e, w1).
Proof. unfold bind. now intros ->. Qed.

Lemma try_eq_ok {A} (m : M A) (h : exn -> M A) (w w1 : World) (a : A) :
  m w = (Ok a, w1) -> try_except m h w = (Ok a, w1).
Proof. unfold try_except. now intros ->. Qed.

Lemma try_eq_raise {A} (m : M A) (h : exn -> M A) (w w1 : World) (e : exn) :
  m w = (Raise e, w1) -> is_Exception e = true -> try_except m h w = h e w1.
Proof. unfold try_except. now intros -> ->. Qed.

Section Invariants.

Variable lib : Library.

(** The files Pillow may put on disk, whole or partial, and those piexif
    may *)
Definition pil_writes (f : file) : Prop :=
  exists img fmt kw,
    pil_encode lib img fmt kw = Encoded f
    \/ pil_encode lib img fmt kw = EncodeFails f.

Definition exif_writes (f : file) : Prop :=
  exists e f0, piexif_insert lib e f0 = Some f.

(** A property [J] of the world that printing, creating directories and
    the libraries' writes keep *)
Variable J : World -> Prop.
Hypothesis J_say : forall w msg, J w -> J (say msg w).
Hypothesis J_mkdir :
  forall w ds m, J w -> FS.mkdir_chain ds (fs w) = Ok m -> J (set_fs m w).
Hypothesis J_pil :
  forall w p f, J w -> pil_writes f -> J (set_fs (<[p := NFile f]> (fs w)) w).
Hypothesis J_exif :
  forall w p f, J w -> exif_writes f -> J (set_fs (<[p := NFile f]> (fs w)) w).

(** [m] keeps [J] and raises benign exceptions only. *)
Definition keeps {A} (m : M A) : Prop :=
  forall w r w', m w = (r, w') ->
    (J w -> J w') /\ (forall e, r = Raise e -> benign e).

Lemma keeps_ret {A} (a : A) : keeps (ret a).
Proof. intros w r w' [= <- <-]. split; [auto | discriminate]. Qed.

Lemma keeps_raise {A} (e : exn) : benign e -> keeps (@raise A e).
Proof. intros He w r w' [= <- <-]. split; [auto | now intros ? [= <-]]. Qed.

Lemma keeps_bind {A B} (m : M A) (k : A -> M B) :
  keeps m -> (forall a, keeps (k a)) -> keeps (bind m k).
Proof.
  intros Hm Hk w r w'. unfold bind.
  destruct (m w) as [[a | e] w1] eqn:E; destruct (Hm _ _ _ E) as [HJ He].
  - intros Hka. destruct (Hk _ _ _ _ Hka) as [HJ' He'].
    split; [intros H; apply HJ', HJ, H | exact He'].
  - intros [= <- <-]. split; [exact HJ | intros e0 [= <-]; now apply He].
Qed.

Lemma keeps_try {A} (m : M A) (h : exn -> M A) :
  keeps m -> (forall e, keeps (h e)) -> keeps (try_except m h).
Proof.
  intros Hm Hh w r w'. unfold try_except.
  destruct (m w) as [[a | e] w1] eqn:E; destruct (Hm _ _ _ E) as [HJ He].
  - intros [= <- <-]. split; [exact HJ | discriminate].
  - destruct (He e eq_refl) as [Hex _]. rewrite Hex.
    intros Hhe. destruct (Hh _ _ _ _ Hhe) as [HJ' He'].
    split; [intros H; apply HJ', HJ, H | exact He'].
Qed.

Lemma keeps_print (msg : message) : keeps (print msg).
Proof. intros w r w' [= <- <-]. split; [apply J_say | discriminate]. Qed.

Lemma keeps_path_size (p : path) : keeps (path_size p).
Proof.
  intros w r w'. unfold path_size, FS.size_of.
  destruct (FS.stat (fs w) p) as [[f |] |]; intros [= <- <-];
    (split; [auto | try discriminate]).
  intros e [= <-]. split; [reflexivity | discriminate].
Qed.

Lemma mkdir_chain_benign (ds : list path) (m : gmap path node) (e : exn) :
  FS.mkdir_chain ds m = Raise e -> benign e.
Proof.
  revert m. induction ds as [| d r IH]; intros m; cbn; [discriminate |].
  destruct (m !! d) as [[f |] |]; [| apply IH | apply IH].
  intros [= <-]. destruct r; split; (reflexivity || discriminate).
Qed.

Lemma keeps_mkdir_parents (p : path) : keeps (mkdir_parents p).
Proof.
  intros w r w'. unfold mkdir_parents, FS.mkdir_p.
  destruct (FS.mkdir_chain _ _) as [m | e] eqn:E; intros [= <- <-].
  - split; [intros HJ; now apply (J_mkdir _ _ _ HJ E) | discriminate].
  - split; [auto |]. intros e' [= <-]. now apply (mkdir_chain_benign _ _ _ E).
Qed.

Lemma keeps_Image_open (p : path) : keeps (Image_open p).
Proof.
  intros w r w'. unfold Image_open.
  destruct (FS.stat (fs w) p) as [[f |] |]; [destruct (decoded f) |..];
    intros [= <- <-]; (split; [auto |]); try discriminate;
    intros e [= <-]; split; (reflexivity || discriminate).
Qed.

Lemma keeps_load (img : Image) : keeps (load img).
Proof.
  unfold load. destruct (img_loads img); [apply keeps_ret |].
  apply keeps_raise. split; (reflexivity || discriminate).
Qed.

Lemma keeps_convert (img : Image) (mode : string) : keeps (convert img mode).
Proof. apply keeps_bind; [apply keeps_load | intros; apply keeps_ret]. Qed.

Lemma keeps_with_suffix (p : path) (sfx : string) : keeps (with_suffix p sfx).
Proof.
  unfold with_suffix. destruct (PyPath.with_suffix p sfx); [apply keeps_ret |].
  apply keeps_raise. split; (reflexivity || discriminate).
Qed.

Lemma open_w_benign (m : gmap path node) (p : path) (e : exn) :
  FS.open_w m p = Some e -> benign e.
Proof.
  unfold FS.open_w.
  destruct (FS.stat m p) as [[f |] |];
    try (destruct (FS.stat m (PyPath.parent p)) as [[f' |] |]);
    intros [= <-]; split; (reflexivity || discriminate).
Qed.

Lemma keeps_Image_save (img : Image) (p : path) (fmt : string)
    (kw : list (string * kwarg)) : keeps (Image_save lib img p fmt kw).
Proof.
  unfold Image_save. apply keeps_bind; [apply keeps_load | intros _].
  intros w r w'.
  destruct (FS.open_w (fs w) p) as [e |] eqn:Eo.
  - intros [= <- <-]. split; [auto |]. intros e' [= <-].
    now apply (open_w_benign _ _ _ Eo).
  - destruct (pil_encode lib img fmt kw) as [f | f] eqn:Ee.
    + intros [= <- <-]. split; [| discriminate].
      intros HJ. apply J_pil; [assumption |]. exists img, fmt, kw. now left.
    + intros [= <- <-]. split.
      * intros HJ. destruct (_ && _)%bool; [assumption |].
        apply J_pil; [assumption |]. exists img, fmt, kw. now right.
      * intros e [= <-]. split; (reflexivity || discriminate).
Qed.

Lemma keeps_piexif_insert_at (v : meta_value) (p : path) :
  keeps (piexif_insert_at lib v p).
Proof.
  intros w r w'. unfold piexif_insert_at.
  destruct (FS.stat (fs w) p) as [[f |] |];
    [destruct (piexif_insert lib v f) as [f' |] eqn:E |..];
    intros [= <- <-]; (split; [| try discriminate]); auto;
    try (intros e [= <-]; split; (reflexivity || discriminate)).
  intros HJ. apply J_exif; [assumption |]. now exists v, f.
Qed.

(** One step of a proof that a program built from the operations above
    keeps [J]: a rule for the head construct, or a case split on the
    scrutinee of a conditional. *)
Ltac keeps_step :=
  match goal with
  | |- keeps (ret _) => apply keeps_ret
  | |- keeps (bind _ _) => apply keeps_bind
  | |- keeps (try_except _ _) => apply keeps_try
  | |- keeps (print _) => apply keeps_print
  | |- keeps (path_size _) => apply keeps_path_size
  | |- keeps (mkdir_parents _) => apply keeps_mkdir_parents
  | |- keeps (Image_open _) => apply keeps_Image_open
  | |- keeps (load _) => apply keeps_load
  | |- keeps (paste _ _) => apply keeps_load
  | |- keeps (convert _ _) => apply keeps_convert
  | |- keeps (with_suffix _ _) => apply keeps_with_suffix
  | |- keeps (Image_save _ _ _ _ _) => apply keeps_Image_save
  | |- keeps (piexif_insert_at _ _ _) => apply keeps_piexif_insert_at
  | |- keeps (if ?b then _ else _) => destruct b
  | |- keeps (match ?x with _ => _ end) => destruct x
  | |- forall _, _ => intro
  end.

Lemma keeps_jpeg_rgb (img : Image) : keeps (jpeg_rgb img).
Proof. unfold jpeg_rgb. repeat keeps_step. Qed.

Lemma keeps_preserve_metadata (a b : path) : keeps (_preserve_metadata lib a b).
Proof. unfold _preserve_metadata. repeat keeps_step. Qed.

Lemma keeps_save_png (self : ImageCompressor) (img : Image) (p : path)
    (md : list (string * meta_value)) :
  keeps (_save_png_with_metadata lib self img p md).
Proof. unfold _save_png_with_metadata. repeat keeps_step. Qed.

Lemma keeps_compress_jpeg (self : ImageCompressor) (a b : path) :
  keeps (compress_jpeg lib self a b).
Proof.
  unfold compress_jpeg.
  repeat (apply keeps_preserve_metadata || apply keeps_jpeg_rgb || keeps_step).
Qed.

Lemma keeps_compress_png (self : ImageCompressor) (a b : path) :
  keeps (compress_png lib self a b).
Proof.
  unfold compress_png. repeat (apply keeps_save_png || keeps_step).
Qed.

Lemma keeps_compress_webp (self : ImageCompressor) (a b : path) :
  keeps (compress_webp lib self a b).
Proof.
  unfold compress_webp.
  repeat (apply keeps_preserve_metadata || keeps_step).
Qed.

Lemma keeps_dispatch (self : ImageCompressor) (a b : path) (fmt : string) :
  keeps (dispatch lib self a b fmt).
Proof.
  unfold dispatch.
  repeat (apply keeps_compress_jpeg || apply keeps_compress_png
          || apply keeps_compress_webp || keeps_step).
Qed.

(** A [try] whose handler always returns never raises. *)
Lemma try_total {A} (m : M A) (h : exn -> M A) :
  keeps m ->
  (forall e w, exists a w', h e w = (Ok a, w')) ->
  forall w, exists a w', try_except m h w = (Ok a, w').
Proof.
  intros Hm Hh w. unfold try_except.
  destruct (m w) as [[a | e] w1] eqn:E; [eauto |].
  destruct (Hm _ _ _ E) as [_ He]. destruct (He e eq_refl) as [-> _]. apply Hh.
Qed.

Lemma compress_jpeg_total (self : ImageCompressor) (a b : path) (w : World) :
  exists s w', compress_jpeg lib self a b w = (Ok s, w').
Proof.
  unfold compress_jpeg. apply try_total; [| intros; eexists _, _; reflexivity].
  repeat (apply keeps_preserve_metadata || apply keeps_jpeg_rgb || keeps_step).
Qed.

Lemma compress_png_total (self : ImageCompressor) (a b : path) (w : World) :
  exists s w', compress_png lib self a b w = (Ok s, w').
Proof.
  unfold compress_png. apply try_total; [| intros; eexists _, _; reflexivity].
  repeat (apply keeps_save_png || keeps_step).
Qed.

Lemma compress_webp_total (self : ImageCompressor) (a b : path) (w : World) :
  exists s w', compress_webp lib self a b w = (Ok s, w').
Proof.
  unfold compress_webp. apply try_total; [| intros; eexists _, _; reflexivity].
  repeat (apply keeps_preserve_metadata || keeps_step).
Qed.

(** [m] keeps [J], whatever it raises. *)
Definition steady {A} (m : M A) : Prop :=
  forall w r w', m w = (r, w') -> J w -> J w'.

Lemma steady_keeps {A} (m : M A) : keeps m -> steady m.
Proof. intros H w r w' E. now apply (H _ _ _ E). Qed.

Lemma steady_still {A} (f : World -> result A) : steady (fun w => (f w, w)).
Proof. now intros w r w' [= <- <-]. Qed.

Lemma steady_bind {A B} (m : M A) (k : A -> M B) :
  steady m -> (forall a, steady (k a)) -> steady (bind m k).
Proof.
  intros Hm Hk w r w'. unfold bind.
  destruct (m w) as [[a | e] w1] eqn:E.
  - intros Hka HJ. apply (Hk _ _ _ _ Hka), (Hm _ _ _ E), HJ.
  - intros [= <- <-]. apply (Hm _ _ _ E).
Qed.

Lemma steady_ratio (c o : N) : steady (compression_ratio c o).
Proof.
  unfold compression_ratio. destruct (o =? 0)%N; now intros w r w' [= <- <-].
Qed.

Lemma steady_compress_to (self : ImageCompressor) (a b : path)
    (fmt : option string) : steady (compress_to lib self a b fmt).
Proof.
  unfold compress_to.
  apply steady_bind; [apply steady_keeps, keeps_mkdir_parents | intros _].
  apply steady_bind; [apply steady_keeps, keeps_dispatch | intros [[|] |]].
  - apply steady_bind; [apply steady_keeps, keeps_path_size | intros o].
    apply steady_bind; [apply steady_keeps, keeps_path_size | intros c].
    apply steady_bind; [apply steady_ratio | intros q].
    apply steady_keeps. repeat keeps_step.
  - apply steady_keeps. repeat keeps_step.
  - apply steady_keeps. repeat keeps_step.
Qed.

(** From here on [J] must also survive the loss of a line of input. *)
Hypothesis J_input :
  forall w line rest, J w -> stdin w = line :: rest ->
    J (mkWorld (fs w) rest (stdout w)).

Lemma steady_input : steady input.
Proof.
  intros w r w'. unfold input. destruct (stdin w) as [| line rest] eqn:E.
  - now intros [= <- <-].
  - intros [= <- <-] HJ. now apply (J_input _ line rest).
Qed.

Lemma steady_compress_image (self : ImageCompressor) (a : path)
    (b : option path) (fmt : option string) (overwrite : bool) :
  steady (compress_image lib self a b fmt overwrite).
Proof.
  unfold compress_image.
  apply steady_bind; [apply (steady_still (fun w => Ok _)) | intros ex].
  destruct (negb ex); [apply steady_keeps; repeat keeps_step |].
  apply steady_bind; [apply (steady_still (fun w => Ok _)) | intros out_ex].
  destruct (out_ex && negb overwrite)%bool; [| apply steady_compress_to].
  apply steady_bind; [apply steady_keeps, keeps_print | intros _].
  apply steady_bind; [apply steady_keeps, keeps_print | intros _].
  apply steady_bind; [apply steady_input | intros line].
  destruct (negb _); [apply steady_keeps; repeat keeps_step |].
  apply steady_compress_to.
Qed.

Lemma steady_output_file_of (input_dir output_dir : path) (recursive : bool)
    (image_file : path) :
  steady (output_file_of input_dir output_dir recursive image_file).
Proof.
  unfold output_file_of.
  apply steady_bind; [| intros; apply steady_keeps, keeps_ret].
  destruct recursive; [| apply steady_keeps, keeps_ret].
  destruct (PyPath.strip_prefix _ _); [apply steady_keeps, keeps_ret |].
  apply (steady_still (fun _ => Raise ValueError)).
Qed.

Lemma steady_batch_step (self : ImageCompressor) (input_dir output_dir : path)
    (recursive : bool) (fmt : option string) (overwrite : bool) (n i : nat)
    (image_file : path) (acc : tally) :
  steady (batch_step lib self input_dir output_dir recursive fmt overwrite n i
            image_file acc).
Proof.
  unfold batch_step.
  apply steady_bind; [apply steady_keeps, keeps_print | intros _].
  apply steady_bind; [apply steady_output_file_of | intros out].
  apply steady_bind; [apply steady_keeps, keeps_mkdir_parents | intros _].
  apply steady_bind; [apply steady_compress_image | intros [|]].
  - apply steady_keeps. repeat keeps_step.
  - apply steady_keeps, keeps_ret.
Qed.

Lemma steady_batch_loop (self : ImageCompressor) (input_dir output_dir : path)
    (recursive : bool) (fmt : option string) (overwrite : bool) (n : nat)
    (files : list path) :
  forall i acc,
    steady (batch_loop lib self input_dir output_dir recursive fmt overwrite n i
              files acc).
Proof.
  induction files as [| f rest IH]; intros i acc; cbn [batch_loop].
  - apply steady_keeps, keeps_ret.
  - apply steady_bind; [apply steady_batch_step | intros acc'; apply IH].
Qed.

End Invariants.

(** ** What every job does, whatever the libraries do *)

(** The three encoders catch everything: they return, never raise. *)
Lemma compress_jpeg_returns (lib : Library) (self : ImageCompressor) (a b : path)
    (w : World) :
  exists s w', compress_jpeg lib self a b w = (Ok s, w').
Proof. apply (compress_jpeg_total lib (fun _ => True)); auto. Qed.

Lemma compress_png_returns (lib : Library) (self : ImageCompressor) (a b : path)
    (w : World) :
  exists s w', compress_png lib self a b w = (Ok s, w').
Proof. apply (compress_png_total lib (fun _ => True)); auto. Qed.

Lemma compress_webp_returns (lib : Library) (self : ImageCompressor) (a b : path)
    (w : World) :
  exists s w', compress_webp lib self a b w = (Ok s, w').
Proof. apply (compress_webp_total lib (fun _ => True)); auto. Qed.

(** Nothing after the prompt reads standard input. *)
Lemma compress_to_stdin (lib : Library) (self : ImageCompressor) (a b : path)
    (fmt : option string) (w : World) (r : result bool) (w' : World) :
  compress_to lib self a b fmt w = (r, w') -> stdin w' = stdin w.
Proof.
  intros E.
  apply (steady_compress_to lib (fun x => stdin x = stdin w)) in E; auto.
Qed.

(** [str.lower] gives ["y"] on exactly two lines. *)
Lemma lower_ascii_y (c : ascii) :
  PyStr.lower_ascii c = "y"%char -> c = "y"%char \/ c = "Y"%char.
Proof.
  destruct c as [[] [] [] [] [] [] [] []]; vm_compute; intros H;
    first [discriminate H | now left | now right].
Qed.

Lemma lower_is_y (line : string) :
  PyStr.lower line = "y" <-> line = "y" \/ line = "Y".
Proof.
  split.
  - destruct line as [| c [| c' r]]; cbn; try discriminate.
    intros [= H]. destruct (lower_ascii_y c H) as [-> | ->]; auto.
  - intros [-> | ->]; reflexivity.
Qed.

(** ** The overwrite prompt *)

Lemma compress_image_prompt (lib : Library) (self : ImageCompressor)
    (input_path : path) (output_path : option path) (format : option string)
    (line : string) (rest : list string) (w : World) :
  FS.exists_ (fs w) input_path = true ->
  FS.exists_ (fs w) (resolve_output input_path output_path) = true ->
  stdin w = line :: rest ->
  compress_image lib self input_path output_path format false w =
    let out := resolve_output input_path output_path in
    if String.eqb (PyStr.lower line) "y"
    then compress_to lib self input_path out format (prompted out rest w)
    else (Ok false, say MsgCancelled (prompted out rest w)).
Proof.
  intros Hin Hout Hstdin.
  unfold compress_image, bind at 1, path_exists. rewrite Hin. cbn [negb].
  unfold bind at 1. rewrite Hout. cbn [negb andb].
  unfold bind at 1. rewrite print_eq. unfold bind at 1. rewrite print_eq.
  unfold bind at 1, input. cbn [stdin say]. rewrite Hstdin.
  cbv zeta. destruct (String.eqb (PyStr.lower line) "y"); reflexivity.
Qed.

(** C4, amended: when the output path exists and [overwrite] is false, one
    line is taken from standard input while the file system is still as it
    was; the job goes ahead exactly when that line, lowercased, is ["y"]
    (the line is [y] or [Y]), and then reads no further input; on any other
    line the file system is left as it was and [compress_image] returns
    [False], the value it also returns for a failed job. *)
Theorem C4_overwrite_prompt (lib : Library) (self : ImageCompressor)
    (input_path : path) (output_path : option path) (format : option string)
    (line : string) (rest : list string) (w : World)
    (Hin : FS.exists_ (fs w) input_path = true)
    (Hout : FS.exists_ (fs w) (resolve_output input_path output_path) = true)
    (Hstdin : stdin w = line :: rest) :
  let out := resolve_output input_path output_path in
  let job := compress_image lib self input_path output_path format false w in
  (PyStr.lower line = "y" <-> line = "y" \/ line = "Y")
  /\ fs (prompted out rest w) = fs w
  /\ (PyStr.lower line <> "y" ->
      fst job = Ok false
      /\ fs (snd job) = fs w
      /\ stdin (snd job) = rest
      /\ stdout (snd job)
         = stdout w ++ [MsgOutputExists out; MsgAskOverwrite; MsgCancelled])
  /\ (PyStr.lower line = "y" ->
      job = compress_to lib self input_path out format (prompted out rest w)
      /\ stdin (snd job) = rest).
Proof.
  cbv zeta. rewrite (compress_image_prompt _ _ _ _ _ _ _ _ Hin Hout Hstdin).
  cbv zeta. split; [apply lower_is_y |]. split; [reflexivity |]. split.
  - intros Hn. destruct (String.eqb_spec (PyStr.lower line) "y"); [contradiction |].
    cbn. rewrite <- !app_assoc. repeat split.
  - intros Hy. rewrite Hy. cbn [String.eqb Ascii.eqb Bool.eqb]. split; [reflexivity |].
    destruct (compress_to _ _ _ _ _ _) as [r w'] eqn:E.
    apply compress_to_stdin in E. exact E.
Qed.

Lemma C4_overwrite_prompt_witness :
  fst (compress_image Demo.lib Demo.compressor ["a.png"] (Some ["out.png"])
         None false Demo.asked_world) = Ok false
  /\ fs (snd (compress_image Demo.lib Demo.compressor ["a.png"] (Some ["out.png"])
                None false Demo.asked_world)) = fs Demo.asked_world.
Proof.
  destruct (C4_overwrite_prompt Demo.lib Demo.compressor ["a.png"]
              (Some ["out.png"]) None "n" [] Demo.asked_world
              eq_refl eq_refl eq_refl) as (_ & _ & Hn & _).
  destruct (Hn ltac:(discriminate)) as (H1 & H2 & _). now split.
Defined.

(** C4, as stated, fails: a declined prompt is not told apart from a
    failure.  Declining to overwrite [out.png] and failing to decode
    [bad.png] both make [compress_image] return [False], and both end the
    single-file run with exit status 1. *)
Lemma C4_skip_is_reported_as_failure_counterexample :
  fst (compress_image Demo.lib Demo.compressor ["a.png"] (Some ["out.png"])
         None false Demo.asked_world) = Ok false
  /\ fst (compress_image Demo.lib Demo.compressor ["bad.png"] (Some ["new.png"])
            None false Demo.asked_world) = Ok false
  /\ fst (run Demo.lib (Demo.single ["a.png"] (Some ["out.png"]) false)
            Demo.asked_world) = 1
  /\ fst (run Demo.lib (Demo.single ["bad.png"] (Some ["new.png"]) false)
            Demo.asked_world) = 1.
Proof. vm_compute. repeat split. Qed.

(** ** Jobs whose input cannot be decoded *)

Lemma Image_open_undecodable (p : path) (w : World) :
  undecodable (fs w) p ->
  (exists e, is_Exception e = true /\ Image_open p w = (Raise e, w))
  \/ (exists img, img_loads img = false /\ Image_open p w = (Ok img, w)).
Proof.
  intros H. unfold Image_open, undecodable in *.
  destruct (FS.stat (fs w) p) as [[f |] |].
  - destruct (decoded f) as [img |] eqn:E.
    + right. exists img. split; [now apply (H f) | reflexivity].
    + left. now exists UnidentifiedImageError.
  - left. now exists IsADirectoryError.
  - left. now exists FileNotFoundError.
Qed.

Lemma load_fails (img : Image) (w : World) :
  img_loads img = false -> load img w = (Raise OSError, w).
Proof. unfold load. now intros ->. Qed.

Lemma convert_fails (img : Image) (mode : string) (w : World) :
  img_loads img = false -> convert img mode w = (Raise OSError, w).
Proof. intros H. unfold convert. now rewrite (bind_eq_raise _ _ _ _ _ (load_fails _ w H)). Qed.

Lemma Image_save_fails (lib : Library) (img : Image) (p : path) (fmt : string)
    (kw : list (string * kwarg)) (w : World) :
  img_loads img = false -> Image_save lib img p fmt kw w = (Raise OSError, w).
Proof.
  intros H. unfold Image_save. now rewrite (bind_eq_raise _ _ _ _ _ (load_fails _ w H)).
Qed.

Lemma jpeg_rgb_fails (img : Image) (w : World) :
  img_loads img = false ->
  jpeg_rgb img w = (Raise OSError, w) \/ jpeg_rgb img w = (Ok img, w).
Proof.
  intros H. unfold jpeg_rgb.
  destruct (PyStr.mem _ _).
  - left. destruct (String.eqb _ _).
    + now rewrite (bind_eq_raise _ _ _ _ _ (convert_fails _ _ w H)).
    + unfold bind at 1, ret at 1. unfold paste.
      now rewrite (bind_eq_raise _ _ _ _ _ (load_fails _ w H)).
  - destruct (negb _); [left; now apply convert_fails | now right].
Qed.

Lemma compress_jpeg_undecodable (lib : Library) (self : ImageCompressor)
    (a b : path) (w : World) :
  undecodable (fs w) a ->
  exists e, compress_jpeg lib self a b w = (Ok false, say (MsgJpegFailed e) w).
Proof.
  intros H. unfold compress_jpeg.
  destruct (Image_open_undecodable a w H) as [(e & He & E) | (img & Hl & E)].
  - exists e. erewrite try_eq_raise; [reflexivity | | exact He].
    now apply bind_eq_raise.
  - exists OSError. erewrite try_eq_raise; [reflexivity | | reflexivity].
    rewrite (bind_eq_ok _ _ _ _ _ E).
    destruct (jpeg_rgb_fails img w Hl) as [E' | E'].
    + now apply bind_eq_raise.
    + rewrite (bind_eq_ok _ _ _ _ _ E'). apply bind_eq_raise.
      now apply Image_save_fails.
Qed.

Lemma compress_png_undecodable (lib : Library) (self : ImageCompressor)
    (a b : path) (w : World) :
  undecodable (fs w) a ->
  exists msg, compress_png lib self a b w = (Ok false, say msg w).
Proof.
  intros H. unfold compress_png.
  destruct (Image_open_undecodable a w H) as [(e & He & E) | (img & Hl & E)].
  - exists (MsgPngFailed e). erewrite try_eq_raise; [reflexivity | | exact He].
    now apply bind_eq_raise.
  - destruct (String.eqb (img_mode img) "P") eqn:Ep.
    + exists (MsgPngFailed OSError).
      erewrite try_eq_raise; [reflexivity | | reflexivity].
      rewrite (bind_eq_ok _ _ _ _ _ E), Ep. apply bind_eq_raise.
      now apply convert_fails.
    + exists MsgPngSaveFailed. erewrite try_eq_ok; [reflexivity |].
      rewrite (bind_eq_ok _ _ _ _ _ E), Ep. unfold bind at 1, ret at 1.
      unfold _save_png_with_metadata.
      erewrite bind_eq_ok; [reflexivity |].
      erewrite try_eq_raise;
        [reflexivity | apply bind_eq_raise; now apply Image_save_fails | reflexivity].
Qed.

Lemma compress_webp_undecodable (lib : Library) (self : ImageCompressor)
    (a b : path) (w : World) :
  undecodable (fs w) a ->
  exists e, compress_webp lib self a b w = (Ok false, say (MsgWebpFailed e) w).
Proof.
  intros H. unfold compress_webp.
  destruct (Image_open_undecodable a w H) as [(e & He & E) | (img & Hl & E)].
  - exists e. erewrite try_eq_raise; [reflexivity | | exact He].
    now apply bind_eq_raise.
  - exists OSError. erewrite try_eq_raise; [reflexivity | | reflexivity].
    rewrite (bind_eq_ok _ _ _ _ _ E). cbv zeta. apply bind_eq_raise.
    destruct (PyStr.mem _ _).
    + destruct (String.eqb _ _).
      * apply bind_eq_raise. now apply convert_fails.
      * unfold bind at 1, ret at 1. now apply Image_save_fails.
    + apply bind_eq_raise. now apply convert_fails.
Qed.

Lemma undecodable_mkdir (m m' : gmap path node) (d p : path) :
  FS.mkdir_p m d = Ok m' -> undecodable m p -> undecodable m' p.
Proof.
  intros Hm H f img Hs. apply (H f). revert Hs. unfold FS.stat.
  destruct p as [| c r]; [exact id |]. now apply (mkdir_p_files _ _ _ _ _ Hm).
Qed.

(** What [dispatch] comes to when the encoder it picks reports a failure
    without touching the file system. *)
Lemma dispatch_via (enc : M bool) (w : World) (msg : message) :
  enc w = (Ok false, say msg w) ->
  exists o w',
    (let* success := enc in ret (Some success)) w = (Ok o, w')
    /\ o <> Some true /\ fs w' = fs w /\ stdin w' = stdin w.
Proof.
  intros E. rewrite (bind_eq_ok _ _ _ _ _ E).
  exists (Some false), (say msg w). repeat split. discriminate.
Qed.

Lemma dispatch_undecodable (lib : Library) (self : ImageCompressor)
    (a b : path) (fmt : string) (w : World) :
  undecodable (fs w) a ->
  exists o w',
    dispatch lib self a b fmt w = (Ok o, w')
    /\ o <> Some true /\ fs w' = fs w /\ stdin w' = stdin w.
Proof.
  intros H. unfold dispatch.
  destruct (PyStr.mem fmt _).
  { destruct (compress_jpeg_undecodable lib self a b w H) as [e E].
    now apply (dispatch_via _ _ _ E). }
  destruct (String.eqb fmt ".png").
  { destruct (compress_png_undecodable lib self a b w H) as [e E].
    now apply (dispatch_via _ _ _ E). }
  destruct (String.eqb fmt ".webp").
  { destruct (compress_webp_undecodable lib self a b w H) as [e E].
    now apply (dispatch_via _ _ _ E). }
  rewrite (bind_eq_ok _ _ _ _ _ (print_eq _ w)).
  set (w1 := say (MsgUnsupportedFormat fmt) w).
  assert (H1 : undecodable (fs w1) a) by exact H.
  assert (Hnone : forall e w2, fs w2 = fs w -> stdin w2 = stdin w ->
            exists o w',
              (print (MsgCannotRead e) >> ret None) w2 = (Ok o, w')
              /\ o <> Some true /\ fs w' = fs w /\ stdin w' = stdin w).
  { intros e w2 Hf Hs. exists (@None bool), (say (MsgCannotRead e) w2).
    repeat split; [discriminate | exact Hf | exact Hs]. }
  assert (Hvia : forall (enc : path -> M bool) (sfx : string),
            (forall out, exists msg, enc out w1 = (Ok false, say msg w1)) ->
            exists r w',
              (let* out := with_suffix b sfx in
               let* success := enc out in ret (Some success)) w1 = (r, w')
              /\ fs w' = fs w /\ stdin w' = stdin w
              /\ (r = Ok (Some false) \/ r = Raise ValueError)).
  { intros enc sfx Henc. unfold with_suffix.
    destruct (PyPath.with_suffix b sfx) as [out |].
    - destruct (Henc out) as [msg E]. unfold bind at 1, ret at 1.
      rewrite (bind_eq_ok _ _ _ _ _ E). eexists _, _. split; [reflexivity |].
      repeat split. now left.
    - eexists _, _. split; [reflexivity |]. repeat split. now right. }
  destruct (Image_open_undecodable a w1 H1) as [(e & He & E) | (img & Hl & E)].
  - erewrite try_eq_raise; [| apply bind_eq_raise; exact E | exact He].
    now apply Hnone.
  - unfold try_except. rewrite (bind_eq_ok _ _ _ _ _ E).
    destruct (String.eqb (img_format img) "JPEG").
    { destruct (Hvia (compress_jpeg lib self a) ".jpg") as (r & w' & Em & Hf & Hs & Hr).
      { intros out. destruct (compress_jpeg_undecodable lib self a out w1 H1); eauto. }
      rewrite Em. destruct Hr as [-> | ->]; [| now apply Hnone].
      eexists _, _. split; [reflexivity |]. repeat split; [discriminate | |]; assumption. }
    destruct (String.eqb (img_format img) "PNG").
    { destruct (Hvia (compress_png lib self a) ".png") as (r & w' & Em & Hf & Hs & Hr).
      { intros out. now apply compress_png_undecodable. }
      rewrite Em. destruct Hr as [-> | ->]; [| now apply Hnone].
      eexists _, _. split; [reflexivity |]. repeat split; [discriminate | |]; assumption. }
    destruct (String.eqb (img_format img) "WEBP").
    { destruct (Hvia (compress_webp lib self a) ".webp") as (r & w' & Em & Hf & Hs & Hr).
      { intros out. destruct (compress_webp_undecodable lib self a out w1 H1); eauto. }
      rewrite Em. destruct Hr as [-> | ->]; [| now apply Hnone].
      eexists _, _. split; [reflexivity |]. repeat split; [discriminate | |]; assumption. }
    eexists _, _. split; [reflexivity |]. repeat split. discriminate.
Qed.

Lemma prefixes_length (p q : path) :
  In q (PyPath.prefixes p) -> (length q <= length p)%nat.
Proof.
  revert q. induction p as [| c r IH]; intros q; cbn; [tauto |].
  intros [<- | H]; [cbn; lia |].
  apply in_map_iff in H as (q' & <- & H'). cbn. apply IH in H'. lia.
Qed.

Lemma parent_shorter (b : path) : b <> [] -> (length (PyPath.parent b) < length b)%nat.
Proof.
  intros H. destruct (exists_last H) as (l & x & ->).
  rewrite parent_app_last, length_app. cbn. lia.
Qed.

(** Creating the parents of [b] leaves [b] itself as it is. *)
Lemma mkdir_parent_keeps (m m' : gmap path node) (b : path) :
  FS.mkdir_p m (PyPath.parent b) = Ok m' -> m' !! b = m !! b.
Proof.
  intros H. destruct (mkdir_chain_lookup _ _ _ H b) as [E | (_ & _ & Hin)]; [exact E |].
  apply prefixes_length in Hin.
  destruct b as [| c r]; [cbn in Hin; now apply mkdir_chain_lookup with (q := []) in H as [? | (_ & _ & [])] |].
  assert (c :: r <> []) as Hne by discriminate.
  apply parent_shorter in Hne. lia.
Qed.

Lemma same_files_refl (m : gmap path node) : same_files m m.
Proof. now intros q f. Qed.

Lemma compress_to_undecodable (lib : Library) (self : ImageCompressor)
    (a b : path) (fmt : option string) (w : World) (r : result bool) (w' : World) :
  undecodable (fs w) a ->
  compress_to lib self a b fmt w = (r, w') ->
  r <> Ok true /\ same_files (fs w) (fs w') /\ fs w' !! b = fs w !! b.
Proof.
  intros H. unfold compress_to, bind at 1, mkdir_parents.
  destruct (FS.mkdir_p (fs w) (PyPath.parent b)) as [m | e] eqn:Em.
  - set (w1 := mkWorld m (stdin w) (stdout w)).
    assert (H1 : undecodable (fs w1) a) by now apply (undecodable_mkdir _ _ _ _ Em).
    destruct (dispatch_undecodable lib self a b (format_token a fmt) w1 H1)
      as (o & w2 & E & Ho & Hf & _).
    rewrite (bind_eq_ok _ _ _ _ _ E).
    assert (Hfiles : same_files (fs w) (fs w2)).
    { rewrite Hf. intros q f. now apply (mkdir_p_files _ _ _ _ _ Em). }
    assert (Hb : fs w2 !! b = fs w !! b).
    { rewrite Hf. now apply mkdir_parent_keeps. }
    destruct o as [[|] |]; [congruence | |]; intros [= <- <-];
      (split; [discriminate | split; assumption]).
  - intros [= <- <-]. split; [discriminate | split; [apply same_files_refl | reflexivity]].
Qed.

Lemma compress_image_undecodable (lib : Library) (self : ImageCompressor)
    (a : path) (b : option path) (fmt : option string) (overwrite : bool)
    (w : World) (r : result bool) (w' : World) :
  undecodable (fs w) a ->
  compress_image lib self a b fmt overwrite w = (r, w') ->
  r <> Ok true /\ same_files (fs w) (fs w')
  /\ fs w' !! resolve_output a b = fs w !! resolve_output a b.
Proof.
  intros H. unfold compress_image, bind at 1, path_exists.
  destruct (FS.exists_ (fs w) a); cbn [negb].
  2:{ intros [= <- <-]. split; [discriminate | split; [apply same_files_refl | reflexivity]]. }
  unfold bind at 1.
  destruct (FS.exists_ (fs w) (resolve_output a b) && negb overwrite)%bool.
  - unfold bind at 1. rewrite print_eq. unfold bind at 1. rewrite print_eq.
    unfold bind at 1, input. cbn [stdin say].
    destruct (stdin w) as [| line rest].
    + intros [= <- <-]. split; [discriminate | split; [apply same_files_refl | reflexivity]].
    + destruct (negb _).
      * intros [= <- <-]. split; [discriminate | split; [apply same_files_refl | reflexivity]].
      * intros E. now apply compress_to_undecodable in E.
  - intros E. now apply compress_to_undecodable in E.
Qed.

(** ** Formats found by probing the header *)

Lemma Image_open_stat (p : path) (w : World) (f : file) (img : Image) :
  FS.stat (fs w) p = Some (NFile f) -> decoded f = Some img ->
  Image_open p w = (Ok img, w).
Proof. unfold Image_open. now intros -> ->. Qed.

Lemma not_a_known_extension (format : string) :
  PyStr.mem format [".jpg"; ".jpeg"; ".png"; ".webp"] = false ->
  PyStr.mem format [".jpg"; ".jpeg"] = false
  /\ String.eqb format ".png" = false /\ String.eqb format ".webp" = false.
Proof.
  unfold PyStr.mem. cbn [existsb].
  destruct (String.eqb format ".jpg"), (String.eqb format ".jpeg"),
    (String.eqb format ".png"), (String.eqb format ".webp"); cbn; auto; discriminate.
Qed.

(** A [try] around a computation that returns is that computation. *)
Lemma try_returns {A} (m : M A) (h : exn -> M A) (w : World) :
  (exists a w', m w = (Ok a, w')) -> try_except m h w = m w.
Proof. intros (a & w' & E). unfold try_except. now rewrite E. Qed.

Lemma probe_runs (lib : Library) (self : ImageCompressor)
    (enc : ImageCompressor -> path -> path -> M bool) (a b out : path)
    (sfx : string) (w : World) :
  (forall w0, exists s w', enc self a out w0 = (Ok s, w')) ->
  PyPath.with_suffix b sfx = Some out ->
  (let* o := with_suffix b sfx in
   let* success := enc self a o in ret (Some success)) w
  = (let* success := enc self a out in ret (Some success)) w
  /\ exists r w', (let* success := enc self a out in ret (Some success)) w = (Ok r, w').
Proof.
  intros Henc Hs. unfold with_suffix. rewrite Hs. split; [reflexivity |].
  destruct (Henc w) as (s & w' & E). rewrite (bind_eq_ok _ _ _ _ _ E). now eexists _, _.
Qed.

(** C10, amended: when the format token is none of [.jpg], [.jpeg], [.png],
    [.webp] the job opens the input to probe its header; on finding JPEG,
    PNG or WEBP it runs that encoder on the requested output path with its
    suffix replaced by [.jpg], [.png] or [.webp], so the file it writes can
    be at another path than the one requested; [dispatch] gives up, and the
    job returns [False], when the input cannot be opened or has another
    format, and the job also returns [False] when the encoder it ran
    reports a failure. *)
Theorem C10_probed_format_redirects_output (lib : Library)
    (self : ImageCompressor) (input_path output_path : path) (format : string)
    (w : World)
    (Hfmt : PyStr.mem format [".jpg"; ".jpeg"; ".png"; ".webp"] = false) :
  let w1 := say (MsgUnsupportedFormat format) w in
  (forall f img out,
      FS.stat (fs w) input_path = Some (NFile f) -> decoded f = Some img ->
      (img_format img = "JPEG" -> PyPath.with_suffix output_path ".jpg" = Some out ->
       dispatch lib self input_path output_path format w
       = (let* s := compress_jpeg lib self input_path out in ret (Some s)) w1)
      /\ (img_format img = "PNG" -> PyPath.with_suffix output_path ".png" = Some out ->
          dispatch lib self input_path output_path format w
          = (let* s := compress_png lib self input_path out in ret (Some s)) w1)
      /\ (img_format img = "WEBP" -> PyPath.with_suffix output_path ".webp" = Some out ->
          dispatch lib self input_path output_path format w
          = (let* s := compress_webp lib self input_path out in ret (Some s)) w1)
      /\ (img_format img <> "JPEG" -> img_format img <> "PNG" ->
          img_format img <> "WEBP" ->
          dispatch lib self input_path output_path format w
          = (Ok None, say (MsgUnknownImageFormat (img_format img)) w1)))
  /\ (forall e, Image_open input_path w = (Raise e, w) ->
        dispatch lib self input_path output_path format w
        = (Ok None, say (MsgCannotRead e) w1))
  /\ (forall fmt w0 m w2,
        format_token input_path fmt = format ->
        FS.mkdir_p (fs w0) (PyPath.parent output_path) = Ok m ->
        w = set_fs m w0 ->
        (dispatch lib self input_path output_path format w = (Ok None, w2) ->
         compress_to lib self input_path output_path fmt w0 = (Ok false, w2))
        /\ (dispatch lib self input_path output_path format w = (Ok (Some false), w2) ->
            compress_to lib self input_path output_path fmt w0
            = (Ok false, say MsgFailed w2))).
Proof.
  cbv zeta. destruct (not_a_known_extension _ Hfmt) as (H1 & H2 & H3).
  assert (Hd : dispatch lib self input_path output_path format w
               = try_except
                   (let* img := Image_open input_path in
                    if String.eqb (img_format img) "JPEG" then
                      let* out := with_suffix output_path ".jpg" in
                      let* success := compress_jpeg lib self input_path out in
                      ret (Some success)
                    else if String.eqb (img_format img) "PNG" then
                      let* out := with_suffix output_path ".png" in
                      let* success := compress_png lib self input_path out in
                      ret (Some success)
                    else if String.eqb (img_format img) "WEBP" then
                      let* out := with_suffix output_path ".webp" in
                      let* success := compress_webp lib self input_path out in
                      ret (Some success)
                    else print (MsgUnknownImageFormat (img_format img)) >> ret None)
                   (fun e => print (MsgCannotRead e) >> ret None)
                   (say (MsgUnsupportedFormat format) w)).
  { unfold dispatch. rewrite H1, H2, H3. reflexivity. }
  split; [| split].
  - intros f img out Hs Hdec.
    assert (E : Image_open input_path (say (MsgUnsupportedFormat format) w)
                = (Ok img, say (MsgUnsupportedFormat format) w))
      by now apply (Image_open_stat _ _ f).
    rewrite Hd. split; [| split; [| split]].
    + intros Hf Hout.
      destruct (probe_runs lib self (compress_jpeg lib) input_path output_path out
                  ".jpg" (say (MsgUnsupportedFormat format) w)
                  (compress_jpeg_returns lib self input_path out) Hout)
        as (Eq & r & w' & Er).
      rewrite try_returns; rewrite (bind_eq_ok _ _ _ _ _ E), Hf; cbn [String.eqb Ascii.eqb Bool.eqb];
        [exact Eq | rewrite Eq; eauto].
    + intros Hf Hout.
      destruct (probe_runs lib self (compress_png lib) input_path output_path out
                  ".png" (say (MsgUnsupportedFormat format) w)
                  (compress_png_returns lib self input_path out) Hout)
        as (Eq & r & w' & Er).
      rewrite try_returns; rewrite (bind_eq_ok _ _ _ _ _ E), Hf; cbn [String.eqb Ascii.eqb Bool.eqb];
        [exact Eq | rewrite Eq; eauto].
    + intros Hf Hout.
      destruct (probe_runs lib self (compress_webp lib) input_path output_path out
                  ".webp" (say (MsgUnsupportedFormat format) w)
                  (compress_webp_returns lib self input_path out) Hout)
        as (Eq & r & w' & Er).
      rewrite try_returns; rewrite (bind_eq_ok _ _ _ _ _ E), Hf; cbn [String.eqb Ascii.eqb Bool.eqb];
        [exact Eq | rewrite Eq; eauto].
    + intros Hj Hp Hw.
      apply String.eqb_neq in Hj, Hp, Hw.
      erewrite try_eq_ok; [reflexivity |].
      rewrite (bind_eq_ok _ _ _ _ _ E), Hj, Hp, Hw. reflexivity.
  - intros e E. rewrite Hd.
    assert (E' : Image_open input_path (say (MsgUnsupportedFormat format) w)
                 = (Raise e, say (MsgUnsupportedFormat format) w)).
    { revert E. unfold Image_open. cbn [fs say].
      destruct (FS.stat (fs w) input_path) as [[f |] |];
        [destruct (decoded f) |..]; intros [= <-]; reflexivity. }
    assert (He : is_Exception e = true).
    { revert E. unfold Image_open.
      destruct (FS.stat (fs w) input_path) as [[f |] |];
        [destruct (decoded f) |..]; intros [= <-]; reflexivity. }
    erewrite try_eq_raise; [reflexivity | apply bind_eq_raise; exact E' | exact He].
  - intros fmt w0 m w2 Hfmt' Hm ->. unfold set_fs.
    split; intros E; unfold compress_to, bind at 1, mkdir_parents;
      rewrite Hm; cbv beta iota zeta; rewrite Hfmt';
      now rewrite (bind_eq_ok _ _ _ _ _ E).
Qed.

Lemma C10_probed_format_redirects_output_witness :
  dispatch Demo.lib Demo.compressor ["d"; "photo.jfif"]
    ["d"; "compressed_photo.jfif"] ".jfif" Demo.jfif_world
  = (let* s := compress_jpeg Demo.lib Demo.compressor ["d"; "photo.jfif"]
                 ["d"; "compressed_photo.jpg"] in
     ret (Some s)) (say (MsgUnsupportedFormat ".jfif") Demo.jfif_world).
Proof.
  destruct (C10_probed_format_redirects_output Demo.lib Demo.compressor
              ["d"; "photo.jfif"] ["d"; "compressed_photo.jfif"] ".jfif"
              Demo.jfif_world eq_refl) as (H & _).
  apply (H (mkFile 100 (Some (mkImage "JPEG" "RGB" [] true)))
           (mkImage "JPEG" "RGB" [] true) ["d"; "compressed_photo.jpg"]
           eq_refl eq_refl); reflexivity.
Defined.

(** C10, as stated, fails in its last clause: the probe recognises
    [cut.jfif] as a JPEG and the job still returns [False], because the
    encoder it then runs cannot load the pixel data. *)
Lemma C10_job_fails_after_probe_counterexample :
  format_token ["d"; "cut.jfif"] None = ".jfif"
  /\ (exists img, Image_open ["d"; "cut.jfif"] Demo.jfif_world = (Ok img, Demo.jfif_world)
                  /\ img_format img = "JPEG")
  /\ fst (compress_image Demo.lib Demo.compressor ["d"; "cut.jfif"] None None
            false Demo.jfif_world) = Ok false.
Proof.
  split; [reflexivity |]. split; [| reflexivity].
  eexists. split; reflexivity.
Qed.

(** A defect next to it, lines 342-343: after the encoder has written the
    redirected file [compressed_photo.jpg], the sizes are read from the
    requested path [compressed_photo.jfif], which does not exist, and the
    job ends in an uncaught [FileNotFoundError]; the single-file run exits
    with status 1 although the compressed file is on disk. *)
Lemma redirected_output_is_not_the_one_measured :
  let job := compress_image Demo.lib Demo.compressor ["d"; "photo.jfif"] None
               None false Demo.jfif_world in
  fst job = Raise FileNotFoundError
  /\ fs (snd job) !! ["d"; "compressed_photo.jfif"] = None
  /\ fs (snd job) !! ["d"; "compressed_photo.jpg"]
     = Some (NFile (mkFile 40 (Some (mkImage "JPEG" "RGB" [] true))))
  /\ fst (run Demo.lib (Demo.single ["d"; "photo.jfif"] None false)
            Demo.jfif_world) = 1.
Proof. vm_compute. repeat split. Qed.

(** ** What a job can raise *)

Lemma bind_raise_inv {A B} (m : M A) (k : A -> M B) (w w' : World) (e : exn) :
  bind m k w = (Raise e, w') ->
  m w = (Raise e, w') \/ exists a w1, m w = (Ok a, w1) /\ k a w1 = (Raise e, w').
Proof.
  unfold bind. destruct (m w) as [[a | e0] w1]; [eauto |].
  intros [= <- <-]. now left.
Qed.

Lemma mkdir_parents_raise (p : path) (w w' : World) (e : exn) :
  mkdir_parents p w = (Raise e, w') -> benign e.
Proof.
  intros E. apply (keeps_mkdir_parents (fun _ => True)) in E; [| auto].
  now apply E.
Qed.

Lemma dispatch_raise (lib : Library) (self : ImageCompressor) (a b : path)
    (fmt : string) (w w' : World) (e : exn) :
  dispatch lib self a b fmt w = (Raise e, w') -> benign e.
Proof.
  intros E. apply (keeps_dispatch lib (fun _ => True)) in E; auto. now apply E.
Qed.

Lemma path_size_inv (p : path) (w : World) (r : result N) (w' : World) :
  path_size p w = (r, w') -> w' = w /\ r = FS.size_of (fs w) p.
Proof. now intros [= <- <-]. Qed.

Lemma size_of_raise (m : gmap path node) (p : path) (e : exn) :
  FS.size_of m p = Raise e -> benign e.
Proof.
  unfold FS.size_of. destruct (FS.stat m p) as [[f |] |]; intros [= <-].
  split; [reflexivity | discriminate].
Qed.

(** The only exception of a job that is not benign is the division by a
    zero original size, after a successful encoder run. *)
Lemma compress_to_raise (lib : Library) (self : ImageCompressor) (a b : path)
    (fmt : option string) (w w' : World) (e : exn) :
  compress_to lib self a b fmt w = (Raise e, w') ->
  benign e
  \/ (e = ZeroDivisionError
      /\ exists m w2,
           FS.mkdir_p (fs w) (PyPath.parent b) = Ok m
           /\ dispatch lib self a b (format_token a fmt) (set_fs m w) = (Ok (Some true), w2)
           /\ FS.size_of (fs w2) a = Ok 0%N).
Proof.
  unfold compress_to. intros E.
  apply bind_raise_inv in E as [E | ([] & w1 & Em & E)];
    [left; now apply (mkdir_parents_raise _ _ _ _ E) |].
  assert (Hm : exists m, FS.mkdir_p (fs w) (PyPath.parent b) = Ok m /\ w1 = set_fs m w).
  { revert Em. unfold mkdir_parents.
    destruct (FS.mkdir_p _ _) as [m |]; intros [= <-]. now exists m. }
  destruct Hm as (m & Hm & ->).
  apply bind_raise_inv in E as [E | (o & w2 & Ed & E)];
    [left; now apply (dispatch_raise _ _ _ _ _ _ _ _ E) |].
  destruct o as [[|] |]; [| discriminate E | discriminate E].
  apply bind_raise_inv in E as [E | (o & w3 & Eo & E)].
  { left. apply path_size_inv in E as [_ E]. symmetry in E.
    now apply size_of_raise in E. }
  apply path_size_inv in Eo as [-> Eo].
  apply bind_raise_inv in E as [E | (c & w4 & Ec & E)].
  { left. apply path_size_inv in E as [_ E]. symmetry in E.
    now apply size_of_raise in E. }
  apply path_size_inv in Ec as [-> Ec].
  apply bind_raise_inv in E as [E | (q & w5 & Eq & E)]; [| discriminate E].
  unfold compression_ratio in E.
  destruct (N.eqb_spec o 0) as [-> | Hne]; [| discriminate E].
  injection E as <- <-. right. split; [reflexivity |]. now exists m, w2.
Qed.

Lemma compress_image_raise (lib : Library) (self : ImageCompressor) (a : path)
    (b : option path) (fmt : option string) (overwrite : bool) (w w' : World)
    (e : exn) :
  compress_image lib self a b fmt overwrite w = (Raise e, w') ->
  benign e
  \/ (e = ZeroDivisionError
      /\ exists w0 m w2,
           fs w0 = fs w
           /\ FS.mkdir_p (fs w0) (PyPath.parent (resolve_output a b)) = Ok m
           /\ dispatch lib self a (resolve_output a b) (format_token a fmt)
                (set_fs m w0) = (Ok (Some true), w2)
           /\ FS.size_of (fs w2) a = Ok 0%N).
Proof.
  unfold compress_image, bind at 1, path_exists.
  destruct (FS.exists_ (fs w) a); cbn [negb]; [| discriminate].
  unfold bind at 1.
  destruct (FS.exists_ (fs w) (resolve_output a b) && negb overwrite)%bool.
  - unfold bind at 1. rewrite print_eq. unfold bind at 1. rewrite print_eq.
    unfold bind at 1, input. cbn [stdin say].
    destruct (stdin w) as [| line rest].
    + intros [= <- <-]. left. split; [reflexivity | discriminate].
    + destruct (negb _); [discriminate |].
      intros E. apply compress_to_raise in E as [E | (-> & m & w2 & H1 & H2 & H3)];
        [now left | right].
      split; [reflexivity |]. eexists _, m, w2. split; [| eauto]. reflexivity.
  - intros E. apply compress_to_raise in E as [E | (-> & m & w2 & H1 & H2 & H3)];
      [now left | right].
    split; [reflexivity |]. now exists w, m, w2.
Qed.

Lemma compress_image_raises_Exception (lib : Library) (self : ImageCompressor)
    (a : path) (b : option path) (fmt : option string) (overwrite : bool)
    (w w' : World) (e : exn) :
  compress_image lib self a b fmt overwrite w = (Raise e, w') ->
  is_Exception e = true.
Proof.
  intros E. apply compress_image_raise in E as [[H _] | [-> _]]; [exact H | reflexivity].
Qed.

(** ** The two branches of [main] *)

Lemma main_batch_eq (lib : Library) (a : Args) (w : World) :
  main_batch lib a w
  = batch_compress lib (compressor_of a) (a_input_path a) (Some (batch_dir a))
      (a_recursive a) (a_format a) (a_overwrite a) (batch_world a w).
Proof.
  unfold main_batch, batch_world, batch_dir, compressor_of.
  destruct (a_output_path a), (a_output_dir a); reflexivity.
Qed.

Lemma main_single_eq (lib : Library) (a : Args) (w : World) :
  FS.is_file (fs w) (a_input_path a) = true ->
  main_single lib a w
  = (let* success := compress_image lib (compressor_of a) (a_input_path a)
                       (a_output_path a) (a_format a) (a_overwrite a) in
     if negb success then raise (SystemExit 1) else ret tt) (single_world a w).
Proof.
  intros H. unfold main_single, bind at 1, path_is_file. rewrite H. cbn [negb].
  unfold single_world, compressor_of. destruct (a_output_dir a); reflexivity.
Qed.

(** The guard of [batch_compress], lines 376-378: a message and a plain
    return. *)
Lemma batch_compress_invalid_dir (lib : Library) (self : ImageCompressor)
    (input_dir : path) (output_dir : option path) (recursive : bool)
    (format : option string) (overwrite : bool) (w : World) :
  FS.exists_ (fs w) input_dir = false \/ FS.is_dir (fs w) input_dir = false ->
  batch_compress lib self input_dir output_dir recursive format overwrite w
  = (Ok tt, say (MsgDirMissing input_dir) w).
Proof.
  intros H. unfold batch_compress, bind at 1, path_exists, bind at 1, path_is_dir.
  assert (E : (negb (FS.exists_ (fs w) input_dir)
               || negb (FS.is_dir (fs w) input_dir))%bool = true).
  { destruct H as [-> | ->]; [reflexivity | apply orb_true_r]. }
  now rewrite E.
Qed.

Lemma run_accepted (lib : Library) (a : Args) (w : World) :
  click_accepts a w = true ->
  run lib a w
  = (let (r, w') := (if FS.is_dir (fs w) (a_input_path a)
                     then main_batch lib a w else main_single lib a w) in
     (exit_code r, w')).
Proof.
  intros Hc. unfold run. rewrite Hc. unfold main, bind, path_is_dir.
  now destruct (FS.is_dir (fs w) (a_input_path a)).
Qed.

(** ** The batch *)

Lemma batch_compress_runs (lib : Library) (self : ImageCompressor)
    (input_dir output_dir : path) (recursive : bool) (format : option string)
    (overwrite : bool) (w : World) (m : gmap path node) :
  FS.is_dir (fs w) input_dir = true ->
  FS.mkdir_p (fs w) output_dir = Ok m ->
  image_files m input_dir recursive <> [] ->
  let files := image_files m input_dir recursive in
  let n := length files in
  batch_compress lib self input_dir (Some output_dir) recursive format overwrite w
  = (print (MsgFound n) >>
     print (MsgBatchStart n) >>
     let* acc := batch_loop lib self input_dir output_dir recursive format
                   overwrite n 0 files (mkTally 0 0 0) in
     batch_report n acc) (set_fs m w).
Proof.
  intros Hd Hm Hne. cbv zeta.
  unfold batch_compress, bind at 1, path_exists, bind at 1, path_is_dir.
  assert (He : FS.exists_ (fs w) input_dir = true).
  { revert Hd. unfold FS.is_dir, FS.exists_. now destruct (FS.stat _ _) as [[|] |]. }
  rewrite He, Hd. cbn [negb orb]. unfold bind at 1, mkdir_parents. rewrite Hm.
  unfold bind at 1. cbn [fs]. unfold set_fs.
  destruct (image_files m input_dir recursive); [contradiction | reflexivity].
Qed.

Lemma batch_step_count (lib : Library) (self : ImageCompressor)
    (input_dir output_dir : path) (recursive : bool) (format : option string)
    (overwrite : bool) (n i : nat) (image_file : path) (acc acc' : tally)
    (w w' : World) :
  batch_step lib self input_dir output_dir recursive format overwrite n i
    image_file acc w = (Ok acc', w') ->
  (success_count acc <= success_count acc' <= success_count acc + 1)%nat.
Proof.
  unfold batch_step. intros E.
  apply bind_ok_inv in E as (_ & w1 & _ & E).
  apply bind_ok_inv in E as (out & w2 & _ & E).
  apply bind_ok_inv in E as (_ & w3 & _ & E).
  apply bind_ok_inv in E as (ok & w4 & _ & E).
  destruct ok.
  - apply bind_ok_inv in E as (o & w5 & _ & E).
    apply bind_ok_inv in E as (c & w6 & _ & E).
    injection E as <- <-. cbn. lia.
  - injection E as <- <-. lia.
Qed.

Lemma batch_loop_count (lib : Library) (self : ImageCompressor)
    (input_dir output_dir : path) (recursive : bool) (format : option string)
    (overwrite : bool) (n : nat) (files : list path) :
  forall i acc acc' w w',
    batch_loop lib self input_dir output_dir recursive format overwrite n i
      files acc w = (Ok acc', w') ->
    (success_count acc <= success_count acc'
     <= success_count acc + length files)%nat.
Proof.
  induction files as [| f rest IH]; intros i acc acc' w w'; cbn [batch_loop length].
  - intros [= <- <-]. lia.
  - intros E. apply bind_ok_inv in E as (acc1 & w1 & E1 & E).
    apply batch_step_count in E1. apply IH in E. lia.
Qed.

(** [str.lower] is the table of the 26 letters. *)
Lemma lower_ascii_table (c : ascii) :
  PyStr.lower_ascii c = small_letter ascii_uppercase ascii_lowercase c.
Proof. destruct c as [[] [] [] [] [] [] [] []]; reflexivity. Qed.

Lemma lower_table (s : string) : PyStr.lower s = spec_lower s.
Proof.
  induction s as [| c s IH]; [reflexivity |].
  cbn [PyStr.lower spec_lower]. now rewrite lower_ascii_table, IH.
Qed.

Lemma image_files_by_extension (m : gmap path node) (input_dir : path)
    (recursive : bool) (p : path) :
  In p (image_files m input_dir recursive) <->
  exists rel f,
    p = input_dir ++ rel
    /\ (if recursive then rel <> [] else exists n, rel = [n])
    /\ m !! p = Some (NFile f)
    /\ In (spec_lower (PyPath.suffix p))
         [".jpg"; ".jpeg"; ".png"; ".webp"; ".bmp"; ".tiff"].
Proof. rewrite image_files_spec, lower_table. reflexivity. Qed.

(** C2: the batch takes exactly the entries of the input directory (its
    direct entries, or everything below it when recursive) that are
    regular files whose suffix, with its capital letters replaced by
    small ones, is one of the six strings [.jpg .jpeg .png .webp .bmp
    .tiff], each once; creating the output directory does not change that
    set; the batch runs its loop over these files only and the total it
    reports is their number, so a file left out is never counted as a
    failure; over {a.png, b.jpg, notes.txt} it processes 2 files and
    reports 2 of 2; over the directory [pics] it takes [A.JPG], [b.JPEG],
    [c.tar.PNG], [d.WebP], [e.Bmp] and [f.tiff], with [sub/deep.JPG] when
    recursive, and leaves out the GIF, the backup copy, the file named
    [.png] and the directory named [dir.png]. *)
Theorem C2_batch_selects_images :
  (forall m input_dir recursive p,
      In p (image_files m input_dir recursive) <->
      exists rel f,
        p = input_dir ++ rel
        /\ (if recursive then rel <> [] else exists n, rel = [n])
        /\ m !! p = Some (NFile f)
        /\ In (spec_lower (PyPath.suffix p))
             [".jpg"; ".jpeg"; ".png"; ".webp"; ".bmp"; ".tiff"])
  /\ (forall m input_dir recursive, List.NoDup (image_files m input_dir recursive))
  /\ (forall m m' out input_dir recursive p,
        FS.mkdir_p m out = Ok m' ->
        (In p (image_files m' input_dir recursive)
         <-> In p (image_files m input_dir recursive)))
  /\ (forall lib self input_dir output_dir recursive format overwrite w m,
        FS.is_dir (fs w) input_dir = true ->
        FS.mkdir_p (fs w) output_dir = Ok m ->
        image_files m input_dir recursive <> [] ->
        let files := image_files m input_dir recursive in
        let n := length files in
        batch_compress lib self input_dir (Some output_dir) recursive format
          overwrite w
        = (print (MsgFound n) >>
           print (MsgBatchStart n) >>
           let* acc := batch_loop lib self input_dir output_dir recursive format
                         overwrite n 0 files (mkTally 0 0 0) in
           batch_report n acc) (set_fs m w))
  /\ (forall lib self input_dir output_dir recursive format overwrite n files
             acc w w',
        batch_loop lib self input_dir output_dir recursive format overwrite n 0
          files (mkTally 0 0 0) w = (Ok acc, w') ->
        (success_count acc <= length files)%nat)
  /\ (let w := Demo.flat_world in
      let r := batch_compress Demo.lib Demo.compressor ["in"] (Some ["out"])
                 false None false w in
      image_files (fs w) ["in"] false = [["in"; "b.jpg"]; ["in"; "a.png"]]
      /\ fst r = Ok tt
      /\ stdout (snd r)
         = [MsgFound 2; MsgBatchStart 2;
            MsgProcessing 1 2 "b.jpg";
            MsgSuccess 100 40 (compression_ratio_of 40 100) ["out"; "b.jpg"];
            MsgProcessing 2 2 "a.png";
            MsgSuccess 100 40 (compression_ratio_of 40 100) ["out"; "a.png"];
            MsgBatchDone; MsgTally 2 2;
            MsgTotalRatio (compression_ratio_of 80 200); MsgSaved 120]
      /\ fs (snd r) !! ["out"; "notes.txt"] = None)
  /\ (let m := fs Demo.gallery_world in
      (forall p, In p (image_files m ["pics"] false)
                 <-> In p [["pics"; "A.JPG"]; ["pics"; "b.JPEG"];
                           ["pics"; "c.tar.PNG"]; ["pics"; "d.WebP"];
                           ["pics"; "e.Bmp"]; ["pics"; "f.tiff"]])
      /\ length (image_files m ["pics"] false) = 6%nat
      /\ (forall p, In p (image_files m ["pics"] true)
                    <-> In p [["pics"; "A.JPG"]; ["pics"; "b.JPEG"];
                              ["pics"; "c.tar.PNG"]; ["pics"; "d.WebP"];
                              ["pics"; "e.Bmp"]; ["pics"; "f.tiff"];
                              ["pics"; "sub"; "deep.JPG"]])
      /\ length (image_files m ["pics"] true) = 7%nat).
Proof.
  split; [exact image_files_by_extension |].
  split; [exact image_files_NoDup |].
  split; [intros; now apply (image_files_mkdir _ _ out) |].
  split; [intros; now apply batch_compress_runs |].
  split.
  - intros lib self input_dir output_dir recursive format overwrite n files acc w w' E.
    apply batch_loop_count in E. cbn in E. lia.
  - split; [vm_compute; repeat split |].
    cbv zeta.
    let l := eval vm_compute in (image_files (fs Demo.gallery_world) ["pics"] false) in
    assert (E1 : image_files (fs Demo.gallery_world) ["pics"] false = l)
      by (vm_compute; reflexivity).
    let l := eval vm_compute in (image_files (fs Demo.gallery_world) ["pics"] true) in
    assert (E2 : image_files (fs Demo.gallery_world) ["pics"] true = l)
      by (vm_compute; reflexivity).
    rewrite E1, E2. cbn [In length]. repeat split; intros H; intuition congruence.
Qed.

Lemma C2_batch_selects_images_witness :
  In ["pics"; "A.JPG"] (image_files (fs Demo.gallery_world) ["pics"] false)
  /\ ~ In ["pics"; "g.gif"] (image_files (fs Demo.gallery_world) ["pics"] false)
  /\ ~ In ["in"; "notes.txt"] (image_files (fs Demo.flat_world) ["in"] false).
Proof.
  destruct C2_batch_selects_images as (H & _). split; [| split].
  - apply (proj2 (H (fs Demo.gallery_world) ["pics"] false ["pics"; "A.JPG"])).
    exists ["A.JPG"], (mkFile 100 (Some (mkImage "JPEG" "RGB" [] true))).
    split; [reflexivity |]. split; [now exists "A.JPG" |].
    split; [vm_compute; reflexivity | vm_compute; auto].
  - intros Hin.
    apply (proj1 (H (fs Demo.gallery_world) ["pics"] false ["pics"; "g.gif"])) in Hin.
    destruct Hin as (rel & f & _ & _ & _ & Hs).
    vm_compute in Hs. repeat (destruct Hs as [Hs | Hs]; [discriminate Hs |]).
    exact Hs.
  - intros Hin.
    apply (proj1 (H (fs Demo.flat_world) ["in"] false ["in"; "notes.txt"])) in Hin.
    destruct Hin as (rel & f & _ & _ & _ & Hs).
    vm_compute in Hs. repeat (destruct Hs as [Hs | Hs]; [discriminate Hs |]).
    exact Hs.
Defined.

(** ** Output paths of a batch *)

Lemma output_file_of_selected (m : gmap path node) (input_dir output_dir : path)
    (recursive : bool) (image_file : path) (w : World) :
  In image_file (image_files m input_dir recursive) ->
  exists rel,
    image_file = input_dir ++ rel /\ rel <> []
    /\ (recursive = false -> rel = [PyPath.name image_file])
    /\ output_file_of input_dir output_dir recursive image_file w
       = (Ok (output_dir ++ rel), w).
Proof.
  intros H. apply image_files_spec in H as (rel & f & -> & Hrel & _ & _).
  exists rel. split; [reflexivity |]. unfold output_file_of.
  destruct recursive.
  - split; [exact Hrel |]. split; [discriminate |].
    now rewrite strip_prefix_app.
  - destruct Hrel as [n ->]. split; [discriminate |].
    rewrite name_app_last. split; reflexivity.
Qed.

(** C3: for a file the batch selected, the output path of its job is the
    output directory joined with the file's path relative to the input
    directory when the run is recursive, and with the bare file name when
    it is not; that path is what the loop hands to [compress_image]; the
    recursive batch over root/{x.png, sub/y.png} writes out/x.png and
    out/sub/y.png. *)
Theorem C3_output_paths_mirror_the_input :
  (forall m input_dir output_dir recursive image_file w,
      In image_file (image_files m input_dir recursive) ->
      exists rel,
        image_file = input_dir ++ rel /\ rel <> []
        /\ (recursive = false -> rel = [PyPath.name image_file])
        /\ output_file_of input_dir output_dir recursive image_file w
           = (Ok (output_dir ++ rel), w))
  /\ (forall lib self m input_dir output_dir recursive format overwrite n i
             image_file acc w,
        In image_file (image_files m input_dir recursive) ->
        exists rel,
          image_file = input_dir ++ rel
          /\ batch_step lib self input_dir output_dir recursive format overwrite
               n i image_file acc w
             = (mkdir_parents (PyPath.parent (output_dir ++ rel)) >>
                let* ok := compress_image lib self image_file
                             (Some (output_dir ++ rel)) format overwrite in
                if ok then
                  let* o := path_size image_file in
                  let* c := path_size (output_dir ++ rel) in
                  ret (mkTally (success_count acc + 1) (total_original_size acc + o)
                         (total_compressed_size acc + c))
                else ret acc)
                 (say (MsgProcessing (i + 1) n (PyPath.name image_file)) w))
  /\ (let r := batch_compress Demo.lib Demo.compressor ["root"] (Some ["out"])
                 true None false Demo.tree_world in
      fst r = Ok tt
      /\ (exists f, fs (snd r) !! ["out"; "x.png"] = Some (NFile f))
      /\ (exists f, fs (snd r) !! ["out"; "sub"; "y.png"] = Some (NFile f))
      /\ In (MsgTally 2 2) (stdout (snd r)))
  /\ (let r := batch_compress Demo.lib Demo.compressor ["root"] (Some ["out"])
                 false None false Demo.tree_world in
      fst r = Ok tt
      /\ (exists f, fs (snd r) !! ["out"; "x.png"] = Some (NFile f))
      /\ fs (snd r) !! ["out"; "sub"; "y.png"] = None
      /\ In (MsgTally 1 1) (stdout (snd r))).
Proof.
  split; [intros; now apply (output_file_of_selected m) |]. split.
  - intros lib self m input_dir output_dir recursive format overwrite n i
      image_file acc w H.
    destruct (output_file_of_selected m input_dir output_dir recursive image_file
                (say (MsgProcessing (i + 1) n (PyPath.name image_file)) w) H)
      as (rel & -> & _ & _ & E).
    exists rel. split; [reflexivity |].
    unfold batch_step. rewrite (bind_eq_ok _ _ _ _ _ (print_eq _ w)).
    now rewrite (bind_eq_ok _ _ _ _ _ E).
  - vm_compute. repeat split; eauto 20.
Qed.

Lemma C3_output_paths_mirror_the_input_witness :
  output_file_of ["root"] ["out"] true ["root"; "sub"; "y.png"] Demo.tree_world
  = (Ok ["out"; "sub"; "y.png"], Demo.tree_world).
Proof.
  destruct C3_output_paths_mirror_the_input as (H & _).
  destruct (H (fs Demo.tree_world) ["root"] ["out"] true ["root"; "sub"; "y.png"]
              Demo.tree_world) as (rel & E & _ & _ & Ho).
  - vm_compute. auto.
  - cbn in E. injection E as <-. exact Ho.
Defined.

(** ** No division by zero *)

Lemma wf_fs_mkdir (ds : list path) (m m' : gmap path node) :
  wf_fs m -> FS.mkdir_chain ds m = Ok m' -> wf_fs m'.
Proof.
  intros H E p f Hp. destruct (mkdir_chain_lookup _ _ _ E p) as [Eq | (_ & Hd & _)].
  - rewrite Eq in Hp. now apply (H p).
  - rewrite Hd in Hp. discriminate.
Qed.

Lemma wf_fs_insert (m : gmap path node) (p : path) (f : file) :
  wf_fs m -> wf_file f -> wf_fs (<[p := NFile f]> m).
Proof.
  intros H Hf q g. destruct (decide (p = q)) as [<- | Hne].
  - rewrite lookup_insert_eq. now intros [= <-].
  - rewrite lookup_insert_ne by assumption. apply H.
Qed.

Lemma nonempty_at_insert (a p : path) (f : file) (w : World) :
  nonempty_at a w -> st_size f <> 0%N ->
  nonempty_at a (set_fs (<[p := NFile f]> (fs w)) w).
Proof.
  intros (g & Hg & Hs) Hf. unfold nonempty_at, FS.stat in *. cbn [fs set_fs].
  destruct a as [| c r]; [discriminate Hg |].
  destruct (decide (p = c :: r)) as [-> | Hne].
  - exists f. now rewrite lookup_insert_eq.
  - exists g. now rewrite lookup_insert_ne.
Qed.

Section Sizes.

Variable lib : Library.
Hypothesis Hlib : lib_ok lib.

Lemma pil_writes_wf (f : file) : pil_writes lib f -> wf_file f.
Proof.
  intros (img & fmt & kw & [E | E]).
  - intros _. now apply (encoded_nonempty lib Hlib _ _ _ _ E).
  - now apply (partial_wf lib Hlib _ _ _ _ E).
Qed.

Lemma exif_writes_nonempty (f : file) : exif_writes lib f -> st_size f <> 0%N.
Proof. intros (e & f0 & E). now apply (exif_nonempty lib Hlib _ _ _ E). Qed.

(** Every job keeps the file system well formed. *)
Lemma compress_image_wf (self : ImageCompressor) (a : path) (b : option path)
    (fmt : option string) (overwrite : bool) (w : World) (r : result bool)
    (w' : World) :
  compress_image lib self a b fmt overwrite w = (r, w') ->
  wf_fs (fs w) -> wf_fs (fs w').
Proof.
  apply (steady_compress_image lib (fun x => wf_fs (fs x))); auto.
  - intros x ds m H E. now apply (wf_fs_mkdir ds (fs x)).
  - intros x p f H Hf. apply wf_fs_insert; [exact H | now apply pil_writes_wf].
  - intros x p f H Hf. apply wf_fs_insert; [exact H |].
    intros _. now apply exif_writes_nonempty.
Qed.

Lemma batch_loop_wf (self : ImageCompressor) (input_dir output_dir : path)
    (recursive : bool) (fmt : option string) (overwrite : bool) (n i : nat)
    (files : list path) (acc : tally) (w : World) (r : result tally) (w' : World) :
  batch_loop lib self input_dir output_dir recursive fmt overwrite n i files acc w
  = (r, w') ->
  wf_fs (fs w) -> wf_fs (fs w').
Proof.
  apply (steady_batch_loop lib (fun x => wf_fs (fs x))); auto.
  - intros x ds m H E. now apply (wf_fs_mkdir ds (fs x)).
  - intros x p f H Hf. apply wf_fs_insert; [exact H | now apply pil_writes_wf].
  - intros x p f H Hf. apply wf_fs_insert; [exact H |].
    intros _. now apply exif_writes_nonempty.
Qed.

(** *** A successful encoder leaves a non-empty input file *)

Lemma try_ok_true_inv (m : M bool) (g : exn -> message) (w w' : World) :
  try_except m (fun e => print (g e) >> ret false) w = (Ok true, w') ->
  m w = (Ok true, w').
Proof.
  unfold try_except. destruct (m w) as [[s | e] w1]; [exact id |].
  destruct (is_Exception e); discriminate.
Qed.

Lemma Image_open_ok_inv (p : path) (w w' : World) (img : Image) :
  Image_open p w = (Ok img, w') ->
  w' = w /\ exists f, FS.stat (fs w) p = Some (NFile f) /\ decoded f = Some img.
Proof.
  unfold Image_open. destruct (FS.stat (fs w) p) as [[f |] |]; try discriminate.
  destruct (decoded f) as [i |] eqn:E; [| discriminate].
  intros [= <- <-]. split; [reflexivity | now exists f].
Qed.

Lemma opened_nonempty (p : path) (w w' : World) (img : Image) :
  wf_fs (fs w) -> Image_open p w = (Ok img, w') -> w' = w /\ nonempty_at p w.
Proof.
  intros Hwf E. apply Image_open_ok_inv in E as (-> & f & Hs & Hd).
  split; [reflexivity |]. exists f. split; [exact Hs |].
  destruct p as [| c r]; [discriminate Hs |].
  apply (Hwf (c :: r) f Hs). now rewrite Hd.
Qed.

Lemma still {A} (m : M A) (w : World) (r : result A) (w' : World) :
  keeps (fun x => x = w) m -> m w = (r, w') -> w' = w.
Proof. intros H E. now apply (H _ _ _ E). Qed.

Lemma Image_save_ok_inv (img : Image) (p : path) (fmt : string)
    (kw : list (string * kwarg)) (w w' : World) :
  Image_save lib img p fmt kw w = (Ok tt, w') ->
  exists f, st_size f <> 0%N /\ w' = set_fs (<[p := NFile f]> (fs w)) w.
Proof.
  unfold Image_save. intros E. apply bind_ok_inv in E as ([] & w1 & El & E).
  pose proof (still _ _ _ _ (keeps_load _ img) El) as ->.
  destruct (FS.open_w (fs w) p); [discriminate |].
  destruct (pil_encode lib img fmt kw) as [f | f] eqn:Ee; [| discriminate].
  injection E as <-. exists f. split; [| reflexivity].
  now apply (encoded_nonempty lib Hlib _ _ _ _ Ee).
Qed.

Lemma saved_nonempty (a : path) (img : Image) (p : path) (fmt : string)
    (kw : list (string * kwarg)) (w w' : World) :
  nonempty_at a w -> Image_save lib img p fmt kw w = (Ok tt, w') -> nonempty_at a w'.
Proof.
  intros H E. apply Image_save_ok_inv in E as (f & Hf & ->).
  now apply nonempty_at_insert.
Qed.

Lemma preserved_nonempty (a src out : path) (w : World) (r : result unit)
    (w' : World) :
  nonempty_at a w -> _preserve_metadata lib src out w = (r, w') -> nonempty_at a w'.
Proof.
  intros H E.
  apply (keeps_preserve_metadata lib (nonempty_at a)) in E; [now apply E | |].
  - intros x msg Hx. exact Hx.
  - intros x p f Hx Hf. apply nonempty_at_insert; [exact Hx |].
    now apply exif_writes_nonempty.
Qed.

Lemma compress_jpeg_nonempty (self : ImageCompressor) (a b : path) (w w' : World) :
  wf_fs (fs w) -> compress_jpeg lib self a b w = (Ok true, w') -> nonempty_at a w'.
Proof.
  intros Hwf E. unfold compress_jpeg in E. apply try_ok_true_inv in E.
  apply bind_ok_inv in E as (img & w1 & Eo & E).
  apply (opened_nonempty _ _ _ _ Hwf) in Eo as [-> Hn].
  apply bind_ok_inv in E as (img' & w2 & Ec & E).
  pose proof (still _ _ _ _ (keeps_jpeg_rgb _ img) Ec) as ->.
  apply bind_ok_inv in E as ([] & w3 & Es & E).
  apply (saved_nonempty a) in Es; [| exact Hn].
  apply bind_ok_inv in E as ([] & w4 & Ep & E).
  apply (preserved_nonempty a) in Ep; [| exact Es].
  now injection E as <-.
Qed.

Lemma compress_png_nonempty (self : ImageCompressor) (a b : path) (w w' : World) :
  wf_fs (fs w) -> compress_png lib self a b w = (Ok true, w') -> nonempty_at a w'.
Proof.
  intros Hwf E. unfold compress_png in E. apply try_ok_true_inv in E.
  apply bind_ok_inv in E as (img & w1 & Eo & E).
  apply (opened_nonempty _ _ _ _ Hwf) in Eo as [-> Hn].
  apply bind_ok_inv in E as (img' & w2 & Ec & E).
  assert (w2 = w) as ->.
  { destruct (String.eqb _ _); [| now injection Ec].
    now apply (still _ _ _ _ (keeps_convert _ img "RGBA")) in Ec. }
  apply bind_ok_inv in E as (s & w3 & Es & E). injection E as -> <-.
  unfold _save_png_with_metadata in Es.
  apply (try_ok_true_inv _ (fun _ => MsgPngSaveFailed)) in Es.
  apply bind_ok_inv in Es as ([] & w4 & Es & E). injection E as <-.
  now apply (saved_nonempty a) in Es.
Qed.

Lemma compress_webp_nonempty (self : ImageCompressor) (a b : path) (w w' : World) :
  wf_fs (fs w) -> compress_webp lib self a b w = (Ok true, w') -> nonempty_at a w'.
Proof.
  intros Hwf E. unfold compress_webp in E. apply try_ok_true_inv in E.
  apply bind_ok_inv in E as (img & w1 & Eo & E).
  apply (opened_nonempty _ _ _ _ Hwf) in Eo as [-> Hn].
  cbv zeta in E. apply bind_ok_inv in E as ([] & w2 & Es & E).
  assert (Hn2 : nonempty_at a w2).
  { destruct (PyStr.mem _ _).
    - apply bind_ok_inv in Es as (img' & w3 & Ec & Es).
      assert (w3 = w) as ->.
      { destruct (String.eqb _ _); [| now injection Ec].
        now apply (still _ _ _ _ (keeps_convert _ img "RGBA")) in Ec. }
      now apply (saved_nonempty a) in Es.
    - apply bind_ok_inv in Es as (img' & w3 & Ec & Es).
      pose proof (still _ _ _ _ (keeps_convert _ img "RGB") Ec) as ->.
      now apply (saved_nonempty a) in Es. }
  apply bind_ok_inv in E as ([] & w4 & Ep & E).
  apply (preserved_nonempty a) in Ep; [| exact Hn2].
  now injection E as <-.
Qed.

(** *** A successful dispatch leaves a non-empty input file *)

Lemma try_ok_some_inv (m : M (option bool)) (g : exn -> message) (s : bool)
    (w w' : World) :
  try_except m (fun e => print (g e) >> ret None) w = (Ok (Some s), w') ->
  m w = (Ok (Some s), w').
Proof.
  unfold try_except. destruct (m w) as [[o | e] w1]; [exact id |].
  destruct (is_Exception e); discriminate.
Qed.

Lemma via_inv (enc : M bool) (w w' : World) :
  (let* success := enc in ret (Some success)) w = (Ok (Some true), w') ->
  enc w = (Ok true, w').
Proof.
  intros E. apply bind_ok_inv in E as (s & w1 & Ee & E).
  injection E as -> <-. exact Ee.
Qed.

Lemma redirected_inv (enc : path -> M bool) (b : path) (sfx : string)
    (w w' : World) :
  (let* out := with_suffix b sfx in
   let* success := enc out in ret (Some success)) w = (Ok (Some true), w') ->
  exists out, enc out w = (Ok true, w').
Proof.
  intros E. apply bind_ok_inv in E as (out & w1 & Es & E).
  pose proof (still _ _ _ _ (keeps_with_suffix _ b sfx) Es) as ->.
  exists out. now apply via_inv.
Qed.

Lemma dispatch_nonempty (self : ImageCompressor) (a b : path) (fmt : string)
    (w w' : World) :
  wf_fs (fs w) ->
  dispatch lib self a b fmt w = (Ok (Some true), w') -> nonempty_at a w'.
Proof.
  intros Hwf. unfold dispatch.
  destruct (PyStr.mem fmt _).
  { intros E. apply via_inv in E. now apply compress_jpeg_nonempty in E. }
  destruct (String.eqb fmt ".png").
  { intros E. apply via_inv in E. now apply compress_png_nonempty in E. }
  destruct (String.eqb fmt ".webp").
  { intros E. apply via_inv in E. now apply compress_webp_nonempty in E. }
  intros E. apply bind_ok_inv in E as ([] & w1 & Ep & E).
  rewrite print_eq in Ep. injection Ep as <-.
  apply (try_ok_some_inv _ MsgCannotRead) in E.
  apply bind_ok_inv in E as (img & w2 & Eo & E).
  apply Image_open_ok_inv in Eo as (-> & _).
  destruct (String.eqb (img_format img) "JPEG").
  { apply redirected_inv in E as (out & E). now apply compress_jpeg_nonempty in E. }
  destruct (String.eqb (img_format img) "PNG").
  { apply redirected_inv in E as (out & E). now apply compress_png_nonempty in E. }
  destruct (String.eqb (img_format img) "WEBP").
  { apply redirected_inv in E as (out & E). now apply compress_webp_nonempty in E. }
  apply bind_ok_inv in E as ([] & w3 & _ & E). discriminate E.
Qed.

(** *** Jobs *)

Lemma compress_to_no_zde (self : ImageCompressor) (a b : path)
    (fmt : option string) (w : World) (r : result bool) (w' : World) :
  wf_fs (fs w) -> compress_to lib self a b fmt w = (r, w') ->
  r <> Raise ZeroDivisionError.
Proof.
  intros Hwf E ->.
  apply compress_to_raise in E as [[_ H] | (_ & m & w2 & Hm & Hd & Hs)];
    [congruence |].
  apply dispatch_nonempty in Hd as (f & Hf & Hne).
  - unfold FS.size_of in Hs. rewrite Hf in Hs. now injection Hs.
  - now apply (wf_fs_mkdir _ _ _ Hwf Hm).
Qed.

Lemma compress_image_no_zde (self : ImageCompressor) (a : path) (b : option path)
    (fmt : option string) (overwrite : bool) (w : World) (r : result bool)
    (w' : World) :
  wf_fs (fs w) -> compress_image lib self a b fmt overwrite w = (r, w') ->
  r <> Raise ZeroDivisionError.
Proof.
  intros Hwf E ->.
  apply compress_image_raise in E as [[_ H] | (_ & w0 & m & w2 & H0 & Hm & Hd & Hs)];
    [congruence |].
  apply dispatch_nonempty in Hd as (f & Hf & Hne).
  - unfold FS.size_of in Hs. rewrite Hf in Hs. now injection Hs.
  - cbn [fs set_fs]. rewrite <- H0 in Hwf. now apply (wf_fs_mkdir _ _ _ Hwf Hm).
Qed.

End Sizes.

(** A job that returned [True] has divided by the size of its input, which
    is therefore not zero. *)
Lemma compress_to_true_size (lib : Library) (self : ImageCompressor) (a b : path)
    (fmt : option string) (w w' : World) :
  compress_to lib self a b fmt w = (Ok true, w') ->
  exists o, FS.size_of (fs w') a = Ok o /\ o <> 0%N.
Proof.
  unfold compress_to. intros E.
  apply bind_ok_inv in E as ([] & w1 & _ & E).
  apply bind_ok_inv in E as (r & w2 & _ & E).
  destruct r as [[|] |].
  - apply bind_ok_inv in E as (o & w3 & Eo & E).
    apply path_size_inv in Eo as [-> Eo].
    apply bind_ok_inv in E as (c & w4 & Ec & E).
    apply path_size_inv in Ec as [-> Ec].
    apply bind_ok_inv in E as (q & w5 & Eq & E).
    unfold compression_ratio in Eq.
    destruct (N.eqb_spec o 0) as [-> | Hne]; [discriminate Eq |].
    injection Eq as _ <-.
    apply bind_ok_inv in E as ([] & w6 & Ep & E).
    rewrite print_eq in Ep. injection Ep as <-. injection E as <-.
    exists o. now split.
  - apply bind_ok_inv in E as ([] & w3 & _ & E). discriminate E.
  - discriminate E.
Qed.

Lemma compress_image_true_size (lib : Library) (self : ImageCompressor) (a : path)
    (b : option path) (fmt : option string) (overwrite : bool) (w w' : World) :
  compress_image lib self a b fmt overwrite w = (Ok true, w') ->
  exists o, FS.size_of (fs w') a = Ok o /\ o <> 0%N.
Proof.
  unfold compress_image, bind at 1, path_exists.
  destruct (FS.exists_ (fs w) a); cbn [negb]; [| discriminate].
  unfold bind at 1.
  destruct (FS.exists_ (fs w) (resolve_output a b) && negb overwrite)%bool;
    [| apply compress_to_true_size].
  unfold bind at 1. rewrite print_eq. unfold bind at 1. rewrite print_eq.
  unfold bind at 1, input. cbn [stdin say].
  destruct (stdin w) as [| line rest]; [discriminate |].
  destruct (negb _); [discriminate | apply compress_to_true_size].
Qed.

(** *** The batch loop and its report *)

Lemma bind_inv {A B} (m : M A) (k : A -> M B) (w w' : World) (r : result B) :
  bind m k w = (r, w') ->
  (exists e, m w = (Raise e, w') /\ r = Raise e)
  \/ (exists a w1, m w = (Ok a, w1) /\ k a w1 = (r, w')).
Proof.
  unfold bind. destruct (m w) as [[a | e] w1]; [eauto |].
  intros [= <- <-]. left. eauto.
Qed.

Lemma output_file_of_inv (input_dir output_dir : path) (recursive : bool)
    (image_file : path) (w w' : World) (r : result path) :
  output_file_of input_dir output_dir recursive image_file w = (r, w') ->
  w' = w /\ r <> Raise ZeroDivisionError.
Proof.
  unfold output_file_of, bind.
  destruct recursive; [destruct (PyPath.strip_prefix _ _) |];
    intros [= <- <-]; split; (reflexivity || discriminate).
Qed.

Lemma mkdir_parents_inv (p : path) (w w' : World) (r : result unit) :
  mkdir_parents p w = (r, w') ->
  (exists m, FS.mkdir_p (fs w) p = Ok m /\ w' = set_fs m w /\ r = Ok tt)
  \/ (exists e, benign e /\ r = Raise e).
Proof.
  intros E. destruct r as [[] | e].
  - left. revert E. unfold mkdir_parents.
    destruct (FS.mkdir_p (fs w) p) as [m |]; intros [= <-]. now exists m.
  - right. exists e. split; [now apply (mkdir_parents_raise _ _ _ _ E) | reflexivity].
Qed.

Section Batch.

Variable lib : Library.
Hypothesis Hlib : lib_ok lib.

Lemma batch_step_safe (self : ImageCompressor) (input_dir output_dir : path)
    (recursive : bool) (fmt : option string) (overwrite : bool) (n i : nat)
    (image_file : path) (acc : tally) (w : World) (r : result tally) (w' : World) :
  wf_fs (fs w) -> tally_ok acc ->
  batch_step lib self input_dir output_dir recursive fmt overwrite n i image_file
    acc w = (r, w') ->
  wf_fs (fs w') /\ r <> Raise ZeroDivisionError
  /\ (forall acc', r = Ok acc' -> tally_ok acc').
Proof.
  intros Hwf Hacc. unfold batch_step. intros E.
  apply bind_inv in E as [(e & E & _) | ([] & w1 & Ep & E)]; [discriminate E |].
  rewrite print_eq in Ep. injection Ep as <-.
  apply bind_inv in E as [(e & E & ->) | (out & w2 & Eo & E)].
  { apply output_file_of_inv in E as [-> Hr].
    repeat split; [exact Hwf | intros [= ->]; now apply Hr | discriminate]. }
  apply output_file_of_inv in Eo as [-> _].
  apply bind_inv in E as [(e & E & ->) | ([] & w3 & Em & E)].
  { pose proof E as E'. apply mkdir_parents_inv in E as [(m & _ & _ & [=]) | (e' & [_ He] & [= <-])].
    assert (w' = say (MsgProcessing (i + 1) n (PyPath.name image_file)) w) as ->.
    { revert E'. unfold mkdir_parents. destruct (FS.mkdir_p _ _); now intros [= <-]. }
    repeat split; [exact Hwf | congruence | discriminate]. }
  apply mkdir_parents_inv in Em as [(m & Hm & -> & _) | (e' & _ & [=])].
  set (w3 := set_fs m _) in *.
  assert (Hwf3 : wf_fs (fs w3)) by exact (wf_fs_mkdir _ _ _ Hwf Hm).
  apply bind_inv in E as [(e & E & ->) | (ok & w4 & Ec & E)].
  { split; [exact (compress_image_wf lib Hlib _ _ _ _ _ _ _ _ E Hwf3) |].
    split; [| discriminate].
    intros [= ->]. now apply (compress_image_no_zde lib Hlib _ _ _ _ _ _ _ _ Hwf3 E). }
  assert (Hwf4 : wf_fs (fs w4))
    by exact (compress_image_wf lib Hlib _ _ _ _ _ _ _ _ Ec Hwf3).
  destruct ok.
  - apply compress_image_true_size in Ec as (o' & Ho & Hne).
    apply bind_inv in E as [(e & E & ->) | (o & w5 & Eo & E)].
    { apply path_size_inv in E as [-> E]. rewrite Ho in E. discriminate E. }
    apply path_size_inv in Eo as [-> Eo]. rewrite Ho in Eo. injection Eo as <-.
    apply bind_inv in E as [(e & E & ->) | (c & w6 & Ecs & E)].
    { apply path_size_inv in E as [-> E]. symmetry in E. apply size_of_raise in E as [_ E].
      repeat split; [exact Hwf4 | congruence | discriminate]. }
    apply path_size_inv in Ecs as [-> _]. injection E as <- <-.
    repeat split; [exact Hwf4 | discriminate |].
    intros acc' [= <-]. intros _. cbn. lia.
  - injection E as <- <-. repeat split; [exact Hwf4 | discriminate |].
    now intros acc' [= <-].
Qed.

Lemma batch_loop_safe (self : ImageCompressor) (input_dir output_dir : path)
    (recursive : bool) (fmt : option string) (overwrite : bool) (n : nat)
    (files : list path) :
  forall i acc w r w',
    wf_fs (fs w) -> tally_ok acc ->
    batch_loop lib self input_dir output_dir recursive fmt overwrite n i files
      acc w = (r, w') ->
    r <> Raise ZeroDivisionError /\ (forall acc', r = Ok acc' -> tally_ok acc').
Proof.
  induction files as [| f rest IH]; intros i acc w r w' Hwf Hacc; cbn [batch_loop].
  - intros [= <- <-]. split; [discriminate | now intros acc' [= <-]].
  - intros E. apply bind_inv in E as [(e & E & ->) | (acc1 & w1 & E1 & E)].
    + apply batch_step_safe in E as (_ & H & _); [| assumption..].
      split; [exact H | discriminate].
    + apply batch_step_safe in E1 as (Hwf1 & _ & H1); [| assumption..].
      now apply (IH _ _ _ _ _ Hwf1 (H1 _ eq_refl) E).
Qed.

End Batch.

Lemma batch_report_none (n : nat) (acc : tally) (w : World) :
  success_count acc = 0%nat ->
  batch_report n acc w = (Ok tt, say (MsgTally 0 n) (say MsgBatchDone w)).
Proof. intros H. unfold batch_report. rewrite H. reflexivity. Qed.

Lemma batch_report_returns (n : nat) (acc : tally) (w : World) :
  tally_ok acc -> exists w', batch_report n acc w = (Ok tt, w').
Proof.
  intros H. unfold batch_report.
  rewrite (bind_eq_ok _ _ _ _ _ (print_eq _ w)).
  rewrite (bind_eq_ok _ _ _ _ _ (print_eq _ _)).
  destruct (Nat.ltb_spec 0 (success_count acc)) as [Hpos | _]; [| now eexists].
  unfold compression_ratio.
  destruct (N.eqb_spec (total_original_size acc) 0) as [E | _]; [now apply H in Hpos |].
  now eexists.
Qed.

Lemma batch_compress_no_zde (lib : Library) (Hlib : lib_ok lib)
    (self : ImageCompressor) (input_dir : path) (output_dir : option path)
    (recursive : bool) (format : option string) (overwrite : bool) (w : World)
    (r : result unit) (w' : World) :
  wf_fs (fs w) ->
  batch_compress lib self input_dir output_dir recursive format overwrite w = (r, w') ->
  r <> Raise ZeroDivisionError.
Proof.
  intros Hwf. unfold batch_compress, bind at 1, path_exists, bind at 1, path_is_dir.
  destruct (negb _ || negb _)%bool; [now intros [= <- <-] |].
  intros E.
  apply bind_inv in E as [(e & E & ->) | ([] & w1 & Em & E)].
  { apply mkdir_parents_inv in E as [(m & _ & _ & [=]) | (e' & [_ He] & [= <-])].
    congruence. }
  apply mkdir_parents_inv in Em as [(m & Hm & -> & _) | (e' & _ & [=])].
  assert (Hwf1 : wf_fs m) by now apply (wf_fs_mkdir _ _ _ Hwf Hm).
  unfold bind at 1 in E. cbn [fs set_fs] in E.
  destruct (image_files m input_dir recursive) as [| f rest] eqn:Ef;
    [now injection E as <- |].
  rewrite (bind_eq_ok _ _ _ _ _ (print_eq _ _)) in E.
  rewrite (bind_eq_ok _ _ _ _ _ (print_eq _ _)) in E.
  apply bind_inv in E as [(e & E & ->) | (acc & w2 & El & E)].
  - apply (batch_loop_safe lib Hlib) in E as [H _];
      [intros [= ->]; now apply H | exact Hwf1 |].
    intros H. cbn in H. lia.
  - apply (batch_loop_safe lib Hlib) in El as [_ H]; [| exact Hwf1 |].
    + destruct (batch_report_returns (length (f :: rest)) acc w2 (H _ eq_refl)) as [w3 E3].
      rewrite E3 in E. now injection E as <-.
    + intros H0. cbn in H0. lia.
Qed.

(** C6: a summary with no successful job prints the tally and no ratio,
    and producing it cannot fail; as long as every file that decodes as an
    image is non-empty and the libraries write non-empty files, neither a
    job nor a batch ever raises [ZeroDivisionError]: a job divides only
    after an encoder has succeeded, by the size of an input that is then
    not zero, and the batch divides only when a job has succeeded, by a
    sum of such sizes. *)
Theorem C6_no_division_by_zero (lib : Library) (Hlib : lib_ok lib) :
  (forall n acc w,
      success_count acc = 0%nat ->
      batch_report n acc w = (Ok tt, say (MsgTally 0 n) (say MsgBatchDone w)))
  /\ (forall self input_dir output_dir recursive format overwrite n files w acc w',
        wf_fs (fs w) ->
        batch_loop lib self input_dir output_dir recursive format overwrite n 0
          files (mkTally 0 0 0) w = (Ok acc, w') ->
        tally_ok acc /\ exists w'', batch_report n acc w' = (Ok tt, w''))
  /\ (forall self input_path output_path format overwrite w r w',
        wf_fs (fs w) ->
        compress_image lib self input_path output_path format overwrite w = (r, w') ->
        r <> Raise ZeroDivisionError)
  /\ (forall self input_dir output_dir recursive format overwrite w r w',
        wf_fs (fs w) ->
        batch_compress lib self input_dir output_dir recursive format overwrite w
        = (r, w') ->
        r <> Raise ZeroDivisionError).
Proof.
  split; [exact batch_report_none |]. split; [| split].
  - intros self input_dir output_dir recursive format overwrite n files w acc w' Hwf E.
    apply (batch_loop_safe lib Hlib) in E as [_ H]; [| exact Hwf |].
    + split; [now apply H | apply batch_report_returns; now apply H].
    + intros H0. cbn in H0. lia.
  - intros self input_path output_path format overwrite w r w' Hwf E.
    now apply (compress_image_no_zde lib Hlib _ _ _ _ _ _ _ _ Hwf E).
  - intros self input_dir output_dir recursive format overwrite w r w' Hwf E.
    now apply (batch_compress_no_zde lib Hlib _ _ _ _ _ _ _ _ _ Hwf E).
Qed.

Lemma demo_lib_ok : lib_ok Demo.lib.
Proof.
  split.
  - intros img fmt kw f [= <-]. discriminate.
  - intros img fmt kw f [=].
  - intros e f0 f [= <-]. cbn. lia.
Qed.

Lemma wf_fs_empty : wf_fs ∅.
Proof. intros p f H. now rewrite lookup_empty in H. Qed.

Lemma wf_fs_insert_dir (m : gmap path node) (p : path) :
  wf_fs m -> wf_fs (<[p := NDir]> m).
Proof.
  intros H q g. destruct (decide (p = q)) as [<- | Hne].
  - rewrite lookup_insert_eq. discriminate.
  - rewrite lookup_insert_ne by assumption. apply H.
Qed.

Lemma hopeless_world_wf : wf_fs (fs Demo.hopeless_world).
Proof.
  apply wf_fs_insert; [apply wf_fs_insert_dir, wf_fs_empty |].
  intros H. now contradiction H.
Qed.

Lemma C6_no_division_by_zero_witness :
  (let r := batch_compress Demo.lib Demo.compressor ["in"] (Some ["out"]) false
              None false Demo.hopeless_world in
   fst r <> Raise ZeroDivisionError)
  /\ stdout (snd (batch_compress Demo.lib Demo.compressor ["in"] (Some ["out"])
                    false None false Demo.hopeless_world))
     = [MsgFound 1; MsgBatchStart 1; MsgProcessing 1 1 "bad.png";
        MsgPngFailed UnidentifiedImageError; MsgFailed; MsgBatchDone; MsgTally 0 1].
Proof.
  destruct (C6_no_division_by_zero Demo.lib demo_lib_ok) as (_ & _ & _ & H).
  split; [| vm_compute; reflexivity].
  cbv zeta.
  destruct (batch_compress Demo.lib Demo.compressor ["in"] (Some ["out"]) false
              None false Demo.hopeless_world) as [r w'] eqn:E.
  exact (H _ _ _ _ _ _ _ _ _ hopeless_world_wf E).
Defined.

(** The hypothesis on the files is needed: the job's own division has no
    guard in the code, so a world with an empty file that decodes as an
    image, which Pillow rules out, would make the job raise. *)
Lemma unguarded_job_ratio_needs_nonempty_images :
  fst (compress_image Demo.lib Demo.compressor ["e.png"] (Some ["o.png"]) None
         false (mkWorld (<[ ["e.png"] := Demo.png 0 ]> ∅) [] []))
  = Raise ZeroDivisionError.
Proof. reflexivity. Qed.

(** ** Sizes as printed *)

Lemma append_cons (c : ascii) (s t : string) : String c s +:+ t = String c (s +:+ t).
Proof. reflexivity. Qed.

Lemma append_assoc (a b c : string) : (a +:+ b) +:+ c = a +:+ (b +:+ c).
Proof.
  induction a as [| x a IH]; [reflexivity |].
  rewrite !append_cons. now rewrite IH.
Qed.

Lemma length_append (s t : string) :
  String.length (s +:+ t) = (String.length s + String.length t)%nat.
Proof.
  induction s as [| c s IH]; [reflexivity |].
  rewrite append_cons. cbn [String.length]. now rewrite IH.
Qed.

(** The loop of [format_size] stops because its condition fails, within
    the three rounds the list of units allows. *)
Lemma format_size_loop_exits (x : Q) :
  let (y, i) := format_size_loop (length size_names - 1) x 0 in
  (Qle_bool 1024 y && (i <? length size_names - 1)%nat)%bool = false.
Proof.
  cbn [size_names length Nat.sub format_size_loop Nat.add].
  destruct (Qle_bool 1024 x) eqn:E0; cbn [andb Nat.ltb Nat.leb]; [| now rewrite E0].
  destruct (Qle_bool 1024 (x / 1024)) eqn:E1; cbn [andb]; [| now rewrite E1].
  destruct (Qle_bool 1024 (x / 1024 / 1024)) eqn:E2; cbn [andb]; [| now rewrite E2].
  apply andb_false_r.
Qed.

Lemma format_size_loop_spec (n : Z) :
  format_size_loop (length size_names - 1) (inject_Z n) 0
  = if n <? 1024 then (inject_Z n, 0%nat)
    else if n <? 1024 ^ 2 then ((inject_Z n / 1024)%Q, 1%nat)
    else if n <? 1024 ^ 3 then ((inject_Z n / 1024 / 1024)%Q, 2%nat)
    else ((inject_Z n / 1024 / 1024 / 1024)%Q, 3%nat).
Proof.
  assert (H0 : Qle_bool 1024 (inject_Z n) = negb (n <? 1024)).
  { apply eq_true_iff_eq. rewrite Qle_bool_iff, negb_true_iff, Z.ltb_ge.
    unfold Qle. cbn. lia. }
  assert (H1 : Qle_bool 1024 (inject_Z n / 1024) = negb (n <? 1024 ^ 2)).
  { apply eq_true_iff_eq. rewrite Qle_bool_iff, negb_true_iff, Z.ltb_ge.
    unfold Qle. cbn. lia. }
  assert (H2 : Qle_bool 1024 (inject_Z n / 1024 / 1024) = negb (n <? 1024 ^ 3)).
  { apply eq_true_iff_eq. rewrite Qle_bool_iff, negb_true_iff, Z.ltb_ge.
    unfold Qle. cbn. lia. }
  cbn [size_names length Nat.sub format_size_loop Nat.ltb Nat.leb Nat.add].
  rewrite H0, H1, H2.
  destruct (n <? 1024), (n <? 1024 ^ 2), (n <? 1024 ^ 3); reflexivity.
Qed.

Lemma round_half_even_near (x : Q) :
  2 * Z.abs (Qnum x - round_half_even x * QDen x) <= QDen x.
Proof.
  destruct x as [p q]. unfold round_half_even. cbn [Qnum Qden].
  pose proof (Z.div_mod p (Zpos q) ltac:(lia)) as Hd.
  pose proof (Z.mod_pos_bound p (Zpos q) ltac:(lia)) as Hm.
  destruct (Z.compare_spec (2 * (p mod Zpos q)) (Zpos q)) as [E | E | E];
    [destruct (Z.even (p / Zpos q)) | |]; nia.
Qed.

Lemma round_half_even_unique (x : Q) (t : Z) :
  2 * Z.abs (Qnum x - t * QDen x) < QDen x -> round_half_even x = t.
Proof.
  destruct x as [p q]. unfold round_half_even. cbn [Qnum Qden]. intros H.
  pose proof (Z.div_mod p (Zpos q) ltac:(lia)) as Hd.
  pose proof (Z.mod_pos_bound p (Zpos q) ltac:(lia)) as Hm.
  destruct (Z.compare_spec (2 * (p mod Zpos q)) (Zpos q)) as [E | E | E];
    [destruct (Z.even (p / Zpos q)) | |]; nia.
Qed.

Lemma round_half_even_nonneg (x : Q) : 0 <= Qnum x -> 0 <= round_half_even x.
Proof.
  destruct x as [p q]. unfold round_half_even. cbn [Qnum Qden]. intros Hp.
  pose proof (Z.div_pos p (Zpos q) Hp ltac:(lia)).
  destruct (_ ?= _); [destruct (Z.even _) | |]; lia.
Qed.

Lemma round_half_even_whole (n : Z) : round_half_even (inject_Z n * 10) = n * 10.
Proof.
  unfold round_half_even. cbn [Qnum Qden inject_Z Qmult Pos.mul].
  rewrite Z.mod_1_r, Z.div_1_r. reflexivity.
Qed.

Lemma one_decimal_nonneg (x : Q) (u : string) :
  0 <= Qnum x -> one_decimal x +:+ u = shown (round_half_even (x * 10)) u.
Proof.
  intros Hx. unfold one_decimal, shown.
  assert (Hs : Qle_bool 0 x = true).
  { apply Qle_bool_iff. unfold Qle. cbn. lia. }
  rewrite Hs, Z.abs_eq.
  - rewrite !append_assoc. reflexivity.
  - apply round_half_even_nonneg. destruct x as [p q]. cbn in *. lia.
Qed.

(** X1: for a size [n] from 1 up to [2^53], [format_size] prints a number
    with one decimal followed by the unit [B], [KB], [MB] or [GB]: the
    unit is the largest one of these that [n] reaches ([GB] from [1024^3]
    on, however large [n] is), and the number printed is [n] over that
    unit rounded to the nearest tenth, so it is off by 0.05 at most. *)
Theorem X1_format_size_unit_and_digits (n : Z) (Hn : 0 < n < 2 ^ 53) :
  exists (i : nat) (t : Z),
    (i <= 3)%nat
    /\ format_size n = shown t (nth i size_names "")
    /\ 1024 ^ Z.of_nat i <= n
    /\ ((i < 3)%nat -> n < 1024 ^ (Z.of_nat i + 1))
    /\ 2 * Z.abs (10 * n - t * 1024 ^ Z.of_nat i) <= 1024 ^ Z.of_nat i.
Proof.
  unfold format_size. destruct (Z.eqb_spec n 0) as [-> | _]; [lia |].
  rewrite format_size_loop_spec.
  destruct (Z.ltb_spec n 1024) as [H1 | H1];
    [| destruct (Z.ltb_spec n (1024 ^ 2)) as [H2 | H2];
       [| destruct (Z.ltb_spec n (1024 ^ 3)) as [H3 | H3]]].
  - exists 0%nat, (round_half_even (inject_Z n * 10)).
    split; [lia |]. split; [apply one_decimal_nonneg; cbn; lia |].
    split; [cbn; lia |]. split; [intros _; cbn; lia |].
    pose proof (round_half_even_near (inject_Z n * 10)) as H.
    cbn in H. cbn. lia.
  - exists 1%nat, (round_half_even (inject_Z n / 1024 * 10)).
    split; [lia |]. split; [apply one_decimal_nonneg; cbn; lia |].
    split; [cbn; lia |]. split; [intros _; cbn; lia |].
    pose proof (round_half_even_near (inject_Z n / 1024 * 10)) as H.
    cbn in H. cbn. lia.
  - exists 2%nat, (round_half_even (inject_Z n / 1024 / 1024 * 10)).
    split; [lia |]. split; [apply one_decimal_nonneg; cbn; lia |].
    split; [cbn; lia |]. split; [intros _; cbn; lia |].
    pose proof (round_half_even_near (inject_Z n / 1024 / 1024 * 10)) as H.
    cbn in H. cbn. lia.
  - exists 3%nat, (round_half_even (inject_Z n / 1024 / 1024 / 1024 * 10)).
    split; [lia |]. split; [apply one_decimal_nonneg; cbn; lia |].
    split; [cbn; lia |]. split; [intros Hlt; lia |].
    pose proof (round_half_even_near (inject_Z n / 1024 / 1024 / 1024 * 10)) as H.
    cbn in H. cbn. lia.
Qed.

Lemma X1_format_size_unit_and_digits_witness :
  exists (i : nat) (t : Z),
    (i <= 3)%nat
    /\ format_size 1536 = shown t (nth i size_names "")
    /\ 1024 ^ Z.of_nat i <= 1536
    /\ ((i < 3)%nat -> 1536 < 1024 ^ (Z.of_nat i + 1))
    /\ 2 * Z.abs (10 * 1536 - t * 1024 ^ Z.of_nat i) <= 1024 ^ Z.of_nat i.
Proof.
  apply (X1_format_size_unit_and_digits 1536). vm_compute. split; reflexivity.
Defined.

Lemma format_size_small (n : Z) :
  - 2 ^ 53 < n < 1024 -> n <> 0 ->
  format_size n
  = (if 0 <? n then "" else "-") +:+ pretty (Z.to_N (Z.abs n)) +:+ ".0B".
Proof.
  intros Hn Hz. unfold format_size.
  destruct (Z.eqb_spec n 0) as [-> | _]; [congruence |].
  rewrite format_size_loop_spec.
  destruct (Z.ltb_spec n 1024) as [_ | H]; [| lia].
  unfold one_decimal. rewrite round_half_even_whole.
  replace (Z.abs (n * 10) / 10) with (Z.abs n)
    by (rewrite Z.abs_mul, Z.div_mul; lia).
  replace (Z.abs (n * 10) mod 10) with 0
    by (rewrite Z.abs_mul, Z.mod_mul; lia).
  assert (Hs : Qle_bool 0 (inject_Z n) = (0 <? n)).
  { apply eq_true_iff_eq. rewrite Qle_bool_iff, Z.ltb_lt. unfold Qle. cbn. lia. }
  rewrite Hs. rewrite !append_assoc. reflexivity.
Qed.

Lemma batch_report_runs (n : nat) (acc : tally) (w : World) :
  (0 < success_count acc)%nat -> total_original_size acc <> 0%N ->
  batch_report n acc w
  = (Ok tt,
     say (MsgSaved (Z.of_N (total_original_size acc)
                    - Z.of_N (total_compressed_size acc)))
       (say (MsgTotalRatio (compression_ratio_of (total_compressed_size acc)
                              (total_original_size acc)))
          (say (MsgTally (success_count acc) n) (say MsgBatchDone w)))).
Proof.
  intros Hs Ho. unfold batch_report, bind at 1. rewrite print_eq.
  unfold bind at 1. rewrite print_eq.
  apply Nat.ltb_lt in Hs. rewrite Hs.
  unfold bind at 1, compression_ratio.
  apply N.eqb_neq in Ho. rewrite Ho. unfold ret at 1, bind at 1.
  now rewrite print_eq.
Qed.

(** X2: [format_size] scales a size only when it is at least 1024, so a
    size below 1024 is printed in bytes, as [n.0B], and so is every
    negative number down to [-2^53], the range in which the conversion to
    a float is exact.  The saving a batch reports
    is the difference of two totals: when the compressed files are larger
    than the originals it is negative, and the report, which still goes
    through with the results of at least one job, shows it as a negative
    number of bytes without a unit of its own. *)
Theorem X2_sizes_below_1024_are_in_bytes :
  (forall n : Z,
      - 2 ^ 53 < n < 1024 -> n <> 0 ->
      format_size n
      = (if 0 <? n then "" else "-") +:+ pretty (Z.to_N (Z.abs n)) +:+ ".0B")
  /\ (forall (n : nat) (acc : tally) (w : World),
        (0 < success_count acc)%nat ->
        (0 < total_original_size acc < total_compressed_size acc)%N ->
        (total_compressed_size acc < 2 ^ 53)%N ->
        let saved := Z.of_N (total_original_size acc)
                     - Z.of_N (total_compressed_size acc) in
        fst (batch_report n acc w) = Ok tt
        /\ stdout (snd (batch_report n acc w))
           = stdout w
             ++ [MsgBatchDone; MsgTally (success_count acc) n;
                 MsgTotalRatio (compression_ratio_of (total_compressed_size acc)
                                  (total_original_size acc));
                 MsgSaved saved]
        /\ shown_sizes (MsgSaved saved)
           = ["-" +:+ pretty (Z.to_N (- saved)) +:+ ".0B"]).
Proof.
  split; [exact format_size_small |].
  intros n acc w Hs Ho Hc saved.
  rewrite batch_report_runs; [| exact Hs | lia].
  split; [reflexivity |]. split.
  - cbn [snd stdout say]. rewrite <- !app_assoc. reflexivity.
  - cbn [shown_sizes]. rewrite format_size_small; [| subst saved; lia | subst saved; lia].
    destruct (Z.ltb_spec 0 saved) as [H | H]; [subst saved; lia |].
    rewrite Z.abs_neq by lia. reflexivity.
Qed.

Lemma X2_sizes_below_1024_are_in_bytes_witness :
  format_size 512 = "512.0B" /\ format_size (-5242880) = "-5242880.0B".
Proof.
  destruct X2_sizes_below_1024_are_in_bytes as [H _]. split.
  - apply (H 512); [vm_compute; split; reflexivity | discriminate].
  - apply (H (-5242880)); [vm_compute; split; reflexivity | discriminate].
Defined.

(** X3: the unit is chosen before the number is rounded, so a size within
    0.05 of the next unit is printed as [1024.0] of the smaller one: the
    last 51 byte counts below 1 MB read [1024.0KB], not [1.0MB], and the
    sizes from 1073689396 up to [1024^3 - 1] read [1024.0MB]. *)
Theorem X3_format_size_rounds_up_to_1024 (n : Z) :
  (1048525 <= n < 1048576 -> format_size n = "1024.0KB")
  /\ (1073689396 <= n < 1073741824 -> format_size n = "1024.0MB").
Proof.
  unfold format_size. rewrite format_size_loop_spec. split; intros H.
  - destruct (Z.eqb_spec n 0); [lia |].
    destruct (Z.ltb_spec n 1024); [lia |].
    destruct (Z.ltb_spec n (1024 ^ 2)); [| lia].
    unfold one_decimal.
    assert (Hr : round_half_even (inject_Z n / 1024 * 10) = 10240).
    { apply round_half_even_unique. cbn. lia. }
    rewrite Hr.
    assert (Hs : Qle_bool 0 (inject_Z n / 1024) = true).
    { apply Qle_bool_iff. unfold Qle. cbn. lia. }
    rewrite Hs. reflexivity.
  - destruct (Z.eqb_spec n 0); [lia |].
    destruct (Z.ltb_spec n 1024); [lia |].
    destruct (Z.ltb_spec n (1024 ^ 2)); [lia |].
    destruct (Z.ltb_spec n (1024 ^ 3)); [| lia].
    unfold one_decimal.
    assert (Hr : round_half_even (inject_Z n / 1024 / 1024 * 10) = 10240).
    { apply round_half_even_unique. cbn. lia. }
    rewrite Hr.
    assert (Hs : Qle_bool 0 (inject_Z n / 1024 / 1024) = true).
    { apply Qle_bool_iff. unfold Qle. cbn. lia. }
    rewrite Hs. reflexivity.
Qed.

Lemma X3_format_size_rounds_up_to_1024_witness :
  format_size 1048575 = "1024.0KB" /\ format_size 1073741823 = "1024.0MB".
Proof.
  split.
  - apply (proj1 (X3_format_size_rounds_up_to_1024 1048575)). lia.
  - apply (proj2 (X3_format_size_rounds_up_to_1024 1073741823)). lia.
Defined.

(** ** Presets and format names *)

(** X4: the three presets are ordered fast <= balanced <= quality in the
    quality they resolve to exactly when the requested quality lies in
    70..95: below 70 the fast preset raises the quality (to 70), and above
    95 the quality preset lowers it (to 95). *)
Theorem X4_preset_quality_order (q : Z) (o p : bool) :
  quality (ImageCompressor_init q o p "fast")
    <= quality (ImageCompressor_init q o p "balanced")
    <= quality (ImageCompressor_init q o p "quality")
  <-> 70 <= q <= 95.
Proof. cbn. lia. Qed.

Lemma lower_ascii_idem (c : ascii) :
  PyStr.lower_ascii (PyStr.lower_ascii c) = PyStr.lower_ascii c.
Proof. destruct c as [[] [] [] [] [] [] [] []]; reflexivity. Qed.

Lemma lower_idem (s : string) : PyStr.lower (PyStr.lower s) = PyStr.lower s.
Proof.
  induction s as [| c s IH]; [reflexivity |].
  cbn [PyStr.lower]. now rewrite lower_ascii_idem, IH.
Qed.

Lemma lower_ascii_dot (c : ascii) :
  Ascii.eqb (PyStr.lower_ascii c) "."%char = Ascii.eqb c "."%char.
Proof. destruct c as [[] [] [] [] [] [] [] []]; reflexivity. Qed.

Lemma startswith_dot_lower (s : string) :
  PyStr.startswith_dot (PyStr.lower s) = PyStr.startswith_dot s.
Proof. destruct s as [| c s]; [reflexivity | apply lower_ascii_dot]. Qed.

Lemma format_token_lower (a a' : path) (f : string) :
  format_token a (Some f) = format_token a' (Some (PyStr.lower f)).
Proof. unfold format_token. now rewrite lower_idem. Qed.

Lemma format_token_dot (a a' : path) (f : string) :
  PyStr.startswith_dot f = false ->
  format_token a (Some f) = format_token a' (Some (String "."%char f)).
Proof.
  intros H. unfold format_token. rewrite startswith_dot_lower, H.
  cbn [PyStr.lower PyStr.startswith_dot].
  destruct (Ascii.eqb_spec (PyStr.lower_ascii ".") "."); [reflexivity | now elim n].
Qed.

Lemma compress_image_format_token (lib : Library) (self : ImageCompressor)
    (a : path) (b : option path) (f g : option string) (ow : bool) :
  format_token a f = format_token a g ->
  compress_image lib self a b f ow = compress_image lib self a b g ow.
Proof. intros H. unfold compress_image, compress_to. now rewrite H. Qed.

(** X5: a format given on the command line is read without regard to case
    and with or without its leading dot: a job run with the format [f]
    is the job run with [f] lowercased, and with [.f]; and once a format
    is given, the suffix of the input path plays no part in the choice of
    the encoder. *)
Theorem X5_format_option_is_normalised (lib : Library) (self : ImageCompressor)
    (a : path) (b : option path) (f : string) (ow : bool) :
  compress_image lib self a b (Some f) ow
  = compress_image lib self a b (Some (PyStr.lower f)) ow
  /\ (PyStr.startswith_dot f = false ->
      compress_image lib self a b (Some (String "."%char f)) ow
      = compress_image lib self a b (Some f) ow)
  /\ forall a', format_token a' (Some f) = format_token a (Some f).
Proof.
  split; [| split].
  - apply compress_image_format_token, format_token_lower.
  - intros H. apply compress_image_format_token. symmetry. now apply format_token_dot.
  - intros a'. reflexivity.
Qed.

Lemma X5_format_option_is_normalised_witness :
  compress_image Demo.lib Demo.compressor ["a.png"] None (Some ".webp") true
  = compress_image Demo.lib Demo.compressor ["a.png"] None (Some "webp") true.
Proof.
  apply (X5_format_option_is_normalised Demo.lib Demo.compressor ["a.png"] None
           "webp" true).
  reflexivity.
Defined.

(** ** Where a job writes *)

Lemma outside_refl (P D : path -> Prop) (m : gmap path node) : outside P D m m.
Proof. intros q _. now left. Qed.

Lemma outside_trans (P D : path -> Prop) (m1 m2 m3 : gmap path node) :
  outside P D m1 m2 -> outside P D m2 m3 -> outside P D m1 m3.
Proof.
  intros H12 H23 q Hq.
  destruct (H12 q Hq) as [E12 | (N1 & D2 & HD)], (H23 q Hq) as [E23 | (N2 & D3 & HD')].
  - left. congruence.
  - right. rewrite <- E12. auto.
  - right. rewrite E23. auto.
  - congruence.
Qed.

Lemma prefixes_spec (p q : path) :
  In q (PyPath.prefixes p) <-> q <> [] /\ exists rest, p = q ++ rest.
Proof.
  revert q. induction p as [| c r IH]; intros q; cbn [PyPath.prefixes].
  - split; [intros [] | intros (Hq & rest & E)].
    destruct q; [congruence | discriminate].
  - cbn [In]. rewrite in_map_iff. split.
    + intros [<- | (q' & <- & Hq')].
      * split; [discriminate | now exists r].
      * apply IH in Hq' as (_ & rest & ->). split; [discriminate | now exists rest].
    + intros (Hq & rest & E). destruct q as [| c' q']; [congruence |].
      injection E as <- ->. destruct q' as [| c'' q''].
      * now left.
      * right. exists (c'' :: q''). split; [reflexivity |].
        apply IH. split; [discriminate | now exists rest].
Qed.

Section Footprint.

Variable lib : Library.
Variable P : path -> Prop.

(** [c] changes the file system at paths of [P] only. *)
Definition writes_only {A} (c : M A) : Prop :=
  forall w r w', c w = (r, w') -> forall q, ~ P q -> fs w' !! q = fs w !! q.

Lemma writes_only_still {A} (f : World -> result A) :
  writes_only (fun w => (f w, w)).
Proof. now intros w r w' [= <- <-]. Qed.

Lemma writes_only_ret {A} (a : A) : writes_only (ret a).
Proof. apply (writes_only_still (fun _ => Ok a)). Qed.

Lemma writes_only_raise {A} (e : exn) : writes_only (@raise A e).
Proof. apply (writes_only_still (fun _ => Raise e)). Qed.

Lemma writes_only_bind {A B} (m : M A) (k : A -> M B) :
  writes_only m -> (forall a, writes_only (k a)) -> writes_only (bind m k).
Proof.
  intros Hm Hk w r w'. unfold bind.
  destruct (m w) as [[a | e] w1] eqn:E.
  - intros Hka q Hq. rewrite (Hk _ _ _ _ Hka q Hq). now apply (Hm _ _ _ E).
  - intros [= <- <-]. now apply (Hm _ _ _ E).
Qed.

Lemma writes_only_try {A} (m : M A) (h : exn -> M A) :
  writes_only m -> (forall e, writes_only (h e)) -> writes_only (try_except m h).
Proof.
  intros Hm Hh w r w'. unfold try_except.
  destruct (m w) as [[a | e] w1] eqn:E.
  - intros [= <- <-]. now apply (Hm _ _ _ E).
  - destruct (is_Exception e).
    + intros Hhe q Hq. rewrite (Hh _ _ _ _ Hhe q Hq). now apply (Hm _ _ _ E).
    + intros [= <- <-]. now apply (Hm _ _ _ E).
Qed.

Lemma writes_only_print (msg : message) : writes_only (print msg).
Proof. now intros w r w' [= <- <-]. Qed.

Lemma writes_only_input : writes_only input.
Proof.
  intros w r w'. unfold input. destruct (stdin w); now intros [= <- <-].
Qed.

Lemma writes_only_Image_open (p : path) : writes_only (Image_open p).
Proof.
  intros w r w'. unfold Image_open.
  destruct (FS.stat (fs w) p) as [[f |] |]; [destruct (decoded f) |..];
    now intros [= <- <-].
Qed.

Lemma writes_only_load (img : Image) : writes_only (load img).
Proof.
  unfold load. destruct (img_loads img); [apply writes_only_ret | apply writes_only_raise].
Qed.

Lemma writes_only_convert (img : Image) (mode : string) :
  writes_only (convert img mode).
Proof.
  apply writes_only_bind; [apply writes_only_load | intros; apply writes_only_ret].
Qed.

Lemma writes_only_with_suffix (p : path) (sfx : string) :
  writes_only (with_suffix p sfx).
Proof.
  unfold with_suffix. destruct (PyPath.with_suffix p sfx);
    [apply writes_only_ret | apply writes_only_raise].
Qed.

Lemma writes_only_path_size (p : path) : writes_only (path_size p).
Proof. apply (writes_only_still (fun w => FS.size_of (fs w) p)). Qed.

Lemma writes_only_Image_save (img : Image) (p : path) (fmt : string)
    (kw : list (string * kwarg)) : P p -> writes_only (Image_save lib img p fmt kw).
Proof.
  intros Hp. unfold Image_save.
  apply writes_only_bind; [apply writes_only_load | intros _].
  intros w r w'.
  destruct (FS.open_w (fs w) p); [now intros [= <- <-] |].
  destruct (pil_encode lib img fmt kw) as [f | f].
  - intros [= <- <-] q Hq. cbn [fs set_fs].
    apply lookup_insert_ne. now intros ->.
  - destruct (_ && _)%bool; intros [= <- <-] q Hq; [reflexivity |].
    cbn [fs set_fs]. apply lookup_insert_ne. now intros ->.
Qed.

Lemma writes_only_piexif_insert_at (v : meta_value) (p : path) :
  P p -> writes_only (piexif_insert_at lib v p).
Proof.
  intros Hp w r w'. unfold piexif_insert_at.
  destruct (FS.stat (fs w) p) as [[f |] |];
    [destruct (piexif_insert lib v f) |..]; intros [= <- <-] q Hq;
    try reflexivity.
  cbn [fs set_fs]. apply lookup_insert_ne. now intros ->.
Qed.

(** One step of a proof that a program writes at [P] only *)
Ltac writes_step :=
  match goal with
  | |- writes_only (ret _) => apply writes_only_ret
  | |- writes_only (bind _ _) => apply writes_only_bind
  | |- writes_only (try_except _ _) => apply writes_only_try
  | |- writes_only (print _) => apply writes_only_print
  | |- writes_only (path_size _) => apply writes_only_path_size
  | |- writes_only (Image_open _) => apply writes_only_Image_open
  | |- writes_only (load _) => apply writes_only_load
  | |- writes_only (paste _ _) => apply writes_only_load
  | |- writes_only (convert _ _) => apply writes_only_convert
  | |- writes_only (with_suffix _ _) => apply writes_only_with_suffix
  | |- writes_only (Image_save _ _ _ _ _) => apply writes_only_Image_save; assumption
  | |- writes_only (piexif_insert_at _ _ _) =>
      apply writes_only_piexif_insert_at; assumption
  | |- writes_only (if ?b then _ else _) => destruct b
  | |- writes_only (match ?x with _ => _ end) => destruct x
  | |- forall _, _ => intro
  end.

Lemma writes_only_jpeg_rgb (img : Image) : writes_only (jpeg_rgb img).
Proof. unfold jpeg_rgb. repeat writes_step. Qed.

Lemma writes_only_preserve_metadata (a b : path) :
  P b -> writes_only (_preserve_metadata lib a b).
Proof. intros Hb. unfold _preserve_metadata. repeat writes_step. Qed.

Lemma writes_only_save_png (self : ImageCompressor) (img : Image) (b : path)
    (md : list (string * meta_value)) :
  P b -> writes_only (_save_png_with_metadata lib self img b md).
Proof. intros Hb. unfold _save_png_with_metadata. repeat writes_step. Qed.

Lemma writes_only_compress_jpeg (self : ImageCompressor) (a b : path) :
  P b -> writes_only (compress_jpeg lib self a b).
Proof.
  intros Hb. unfold compress_jpeg.
  repeat (apply writes_only_preserve_metadata || apply writes_only_jpeg_rgb
          || writes_step); assumption.
Qed.

Lemma writes_only_compress_png (self : ImageCompressor) (a b : path) :
  P b -> writes_only (compress_png lib self a b).
Proof.
  intros Hb. unfold compress_png.
  repeat (apply writes_only_save_png || writes_step); assumption.
Qed.

Lemma writes_only_compress_webp (self : ImageCompressor) (a b : path) :
  P b -> writes_only (compress_webp lib self a b).
Proof.
  intros Hb. unfold compress_webp.
  repeat (apply writes_only_preserve_metadata || writes_step); assumption.
Qed.

Lemma writes_only_redirected (enc : path -> M bool) (b : path) (sfx : string) :
  (forall out, PyPath.with_suffix b sfx = Some out -> writes_only (enc out)) ->
  writes_only (let* out := with_suffix b sfx in
               let* success := enc out in ret (Some success)).
Proof.
  intros H. unfold with_suffix.
  destruct (PyPath.with_suffix b sfx) as [out |].
  - intros w r w' E. unfold bind at 1, ret at 1 in E. revert w r w' E.
    apply writes_only_bind; [now apply H | intros; apply writes_only_ret].
  - intros w r w' E. unfold bind at 1, raise at 1 in E. now injection E as <- <-.
Qed.

Lemma writes_only_dispatch (self : ImageCompressor) (a b : path) (fmt : string) :
  P b ->
  (forall sfx out, In sfx [".jpg"; ".png"; ".webp"] ->
                   PyPath.with_suffix b sfx = Some out -> P out) ->
  writes_only (dispatch lib self a b fmt).
Proof.
  intros Hb Hr. unfold dispatch.
  destruct (PyStr.mem fmt _).
  { apply writes_only_bind;
      [now apply writes_only_compress_jpeg | intros; apply writes_only_ret]. }
  destruct (String.eqb fmt ".png").
  { apply writes_only_bind;
      [now apply writes_only_compress_png | intros; apply writes_only_ret]. }
  destruct (String.eqb fmt ".webp").
  { apply writes_only_bind;
      [now apply writes_only_compress_webp | intros; apply writes_only_ret]. }
  apply writes_only_bind; [apply writes_only_print | intros _].
  apply writes_only_try; [| intros; repeat writes_step].
  apply writes_only_bind; [apply writes_only_Image_open | intros img].
  destruct (String.eqb (img_format img) "JPEG").
  { apply writes_only_redirected. intros out E.
    apply writes_only_compress_jpeg, (Hr ".jpg"); cbn; auto. }
  destruct (String.eqb (img_format img) "PNG").
  { apply writes_only_redirected. intros out E.
    apply writes_only_compress_png, (Hr ".png"); cbn; auto. }
  destruct (String.eqb (img_format img) "WEBP").
  { apply writes_only_redirected. intros out E.
    apply writes_only_compress_webp, (Hr ".webp"); cbn; auto. }
  repeat writes_step.
Qed.

End Footprint.

Section Reach.

Variable lib : Library.
Variable P : path -> Prop.
Variable D : path -> Prop.

(** [c] leaves everything outside [P] as it was, new directories of [D]
    apart. *)
Definition touches {A} (c : M A) : Prop :=
  forall w r w', c w = (r, w') -> outside P D (fs w) (fs w').

Lemma touches_writes_only {A} (c : M A) : writes_only P c -> touches c.
Proof. intros H w r w' E q Hq. left. now apply (H _ _ _ E). Qed.

Lemma touches_bind {A B} (m : M A) (k : A -> M B) :
  touches m -> (forall a, touches (k a)) -> touches (bind m k).
Proof.
  intros Hm Hk w r w'. unfold bind.
  destruct (m w) as [[a | e] w1] eqn:E.
  - intros Hka. eapply outside_trans; [apply (Hm _ _ _ E) | apply (Hk _ _ _ _ Hka)].
  - intros [= <- <-]. apply (Hm _ _ _ E).
Qed.

Lemma touches_mkdir_parents (p : path) :
  (forall q, In q (PyPath.prefixes p) -> P q \/ D q) ->
  touches (mkdir_parents p).
Proof.
  intros Hp w r w'. unfold mkdir_parents, FS.mkdir_p.
  destruct (FS.mkdir_chain _ _) as [m | e] eqn:E; intros [= <- <-];
    [| apply outside_refl].
  intros q Hq. cbn [fs].
  destruct (mkdir_chain_lookup _ _ _ E q) as [-> | (Hn & Hd & Hin)]; [now left |].
  right. destruct (Hp q Hin) as [HP | HD]; [contradiction | auto].
Qed.

Lemma touches_compress_to (self : ImageCompressor) (a b : path)
    (fmt : option string) :
  P b ->
  (forall sfx out, In sfx [".jpg"; ".png"; ".webp"] ->
                   PyPath.with_suffix b sfx = Some out -> P out) ->
  (forall q, In q (PyPath.prefixes (PyPath.parent b)) -> P q \/ D q) ->
  touches (compress_to lib self a b fmt).
Proof.
  intros Hb Hr Hd. unfold compress_to.
  apply touches_bind; [now apply touches_mkdir_parents | intros _].
  apply touches_writes_only.
  apply writes_only_bind; [now apply writes_only_dispatch | intros [[|] |]].
  - apply writes_only_bind; [apply writes_only_path_size | intros o].
    apply writes_only_bind; [apply writes_only_path_size | intros c].
    apply writes_only_bind.
    + unfold compression_ratio. destruct (o =? 0)%N;
        [apply writes_only_raise | apply writes_only_ret].
    + intros ratio. apply writes_only_bind;
        [apply writes_only_print | intros; apply writes_only_ret].
  - apply writes_only_bind; [apply writes_only_print | intros; apply writes_only_ret].
  - apply writes_only_ret.
Qed.

Lemma touches_compress_image (self : ImageCompressor) (a : path)
    (b : option path) (fmt : option string) (overwrite : bool) :
  let out := resolve_output a b in
  P out ->
  (forall sfx o, In sfx [".jpg"; ".png"; ".webp"] ->
                 PyPath.with_suffix out sfx = Some o -> P o) ->
  (forall q, In q (PyPath.prefixes (PyPath.parent out)) -> P q \/ D q) ->
  touches (compress_image lib self a b fmt overwrite).
Proof.
  intros out Hb Hr Hd. unfold compress_image. fold out.
  apply touches_bind;
    [apply touches_writes_only, (writes_only_still _ (fun w => Ok _)) | intros ex].
  destruct (negb ex).
  { apply touches_writes_only.
    apply writes_only_bind; [apply writes_only_print | intros; apply writes_only_ret]. }
  apply touches_bind;
    [apply touches_writes_only, (writes_only_still _ (fun w => Ok _)) | intros oe].
  destruct (oe && negb overwrite)%bool; [| now apply touches_compress_to].
  apply touches_bind; [apply touches_writes_only, writes_only_print | intros _].
  apply touches_bind; [apply touches_writes_only, writes_only_print | intros _].
  apply touches_bind; [apply touches_writes_only, writes_only_input | intros line].
  destruct (negb _); [| now apply touches_compress_to].
  apply touches_writes_only.
  apply writes_only_bind; [apply writes_only_print | intros; apply writes_only_ret].
Qed.

End Reach.

(** ** The default output path *)

Lemma rfind_dot_ext (s t : string) :
  PyStr.rfind_dot t = None ->
  PyStr.rfind_dot (s +:+ String "."%char t) = Some (String.length s).
Proof.
  intros Ht. induction s as [| c s IH].
  - change ("" +:+ String "."%char t) with (String "."%char t).
    cbn [PyStr.rfind_dot]. now rewrite Ht.
  - rewrite append_cons. cbn [PyStr.rfind_dot String.length]. now rewrite IH.
Qed.

Lemma drop_append (s t : string) : PyStr.drop (String.length s) (s +:+ t) = t.
Proof.
  induction s as [| c s IH]; [destruct t; reflexivity |].
  rewrite append_cons. cbn [String.length PyStr.drop]. exact IH.
Qed.

Lemma take_append (s t : string) : PyStr.take (String.length s) (s +:+ t) = s.
Proof.
  induction s as [| c s IH]; [destruct t; reflexivity |].
  rewrite append_cons. cbn [String.length PyStr.take]. now rewrite IH.
Qed.

(** The suffix of a name made of a non-empty stem, a dot and a non-empty
    extension without dots *)
Lemma suffix_ext (d : path) (s t : string) :
  s <> "" -> t <> "" -> PyStr.rfind_dot t = None ->
  PyPath.suffix (d ++ [s +:+ String "."%char t]) = String "."%char t.
Proof.
  intros Hs Ht Hd. unfold PyPath.suffix. rewrite name_app_last, (rfind_dot_ext _ _ Hd).
  rewrite length_append. cbn [String.length].
  assert (H1 : (0 <? String.length s)%nat = true).
  { apply Nat.ltb_lt. destruct s; [congruence | cbn; lia]. }
  assert (H2 : (String.length s <? String.length s + S (String.length t) - 1)%nat = true).
  { apply Nat.ltb_lt. destruct t; [congruence | cbn; lia]. }
  rewrite H1, H2. apply drop_append.
Qed.

Lemma with_suffix_ext (d : path) (s t sfx : string) :
  s <> "" -> t <> "" -> PyStr.rfind_dot t = None ->
  PyPath.with_suffix (d ++ [s +:+ String "."%char t]) sfx = Some (d ++ [s +:+ sfx]).
Proof.
  intros Hs Ht Hd. unfold PyPath.with_suffix.
  rewrite (suffix_ext _ _ _ Hs Ht Hd), name_app_last, parent_app_last.
  destruct (String.eqb_spec (s +:+ String "."%char t) "") as [E | _].
  { destruct s; [congruence | discriminate E]. }
  rewrite length_append.
  replace (String.length s + String.length (String "."%char t)
           - String.length (String "."%char t))%nat with (String.length s) by lia.
  now rewrite take_append.
Qed.

Lemma resolve_output_default (d : path) (n : string) :
  resolve_output (d ++ [n]) None = d ++ ["compressed_" +:+ n].
Proof.
  unfold resolve_output, PyPath.join. now rewrite parent_app_last, name_app_last.
Qed.

Lemma known_target (sfx : string) :
  In sfx [".jpg"; ".png"; ".webp"] ->
  exists t, sfx = String "."%char t /\ t <> "" /\ PyStr.rfind_dot t = None.
Proof.
  cbn. intros [<- | [<- | [<- | []]]]; eexists; (split; [reflexivity |]);
    split; (discriminate || reflexivity).
Qed.

(** The default output path of line 291 is never the input path, and
    neither is what the probe of the header makes of it. *)
Lemma default_output_differs (a : path) :
  resolve_output a None <> a
  /\ forall sfx, In sfx [".jpg"; ".png"; ".webp"] ->
       PyPath.with_suffix (resolve_output a None) sfx <> Some a.
Proof.
  destruct a as [| n d _] using rev_ind.
  { split; [discriminate |]. intros sfx Hs. unfold PyPath.with_suffix.
    destruct (String.eqb _ _); [discriminate |]. intros E. injection E as E.
    discriminate E. }
  rewrite resolve_output_default. split.
  - intros E. apply app_inj_tail in E as [_ E].
    apply (f_equal String.length) in E. rewrite length_append in E. cbn in E. lia.
  - intros sfx Hs E0. destruct (known_target sfx Hs) as (t & -> & Ht & Hd).
    pose proof E0 as E.
    unfold PyPath.with_suffix in E. rewrite name_app_last, parent_app_last in E.
    destruct (String.eqb _ ""); [discriminate |]. injection E as E.
    unfold PyPath.join in E. apply app_inj_tail in E as [_ E].
    set (stem := PyStr.take _ _) in E. clearbody stem. subst n.
    rewrite <- append_assoc in E0.
    rewrite with_suffix_ext in E0; [| discriminate | exact Ht | exact Hd].
    injection E0 as E0. apply app_inj_tail in E0 as [_ E0].
    apply (f_equal String.length) in E0. rewrite !length_append in E0. cbn in E0. lia.
Qed.

Lemma compress_image_reach (lib : Library) (self : ImageCompressor) (a : path)
    (b : option path) (fmt : option string) (overwrite : bool) :
  let out := resolve_output a b in
  touches (job_targets out) (fun q => In q (PyPath.prefixes (PyPath.parent out)))
    (compress_image lib self a b fmt overwrite).
Proof.
  intros out. apply touches_compress_image.
  - now left.
  - intros sfx o Hs Ho. right. now exists sfx.
  - intros q Hq. now right.
Qed.

(** X11: whatever a job does and however it ends, it changes the file
    system in two places only: at its output path, or at that path with
    its suffix replaced by [.jpg], [.png] or [.webp] (where the probe of
    the header may redirect it), and by creating the missing ancestor
    directories of the output path.  Every other path holds after the job
    what it held before. *)
Theorem X11_compress_image_footprint (lib : Library) (self : ImageCompressor)
    (a : path) (b : option path) (fmt : option string) (overwrite : bool)
    (w : World) (r : result bool) (w' : World)
    (Hrun : compress_image lib self a b fmt overwrite w = (r, w')) :
  let out := resolve_output a b in
  forall q,
    q <> out ->
    (forall sfx, In sfx [".jpg"; ".png"; ".webp"] ->
                 PyPath.with_suffix out sfx <> Some q) ->
    fs w' !! q = fs w !! q
    \/ (fs w !! q = None /\ fs w' !! q = Some NDir
        /\ In q (PyPath.prefixes (PyPath.parent out))).
Proof.
  intros out q Hq Hs.
  apply (compress_image_reach lib self a b fmt overwrite w r w' Hrun).
  intros [E | (sfx & Hin & E)]; [now apply Hq | now apply (Hs sfx)].
Qed.

Lemma X11_compress_image_footprint_witness :
  let job := compress_image Demo.lib Demo.compressor ["a.png"] (Some ["new.png"])
               None false Demo.asked_world in
  fs (snd job) !! ["out.png"] = fs Demo.asked_world !! ["out.png"]
  \/ (fs Demo.asked_world !! ["out.png"] = None
      /\ fs (snd job) !! ["out.png"] = Some NDir
      /\ In ["out.png"] (PyPath.prefixes (PyPath.parent ["new.png"]))).
Proof.
  cbv zeta.
  apply (X11_compress_image_footprint Demo.lib Demo.compressor ["a.png"]
           (Some ["new.png"]) None false Demo.asked_world
           (fst (compress_image Demo.lib Demo.compressor ["a.png"] (Some ["new.png"])
                   None false Demo.asked_world))).
  - apply surjective_pairing.
  - discriminate.
  - intros sfx Hs. cbn in Hs.
    destruct Hs as [<- | [<- | [<- | []]]]; vm_compute; discriminate.
Defined.

(** X12: without an output path the job writes to [compressed_<name>]
    beside the input, which is never the input path itself, and nothing
    the job does touches the input file: it is after the job what it was
    before, whether the job succeeds, fails or raises. *)
Theorem X12_default_output_spares_the_input (lib : Library)
    (self : ImageCompressor) (a : path) (fmt : option string) (overwrite : bool)
    (w : World) (r : result bool) (w' : World)
    (Hrun : compress_image lib self a None fmt overwrite w = (r, w')) :
  resolve_output a None <> a /\ fs w' !! a = fs w !! a.
Proof.
  destruct (default_output_differs a) as [Hne Hs].
  split; [exact Hne |].
  assert (Hnt : ~ job_targets (resolve_output a None) a).
  { intros [E | (sfx & Hin & E)]; [congruence | now apply (Hs sfx)]. }
  destruct (compress_image_reach lib self a None fmt overwrite w r w' Hrun a Hnt)
    as [E | (_ & _ & Hin)]; [exact E |].
  exfalso. destruct (proj1 (prefixes_spec _ _) Hin) as (Hnil & _).
  apply prefixes_length in Hin. revert Hin.
  destruct a as [| n d _] using rev_ind; [congruence |].
  rewrite resolve_output_default, !parent_app_last, length_app. cbn. lia.
Qed.

Lemma X12_default_output_spares_the_input_witness :
  let job := compress_image Demo.lib Demo.compressor ["a.png"] None None false
               Demo.asked_world in
  resolve_output ["a.png"] None <> ["a.png"]
  /\ fs (snd job) !! ["a.png"] = fs Demo.asked_world !! ["a.png"].
Proof.
  cbv zeta.
  apply (X12_default_output_spares_the_input Demo.lib Demo.compressor ["a.png"]
           None false Demo.asked_world
           (fst (compress_image Demo.lib Demo.compressor ["a.png"] None None false
                   Demo.asked_world))).
  apply surjective_pairing.
Defined.

(** ** Where a batch writes *)

Lemma prefixes_at_or_above (d rel q : path) :
  In q (PyPath.prefixes (d ++ rel)) -> at_or_below d q \/ ancestor_of d q.
Proof.
  intros H. apply prefixes_spec in H as (_ & rest & E).
  apply app_eq_app in E as (l & [(-> & _) | (-> & _)]).
  - right. now exists l.
  - left. now exists l.
Qed.

Lemma parent_below (d rel : path) :
  rel <> [] -> PyPath.parent (d ++ rel) = d ++ PyPath.parent rel.
Proof. intros H. unfold PyPath.parent. now apply removelast_app. Qed.

Lemma with_suffix_below (d rel o : path) (sfx : string) :
  rel <> [] -> PyPath.with_suffix (d ++ rel) sfx = Some o -> at_or_below d o.
Proof.
  intros Hrel. unfold PyPath.with_suffix. destruct (String.eqb _ _); [discriminate |].
  intros [= <-]. unfold PyPath.join. rewrite (parent_below _ _ Hrel), <- app_assoc.
  now eexists.
Qed.

Section BatchReach.

Variable lib : Library.
Variable self : ImageCompressor.
Variable input_dir : path.
Variable output_dir : path.
Variable recursive : bool.
Variable format : option string.
Variable overwrite : bool.

Lemma touches_job_below (image_file rel : path) (acc : tally) :
  rel <> [] ->
  let output_file := output_dir ++ rel in
  touches (at_or_below output_dir) (ancestor_of output_dir)
    (mkdir_parents (PyPath.parent output_file) >>
     let* ok := compress_image lib self image_file (Some output_file) format overwrite in
     if ok then
       let* o := path_size image_file in
       let* c := path_size output_file in
       ret (mkTally (success_count acc + 1) (total_original_size acc + o)
              (total_compressed_size acc + c))
     else ret acc).
Proof.
  intros Hrel output_file.
  assert (Hpre : forall q, In q (PyPath.prefixes (PyPath.parent output_file)) ->
                           at_or_below output_dir q \/ ancestor_of output_dir q).
  { intros q Hq. unfold output_file in Hq. rewrite (parent_below _ _ Hrel) in Hq.
    now apply prefixes_at_or_above in Hq. }
  apply touches_bind; [now apply touches_mkdir_parents | intros _].
  apply touches_bind.
  - apply touches_compress_image; cbn [resolve_output].
    + now exists rel.
    + intros sfx o _ Ho. now apply with_suffix_below in Ho.
    + exact Hpre.
  - intros [|]; apply touches_writes_only.
    + apply writes_only_bind; [apply writes_only_path_size | intros o].
      apply writes_only_bind; [apply writes_only_path_size | intros c].
      apply writes_only_ret.
    + apply writes_only_ret.
Qed.

Lemma touches_batch_step (n i : nat) (image_file : path) (acc : tally) :
  PyPath.strip_prefix input_dir image_file <> Some [] ->
  touches (at_or_below output_dir) (ancestor_of output_dir)
    (batch_step lib self input_dir output_dir recursive format overwrite
       n i image_file acc).
Proof.
  intros Hf w r w' E. unfold batch_step in E.
  unfold bind at 1 in E. rewrite print_eq in E.
  unfold bind at 1, output_file_of in E.
  assert (Hs : fs (say (MsgProcessing (i + 1) n (PyPath.name image_file)) w) = fs w)
    by reflexivity.
  rewrite <- Hs. clear Hs.
  set (w0 := say _ w) in *. clearbody w0.
  destruct recursive.
  - destruct (PyPath.strip_prefix input_dir image_file) as [rel |] eqn:Es.
    + unfold bind at 1, ret at 1 in E. unfold bind at 1, ret at 1 in E.
      assert (Hrel : rel <> []) by congruence.
      exact (touches_job_below image_file rel acc Hrel _ _ _ E).
    + unfold bind at 1, raise at 1 in E. injection E as <- <-. apply outside_refl.
  - unfold bind at 1, ret at 1 in E. unfold bind at 1, ret at 1 in E.
    assert (Hrel : [PyPath.name image_file] <> []) by discriminate.
    exact (touches_job_below image_file _ acc Hrel _ _ _ E).
Qed.

Lemma touches_batch_loop (n : nat) (files : list path) :
  Forall (fun f => PyPath.strip_prefix input_dir f <> Some []) files ->
  forall i acc,
    touches (at_or_below output_dir) (ancestor_of output_dir)
      (batch_loop lib self input_dir output_dir recursive format overwrite
         n i files acc).
Proof.
  induction 1 as [| f rest Hf _ IH]; intros i acc; cbn [batch_loop].
  - apply touches_writes_only, writes_only_ret.
  - apply touches_bind; [now apply touches_batch_step | intros acc'; apply IH].
Qed.

Lemma touches_batch_report (n : nat) (acc : tally) :
  touches (at_or_below output_dir) (ancestor_of output_dir) (batch_report n acc).
Proof.
  apply touches_writes_only. unfold batch_report.
  apply writes_only_bind; [apply writes_only_print | intros _].
  apply writes_only_bind; [apply writes_only_print | intros _].
  destruct (_ <? _)%nat; [| apply writes_only_ret].
  apply writes_only_bind.
  - unfold compression_ratio. destruct (_ =? 0)%N;
      [apply writes_only_raise | apply writes_only_ret].
  - intros q. apply writes_only_bind; [apply writes_only_print | intros _].
    apply writes_only_print.
Qed.

Lemma touches_batch_compress :
  touches (at_or_below output_dir) (ancestor_of output_dir)
    (batch_compress lib self input_dir (Some output_dir) recursive format
       overwrite).
Proof.
  unfold batch_compress.
  apply touches_bind;
    [apply touches_writes_only, (writes_only_still _ (fun w => Ok _)) | intros ex].
  apply touches_bind;
    [apply touches_writes_only, (writes_only_still _ (fun w => Ok _)) | intros isd].
  destruct (_ || _)%bool; [apply touches_writes_only, writes_only_print |].
  apply touches_bind.
  { apply touches_mkdir_parents. intros q Hq.
    apply prefixes_spec in Hq as (_ & rest & E). right. now exists rest. }
  intros _ w r w' E. unfold bind at 1 in E.
  assert (HF : Forall (fun f => PyPath.strip_prefix input_dir f <> Some [])
                 (image_files (fs w) input_dir recursive)).
  { apply List.Forall_forall. intros f Hf.
    apply image_files_spec in Hf as (rel & x & -> & Hrel & _).
    rewrite strip_prefix_app. intros [= ->].
    destruct recursive; [congruence | destruct Hrel as [? [=]]]. }
  destruct (image_files (fs w) input_dir recursive) as [| f files].
  { rewrite print_eq in E. injection E as <- <-. apply outside_refl. }
  revert E. generalize (f :: files) HF. intros fl Hfl. revert w r w'.
  apply touches_bind; [apply touches_writes_only, writes_only_print | intros _].
  apply touches_bind; [apply touches_writes_only, writes_only_print | intros _].
  apply touches_bind; [now apply touches_batch_loop | intros acc].
  apply touches_batch_report.
Qed.

End BatchReach.

(** X19: a batch changes nothing outside its output directory.  Whatever
    the batch does and however it ends, a path that is neither the output
    directory nor below it holds afterwards what it held before; the one
    exception is an ancestor of the output directory that did not exist,
    which the batch creates as a directory.  In particular no input file
    outside the output directory is modified, moved or removed. *)
Theorem X19_batch_footprint (lib : Library) (self : ImageCompressor)
    (input_dir output_dir : path) (recursive : bool) (format : option string)
    (overwrite : bool) (w : World) (r : result unit) (w' : World)
    (Hrun : batch_compress lib self input_dir (Some output_dir) recursive format
              overwrite w = (r, w')) :
  forall q,
    (forall rel, q <> output_dir ++ rel) ->
    fs w' !! q = fs w !! q
    \/ (fs w !! q = None /\ fs w' !! q = Some NDir
        /\ exists rest, output_dir = q ++ rest).
Proof.
  intros q Hq.
  apply (touches_batch_compress lib self input_dir output_dir recursive format
           overwrite w r w' Hrun).
  intros (rel & E). now apply (Hq rel).
Qed.

Lemma X19_batch_footprint_witness :
  let run := batch_compress Demo.lib Demo.compressor ["in"] (Some ["out"]) false
               None false Demo.flat_world in
  fs (snd run) !! ["in"; "a.png"] = fs Demo.flat_world !! ["in"; "a.png"]
  \/ (fs Demo.flat_world !! ["in"; "a.png"] = None
      /\ fs (snd run) !! ["in"; "a.png"] = Some NDir
      /\ exists rest, ["out"] = ["in"; "a.png"] ++ rest).
Proof.
  cbv zeta.
  apply (X19_batch_footprint Demo.lib Demo.compressor ["in"] ["out"] false None
           false Demo.flat_world
           (fst (batch_compress Demo.lib Demo.compressor ["in"] (Some ["out"]) false
                   None false Demo.flat_world))).
  - apply surjective_pairing.
  - intros rel. discriminate.
Defined.

(** ** What the encoders hand to Pillow *)

Lemma get_set {V} (k k' : string) (v : V) (d : list (string * V)) :
  PyDict.get k (PyDict.set k' v d) = if String.eqb k k' then Some v else PyDict.get k d.
Proof.
  induction d as [| [k1 v1] d IH]; cbn [PyDict.set PyDict.get].
  - reflexivity.
  - destruct (String.eqb_spec k' k1) as [-> | Hne]; cbn [PyDict.get].
    + destruct (String.eqb k k1); reflexivity.
    + destruct (String.eqb_spec k k1) as [-> | Hne'].
      * destruct (String.eqb_spec k1 k'); [congruence | reflexivity].
      * exact IH.
Qed.

Lemma get_not_in {V} (k : string) (d : list (string * V)) :
  ~ In k (map fst d) -> PyDict.get k d = None.
Proof.
  induction d as [| [k1 v1] d IH]; cbn; [reflexivity |].
  intros H. destruct (String.eqb_spec k k1) as [-> | _]; [tauto | apply IH; tauto].
Qed.

(** [d.update(u)] followed by a lookup: the entry of [u] when it has one,
    else that of [d] *)
Lemma get_update {V} (k : string) (d u : list (string * V)) :
  List.NoDup (map fst u) ->
  PyDict.get k (PyDict.update d u)
  = match PyDict.get k u with Some v => Some v | None => PyDict.get k d end.
Proof.
  unfold PyDict.update. revert d.
  induction u as [| [k1 v1] u IH]; intros d Hnd; cbn [fold_left PyDict.get fst snd].
  - reflexivity.
  - cbn in Hnd. apply List.NoDup_cons_iff in Hnd as [Hk Hnd].
    rewrite (IH _ Hnd), get_set.
    destruct (String.eqb_spec k k1) as [-> | _]; [| reflexivity].
    now rewrite (get_not_in _ _ Hk).
Qed.

Lemma get_map_values {V W} (g : V -> W) (k : string) (d : list (string * V)) :
  PyDict.get k (map (fun kv => (fst kv, g (snd kv))) d) = option_map g (PyDict.get k d).
Proof.
  induction d as [| [k1 v1] d IH]; cbn; [reflexivity |].
  destruct (String.eqb k k1); [reflexivity | exact IH].
Qed.

Lemma load_ok_inv (img : Image) (w w' : World) :
  load img w = (Ok tt, w') -> w' = w /\ img_loads img = true.
Proof. unfold load. destruct (img_loads img); [now intros [= <-] | discriminate]. Qed.

Lemma convert_ok_inv (img img' : Image) (mode : string) (w w' : World) :
  convert img mode w = (Ok img', w') ->
  w' = w /\ img_loads img = true /\ img' = mkImage "" mode (img_info img) true.
Proof.
  unfold convert. intros E. apply bind_ok_inv in E as ([] & w1 & El & E).
  apply load_ok_inv in El as [-> Hl]. now injection E as <- <-.
Qed.

Lemma Image_save_inv (lib : Library) (img : Image) (p : path) (fmt : string)
    (kw : list (string * kwarg)) (w w' : World) :
  Image_save lib img p fmt kw w = (Ok tt, w') ->
  img_loads img = true /\ FS.open_w (fs w) p = None
  /\ exists f, pil_encode lib img fmt kw = Encoded f
               /\ w' = set_fs (<[p := NFile f]> (fs w)) w.
Proof.
  unfold Image_save. intros E. apply bind_ok_inv in E as ([] & w1 & El & E).
  apply load_ok_inv in El as [-> Hl].
  destruct (FS.open_w (fs w) p); [discriminate |].
  destruct (pil_encode lib img fmt kw) as [f | f]; [| discriminate].
  injection E as <-. repeat split; [exact Hl |]. now exists f.
Qed.

Lemma jpeg_rgb_inv (img img' : Image) (w w' : World) :
  jpeg_rgb img w = (Ok img', w') ->
  w' = w /\ img_mode img' = "RGB" /\ (img_loads img' = true -> img_loads img = true).
Proof.
  unfold jpeg_rgb. destruct (PyStr.mem _ _).
  - intros E. apply bind_ok_inv in E as (img1 & w1 & E1 & E).
    apply bind_ok_inv in E as ([] & w2 & E2 & E). injection E as <- <-.
    apply load_ok_inv in E2 as [-> Hl].
    destruct (String.eqb _ _).
    + apply convert_ok_inv in E1 as (-> & H & _). auto.
    + injection E1 as <- <-. auto.
  - destruct (String.eqb_spec (img_mode img) "RGB") as [Hm | Hm]; cbn [negb].
    + intros [= <- <-]. auto.
    + intros E. apply convert_ok_inv in E as (-> & H & ->). auto.
Qed.

(** The outcomes of [_preserve_metadata]: it returns, and either leaves the
    file system as it is or has piexif rewrite the regular file at the
    output path with the EXIF block of the image at the original path. *)
Lemma preserve_metadata_cases (lib : Library) (a b : path) (w : World) :
  exists w',
    _preserve_metadata lib a b w = (Ok tt, w')
    /\ stdin w' = stdin w
    /\ ((fs w' = fs w
         /\ (w' = w \/ w' = say MsgMetadataFailed w \/ w' = say MsgExifWriteFailed w))
        \/ exists img e f0 f1,
             Image_open a w = (Ok img, w)
             /\ PyDict.get "exif" (img_info img) = Some e
             /\ FS.stat (fs w) b = Some (NFile f0)
             /\ piexif_insert lib e f0 = Some f1
             /\ w' = say MsgExifKept (set_fs (<[b := NFile f1]> (fs w)) w)).
Proof.
  unfold _preserve_metadata, try_except, bind at 1.
  destruct (Image_open a w) as [[img | e] w1] eqn:Eo.
  - apply Image_open_ok_inv in Eo as Ho. destruct Ho as (-> & _).
    destruct (PyDict.get "exif" (img_info img)) as [e |] eqn:Ee.
    + unfold bind at 1, piexif_insert_at.
      destruct (FS.stat (fs w) b) as [[f0 |] |] eqn:Es.
      * destruct (piexif_insert lib e f0) as [f1 |] eqn:Ep.
        -- eexists. split; [reflexivity |]. split; [reflexivity |].
           right. now exists img, e, f0, f1.
        -- eexists. split; [reflexivity |]. split; [reflexivity |]. left. auto.
      * eexists. split; [reflexivity |]. split; [reflexivity |]. left. auto.
      * eexists. split; [reflexivity |]. split; [reflexivity |]. left. auto.
    + eexists. split; [reflexivity |]. split; [reflexivity |]. left. auto.
  - assert (He : is_Exception e = true /\ w1 = w).
    { revert Eo. unfold Image_open.
      destruct (FS.stat (fs w) a) as [[f |] |]; [destruct (decoded f) |..];
        intros [= <- <-]; auto. }
    destruct He as [-> ->].
    eexists. split; [reflexivity |]. split; [reflexivity |]. left. auto.
Qed.

Lemma stat_file_lookup (m : gmap path node) (p : path) (f : file) :
  FS.stat m p = Some (NFile f) -> m !! p = Some (NFile f).
Proof. destruct p; [discriminate | exact id]. Qed.

Lemma open_w_nonroot (m : gmap path node) (p : path) : FS.open_w m p = None -> p <> [].
Proof. intros H ->. discriminate H. Qed.

(** After a successful [save] at [b], [_preserve_metadata] leaves at [b]
    the file saved, or that file with an EXIF block. *)
Lemma preserved_after_save (lib : Library) (a b : path) (f0 : file)
    (w : World) (w' : World) :
  b <> [] ->
  _preserve_metadata lib a b (set_fs (<[b := NFile f0]> (fs w)) w) = (Ok tt, w') ->
  exists f1, exif_added lib f0 f1
             /\ fs w' = <[b := NFile f1]> (fs w) /\ stdin w' = stdin w.
Proof.
  intros Hb E.
  destruct (preserve_metadata_cases lib a b (set_fs (<[b := NFile f0]> (fs w)) w))
    as (w2 & E2 & Hin & Hc).
  rewrite E in E2. injection E2 as <-.
  destruct Hc as [(Hfs & _) | (img & e & f & f1 & _ & _ & Hs & Hp & ->)].
  - exists f0. split; [now left |]. now split.
  - apply stat_file_lookup in Hs. cbn [fs set_fs] in Hs.
    rewrite lookup_insert_eq in Hs. injection Hs as <-.
    exists f1. split; [right; now exists e |].
    cbn [fs set_fs say stdin]. now rewrite insert_insert_eq.
Qed.

Lemma webp_kwargs_lookup (self : ImageCompressor) (info : list (string * meta_value))
    (k : string) :
  PyDict.get k
    (fold_left
       (fun kw key =>
          match PyDict.get key info with
          | Some v => PyDict.set key (KMeta v) kw
          | None => kw
          end)
       ["exif"; "iptc"; "xmp"; "icc_profile"]
       [("quality", KInt (quality self)); ("method", KInt 6);
        ("lossless", KBool false)])
  = if PyStr.mem k ["exif"; "iptc"; "xmp"; "icc_profile"]
    then option_map KMeta (PyDict.get k info)
    else PyDict.get k (webp_settings self).
Proof.
  cbn [fold_left]. unfold PyStr.mem. cbn [existsb].
  destruct (String.eqb_spec k "exif") as [-> | H1];
    [| destruct (String.eqb_spec k "iptc") as [-> | H2];
       [| destruct (String.eqb_spec k "xmp") as [-> | H3];
          [| destruct (String.eqb_spec k "icc_profile") as [-> | H4]]]];
    cbn [orb];
    destruct (PyDict.get "exif" info), (PyDict.get "iptc" info),
      (PyDict.get "xmp" info), (PyDict.get "icc_profile" info);
    rewrite ?get_set;
    repeat match goal with
           | |- context [String.eqb ?x ?y] =>
               destruct (String.eqb_spec x y); try congruence; try discriminate
           end;
    reflexivity.
Qed.

(** A successful encoder run leaves at its output path a file made by
    Pillow's encoder for its format. *)
Lemma compress_jpeg_written (lib : Library) (self : ImageCompressor)
    (a b : path) (w w' : World) :
  compress_jpeg lib self a b w = (Ok true, w') ->
  b <> [] /\ exists f1, encoded_as lib "JPEG" f1 /\ fs w' = <[b := NFile f1]> (fs w).
Proof.
  intros Hrun. unfold compress_jpeg in Hrun. apply try_ok_true_inv in Hrun.
  apply bind_ok_inv in Hrun as (img & w1 & Eo & E).
  apply Image_open_ok_inv in Eo as (-> & _).
  cbv zeta in E. apply bind_ok_inv in E as (img' & w2 & Ec & E).
  apply jpeg_rgb_inv in Ec as (-> & _).
  apply bind_ok_inv in E as ([] & w3 & Es & E).
  apply Image_save_inv in Es as (_ & Ho & f0 & He & ->).
  apply bind_ok_inv in E as ([] & w4 & Ep & E). injection E as <-.
  apply open_w_nonroot in Ho. split; [exact Ho |].
  apply preserved_after_save in Ep as (f1 & Hx & Hfs & _); [| exact Ho].
  exists f1. split; [| exact Hfs]. eexists _, _, f0. split; [exact He | exact Hx].
Qed.

Lemma compress_png_written (lib : Library) (self : ImageCompressor)
    (a b : path) (w w' : World) :
  compress_png lib self a b w = (Ok true, w') ->
  b <> [] /\ exists f1, encoded_as lib "PNG" f1 /\ fs w' = <[b := NFile f1]> (fs w).
Proof.
  intros Hrun. unfold compress_png in Hrun. apply try_ok_true_inv in Hrun.
  apply bind_ok_inv in Hrun as (img & w1 & Eo & E).
  apply Image_open_ok_inv in Eo as (-> & _).
  cbv zeta in E. apply bind_ok_inv in E as (img' & w2 & Ec & E).
  assert (w2 = w) as ->.
  { destruct (String.eqb _ _); [| now injection Ec].
    now apply convert_ok_inv in Ec as (-> & _). }
  apply bind_ok_inv in E as (s & w3 & Es & E). injection E as -> <-.
  unfold _save_png_with_metadata in Es.
  apply (try_ok_true_inv _ (fun _ => MsgPngSaveFailed)) in Es.
  apply bind_ok_inv in Es as ([] & w4 & Es & E). injection E as <-.
  apply Image_save_inv in Es as (_ & Ho & f0 & He & ->).
  apply open_w_nonroot in Ho. split; [exact Ho |].
  exists f0. split; [| reflexivity]. eexists _, _, f0. split; [exact He | now left].
Qed.

Lemma compress_webp_written (lib : Library) (self : ImageCompressor)
    (a b : path) (w w' : World) :
  compress_webp lib self a b w = (Ok true, w') ->
  b <> [] /\ exists f1, encoded_as lib "WEBP" f1 /\ fs w' = <[b := NFile f1]> (fs w).
Proof.
  intros Hrun. unfold compress_webp in Hrun. apply try_ok_true_inv in Hrun.
  apply bind_ok_inv in Hrun as (img & w1 & Eo & E).
  apply Image_open_ok_inv in Eo as (-> & _).
  cbv zeta in E. apply bind_ok_inv in E as ([] & w2 & Es & E).
  apply bind_ok_inv in E as ([] & w4 & Ep & E). injection E as <-.
  assert (Hsave : exists img' kw, Image_save lib img' b "WEBP" kw w = (Ok tt, w2)).
  { destruct (PyStr.mem (img_mode img) _).
    - apply bind_ok_inv in Es as (img' & w3 & Ec & Es).
      assert (w3 = w) as ->.
      { destruct (String.eqb _ _); [| now injection Ec].
        now apply convert_ok_inv in Ec as (-> & _). }
      eauto.
    - apply bind_ok_inv in Es as (img' & w3 & Ec & Es).
      apply convert_ok_inv in Ec as (-> & _). eauto. }
  destruct Hsave as (img' & kw & Esave).
  apply Image_save_inv in Esave as (_ & Ho & f0 & He & ->).
  apply open_w_nonroot in Ho. split; [exact Ho |].
  apply preserved_after_save in Ep as (f1 & Hx & Hfs & _); [| exact Ho].
  exists f1. split; [| exact Hfs]. eexists _, _, f0. split; [exact He | exact Hx].
Qed.

(** X6: the three encoder methods are contained: on every input, in every
    state of the file system and whatever Pillow and piexif do, each of
    them returns [True] or [False] and raises nothing, reads nothing from
    standard input, and changes the file system at its output path
    only. *)
Theorem X6_encoders_are_contained (lib : Library) (self : ImageCompressor)
    (a b : path) (w : World) :
  let contained (enc : M bool) :=
    exists s w', enc w = (Ok s, w') /\ stdin w' = stdin w
                 /\ forall q, q <> b -> fs w' !! q = fs w !! q in
  contained (compress_jpeg lib self a b)
  /\ contained (compress_png lib self a b)
  /\ contained (compress_webp lib self a b).
Proof.
  cbv zeta. split; [| split].
  - destruct (compress_jpeg_returns lib self a b w) as (s & w' & E).
    exists s, w'. split; [exact E |]. split.
    + apply (keeps_compress_jpeg lib (fun x => stdin x = stdin w)) in E; auto.
      now apply E.
    + intros q Hq. apply (writes_only_compress_jpeg lib (eq b) self a b eq_refl _ _ _ E).
      congruence.
  - destruct (compress_png_returns lib self a b w) as (s & w' & E).
    exists s, w'. split; [exact E |]. split.
    + apply (keeps_compress_png lib (fun x => stdin x = stdin w)) in E; auto.
      now apply E.
    + intros q Hq. apply (writes_only_compress_png lib (eq b) self a b eq_refl _ _ _ E).
      congruence.
  - destruct (compress_webp_returns lib self a b w) as (s & w' & E).
    exists s, w'. split; [exact E |]. split.
    + apply (keeps_compress_webp lib (fun x => stdin x = stdin w)) in E; auto.
      now apply E.
    + intros q Hq. apply (writes_only_compress_webp lib (eq b) self a b eq_refl _ _ _ E).
      congruence.
Qed.

(** X7: when [compress_jpeg] returns [True], the input was a regular file
    that Pillow decodes and whose pixels load; Pillow's JPEG encoder was
    run on an image in mode RGB; the keyword arguments it got are the
    compressor's quality, optimize and progressive, except that every
    entry of the image's info mapping went in under its own name and took
    the place of a setting of the same name (so an input whose info has
    [progressive] or [quality] overrides the compressor); and the output
    path holds the encoder's file, with an EXIF block added when piexif
    put one in. *)
Theorem X7_compress_jpeg_success (lib : Library) (self : ImageCompressor)
    (a b : path) (w w' : World)
    (Hrun : compress_jpeg lib self a b w = (Ok true, w')) :
  exists f img img' kw f0 f1,
    FS.stat (fs w) a = Some (NFile f) /\ decoded f = Some img
    /\ img_loads img = true
    /\ img_mode img' = "RGB"
    /\ pil_encode lib img' "JPEG" kw = Encoded f0
    /\ (List.NoDup (map fst (img_info img)) ->
        forall k, PyDict.get k kw
                  = match PyDict.get k (img_info img) with
                    | Some v => Some (KMeta v)
                    | None => PyDict.get k (jpeg_settings self)
                    end)
    /\ exif_added lib f0 f1
    /\ fs w' = <[b := NFile f1]> (fs w)
    /\ stdin w' = stdin w
    /\ b <> [].
Proof.
  unfold compress_jpeg in Hrun. apply try_ok_true_inv in Hrun.
  apply bind_ok_inv in Hrun as (img & w1 & Eo & E).
  apply Image_open_ok_inv in Eo as (-> & f & Hs & Hd).
  cbv zeta in E. apply bind_ok_inv in E as (img' & w2 & Ec & E).
  apply jpeg_rgb_inv in Ec as (-> & Hmode & Hl).
  apply bind_ok_inv in E as ([] & w3 & Es & E).
  apply Image_save_inv in Es as (Hl' & Ho & f0 & He & ->).
  apply bind_ok_inv in E as ([] & w4 & Ep & E). injection E as <-.
  apply open_w_nonroot in Ho.
  apply preserved_after_save in Ep as (f1 & Hx & Hfs & Hin); [| exact Ho].
  exists f, img, img'. eexists. exists f0, f1.
  repeat (split; [first [eassumption | now auto] |]).
  split; [| now auto].
  intros Hnd k. unfold _extract_metadata.
  rewrite get_update, get_map_values.
  - destruct (PyDict.get k (img_info img)); reflexivity.
  - rewrite map_map. cbn [fst]. exact Hnd.
Qed.


Lemma X7_compress_jpeg_success_witness :
  let w := Demo.album_world in
  let w' := snd (compress_jpeg Demo.lib Demo.compressor ["album"; "shot.jpg"]
                   ["album"; "small.jpg"] w) in
  exists f img img' kw f0 f1,
    FS.stat (fs w) ["album"; "shot.jpg"] = Some (NFile f) /\ decoded f = Some img
    /\ img_loads img = true
    /\ img_mode img' = "RGB"
    /\ pil_encode Demo.lib img' "JPEG" kw = Encoded f0
    /\ (List.NoDup (map fst (img_info img)) ->
        forall k, PyDict.get k kw
                  = match PyDict.get k (img_info img) with
                    | Some v => Some (KMeta v)
                    | None => PyDict.get k (jpeg_settings Demo.compressor)
                    end)
    /\ exif_added Demo.lib f0 f1
    /\ fs w' = <[ ["album"; "small.jpg"] := NFile f1 ]> (fs w)
    /\ stdin w' = stdin w
    /\ ["album"; "small.jpg"] <> [].
Proof.
  cbv zeta.
  apply (X7_compress_jpeg_success Demo.lib Demo.compressor ["album"; "shot.jpg"]
           ["album"; "small.jpg"] Demo.album_world).
  vm_compute. reflexivity.
Defined.

(** X8: when [compress_png] returns [True], Pillow's PNG encoder was run on
    the input image, converted to RGBA if it had a palette and in its own
    mode otherwise, with every entry of the info mapping as a text chunk
    (bytes decoded as UTF-8, anything else as its [str()]), with the
    compressor's optimize flag and with [compress_level=0]; the output
    path holds the encoder's file, and piexif is not called.  The quality,
    the progressive flag and the preset play no part: two compressors with
    the same optimize flag run the same PNG job. *)
Theorem X8_compress_png_success (lib : Library) (self : ImageCompressor)
    (a b : path) (w : World) :
  (forall w',
      compress_png lib self a b w = (Ok true, w') ->
      exists f img f0,
        FS.stat (fs w) a = Some (NFile f) /\ decoded f = Some img
        /\ img_loads img = true
        /\ pil_encode lib
             (if String.eqb (img_mode img) "P"
              then mkImage "" "RGBA" (img_info img) true else img)
             "PNG"
             [("pnginfo",
               KPngInfo (map (fun kv => (fst kv, png_text lib (snd kv)))
                           (img_info img)));
              ("optimize", KBool (optimize self)); ("compress_level", KInt 0)]
           = Encoded f0
        /\ fs w' = <[b := NFile f0]> (fs w)
        /\ stdin w' = stdin w
        /\ b <> [])
  /\ (forall self',
        optimize self' = optimize self ->
        compress_png lib self' a b w = compress_png lib self a b w).
Proof.
  split.
  - intros w' Hrun. unfold compress_png in Hrun. apply try_ok_true_inv in Hrun.
    apply bind_ok_inv in Hrun as (img & w1 & Eo & E).
    apply Image_open_ok_inv in Eo as (-> & f & Hs & Hd).
    cbv zeta in E. apply bind_ok_inv in E as (img' & w2 & Ec & E).
    apply bind_ok_inv in E as (s & w3 & Es & E). injection E as -> <-.
    unfold _save_png_with_metadata in Es.
    apply (try_ok_true_inv _ (fun _ => MsgPngSaveFailed)) in Es.
    apply bind_ok_inv in Es as ([] & w4 & Es & E). injection E as <-.
    apply Image_save_inv in Es as (Hl' & Ho & f0 & He & ->).
    apply open_w_nonroot in Ho.
    exists f, img, f0. unfold _extract_metadata in He.
    destruct (String.eqb (img_mode img) "P").
    + apply convert_ok_inv in Ec as (-> & Hl & ->). auto 10.
    + injection Ec as <- <-. auto 10.
  - intros self' H. unfold compress_png, _save_png_with_metadata. now rewrite H.
Qed.

Lemma X8_compress_png_success_witness :
  let w := Demo.album_world in
  (exists f img f0,
      FS.stat (fs w) ["album"; "icon.png"] = Some (NFile f) /\ decoded f = Some img
      /\ img_loads img = true
      /\ pil_encode Demo.lib
           (if String.eqb (img_mode img) "P"
            then mkImage "" "RGBA" (img_info img) true else img)
           "PNG"
           [("pnginfo",
             KPngInfo (map (fun kv => (fst kv, png_text Demo.lib (snd kv)))
                         (img_info img)));
            ("optimize", KBool (optimize Demo.compressor)); ("compress_level", KInt 0)]
         = Encoded f0
      /\ fs (snd (compress_png Demo.lib Demo.compressor ["album"; "icon.png"]
                    ["album"; "small.png"] w))
         = <[ ["album"; "small.png"] := NFile f0 ]> (fs w)
      /\ stdin (snd (compress_png Demo.lib Demo.compressor ["album"; "icon.png"]
                       ["album"; "small.png"] w)) = stdin w
      /\ ["album"; "small.png"] <> [])
  /\ compress_png Demo.lib (ImageCompressor_init 40 true false "balanced")
       ["album"; "icon.png"] ["album"; "small.png"] w
     = compress_png Demo.lib Demo.compressor
         ["album"; "icon.png"] ["album"; "small.png"] w.
Proof.
  cbv zeta.
  destruct (X8_compress_png_success Demo.lib Demo.compressor ["album"; "icon.png"]
              ["album"; "small.png"] Demo.album_world) as [H1 H2].
  split; [apply H1; vm_compute; reflexivity | apply H2; reflexivity].
Defined.

(** X9: when [compress_webp] returns [True], Pillow's WEBP encoder was run
    on the input image, converted to RGBA if it had a palette, left as it
    is in mode RGBA or LA and converted to RGB otherwise; the keyword
    arguments it got are the compressor's quality, [method=6] and
    [lossless=False], plus those of [exif], [iptc], [xmp] and
    [icc_profile] that the info mapping has, and no other entry of the
    info mapping; the output path holds the encoder's file, with an EXIF
    block added when piexif put one in.  The optimize and progressive
    flags play no part: two compressors with the same quality run the
    same WebP job. *)
Theorem X9_compress_webp_success (lib : Library) (self : ImageCompressor)
    (a b : path) (w : World) :
  (forall w',
      compress_webp lib self a b w = (Ok true, w') ->
      exists f img img' kw f0 f1,
        FS.stat (fs w) a = Some (NFile f) /\ decoded f = Some img
        /\ img_loads img = true
        /\ img' = (if PyStr.mem (img_mode img) ["RGBA"; "LA"; "P"]
                   then if String.eqb (img_mode img) "P"
                        then mkImage "" "RGBA" (img_info img) true else img
                   else mkImage "" "RGB" (img_info img) true)
        /\ pil_encode lib img' "WEBP" kw = Encoded f0
        /\ (forall k, PyDict.get k kw
                      = if PyStr.mem k ["exif"; "iptc"; "xmp"; "icc_profile"]
                        then option_map KMeta (PyDict.get k (img_info img))
                        else PyDict.get k (webp_settings self))
        /\ exif_added lib f0 f1
        /\ fs w' = <[b := NFile f1]> (fs w)
        /\ stdin w' = stdin w
        /\ b <> [])
  /\ (forall self',
        quality self' = quality self ->
        compress_webp lib self' a b w = compress_webp lib self a b w).
Proof.
  split.
  - intros w' Hrun.
    unfold compress_webp in Hrun. apply try_ok_true_inv in Hrun.
    apply bind_ok_inv in Hrun as (img & w1 & Eo & E).
    apply Image_open_ok_inv in Eo as (-> & f & Hs & Hd).
    cbv zeta in E. apply bind_ok_inv in E as ([] & w2 & Es & E).
    apply bind_ok_inv in E as ([] & w4 & Ep & E). injection E as <-.
    assert (Hsave : exists img',
               img' = (if PyStr.mem (img_mode img) ["RGBA"; "LA"; "P"]
                       then if String.eqb (img_mode img) "P"
                            then mkImage "" "RGBA" (img_info img) true else img
                       else mkImage "" "RGB" (img_info img) true)
               /\ img_loads img = true
               /\ Image_save lib img' b "WEBP"
                    (fold_left
                       (fun kw key =>
                          match PyDict.get key (img_info img) with
                          | Some v => PyDict.set key (KMeta v) kw
                          | None => kw
                          end)
                       ["exif"; "iptc"; "xmp"; "icc_profile"]
                       [("quality", KInt (quality self)); ("method", KInt 6);
                        ("lossless", KBool false)]) w = (Ok tt, w2)).
    { destruct (PyStr.mem (img_mode img) _).
      - apply bind_ok_inv in Es as (img' & w3 & Ec & Es).
        destruct (String.eqb (img_mode img) "P").
        + apply convert_ok_inv in Ec as (-> & Hl & ->). eauto.
        + injection Ec as <- <-. exists img. split; [reflexivity |]. split; [| exact Es].
          now apply Image_save_inv in Es.
      - apply bind_ok_inv in Es as (img' & w3 & Ec & Es).
        apply convert_ok_inv in Ec as (-> & Hl & ->). eauto. }
    destruct Hsave as (img' & Himg & Hl & Esave).
    apply Image_save_inv in Esave as (_ & Ho & f0 & He & ->).
    apply open_w_nonroot in Ho.
    apply preserved_after_save in Ep as (f1 & Hx & Hfs & Hin); [| exact Ho].
    exists f, img, img'. eexists. exists f0, f1.
    repeat (split; [first [eassumption | now auto] |]).
    split; [intros k; apply webp_kwargs_lookup | now auto].
  - intros self' H. unfold compress_webp. now rewrite H.
Qed.

Lemma X9_compress_webp_success_witness :
  let w := Demo.album_world in
  (exists f img img' kw f0 f1,
      FS.stat (fs w) ["album"; "shot.jpg"] = Some (NFile f) /\ decoded f = Some img
      /\ img_loads img = true
      /\ img' = (if PyStr.mem (img_mode img) ["RGBA"; "LA"; "P"]
                 then if String.eqb (img_mode img) "P"
                      then mkImage "" "RGBA" (img_info img) true else img
                 else mkImage "" "RGB" (img_info img) true)
      /\ pil_encode Demo.lib img' "WEBP" kw = Encoded f0
      /\ (forall k, PyDict.get k kw
                    = if PyStr.mem k ["exif"; "iptc"; "xmp"; "icc_profile"]
                      then option_map KMeta (PyDict.get k (img_info img))
                      else PyDict.get k (webp_settings Demo.compressor))
      /\ exif_added Demo.lib f0 f1
      /\ fs (snd (compress_webp Demo.lib Demo.compressor ["album"; "shot.jpg"]
                    ["album"; "small.webp"] w))
         = <[ ["album"; "small.webp"] := NFile f1 ]> (fs w)
      /\ stdin (snd (compress_webp Demo.lib Demo.compressor ["album"; "shot.jpg"]
                       ["album"; "small.webp"] w)) = stdin w
      /\ ["album"; "small.webp"] <> [])
  /\ compress_webp Demo.lib (ImageCompressor_init 85 false false "balanced")
       ["album"; "shot.jpg"] ["album"; "small.webp"] w
     = compress_webp Demo.lib Demo.compressor
         ["album"; "shot.jpg"] ["album"; "small.webp"] w.
Proof.
  cbv zeta.
  destruct (X9_compress_webp_success Demo.lib Demo.compressor ["album"; "shot.jpg"]
              ["album"; "small.webp"] Demo.album_world) as [H1 H2].
  split; [apply H1; vm_compute; reflexivity | apply H2; reflexivity].
Defined.

(** X10: [_preserve_metadata] always returns and raises nothing, reads no
    input and changes no path but the output path.  It leaves the file
    system as it is unless the original opens as an image whose info has
    an [exif] entry, the output path holds a regular file and piexif
    accepts it; then that file is replaced by piexif's rewriting of it and
    one line is printed.  When the original has no [exif] entry nothing is
    written at all. *)
Theorem X10_preserve_metadata_outcomes (lib : Library) (a b : path) (w : World) :
  exists w',
    _preserve_metadata lib a b w = (Ok tt, w')
    /\ stdin w' = stdin w
    /\ (forall q, q <> b -> fs w' !! q = fs w !! q)
    /\ ((forall img, Image_open a w = (Ok img, w) ->
                     PyDict.get "exif" (img_info img) = None) -> fs w' = fs w)
    /\ (fs w' = fs w
        \/ exists img e f0 f1,
             Image_open a w = (Ok img, w)
             /\ PyDict.get "exif" (img_info img) = Some e
             /\ FS.stat (fs w) b = Some (NFile f0)
             /\ piexif_insert lib e f0 = Some f1
             /\ w' = say MsgExifKept (set_fs (<[b := NFile f1]> (fs w)) w)).
Proof.
  destruct (preserve_metadata_cases lib a b w) as (w' & E & Hin & Hc).
  exists w'. split; [exact E |]. split; [exact Hin |]. split; [| split].
  - intros q Hq.
    apply (writes_only_preserve_metadata lib (eq b) a b eq_refl _ _ _ E). congruence.
  - intros Hno. destruct Hc as [[H _] | (img & e & f0 & f1 & Ho & He & _)]; [exact H |].
    rewrite (Hno img Ho) in He. discriminate He.
  - destruct Hc as [[H _] | H]; [now left | now right].
Qed.

Lemma X10_preserve_metadata_outcomes_witness :
  let w := Demo.album_world in
  let a := ["album"; "icon.png"] in
  let b := ["album"; "notes.txt"] in
  exists w',
    _preserve_metadata Demo.lib a b w = (Ok tt, w')
    /\ stdin w' = stdin w
    /\ (forall q, q <> b -> fs w' !! q = fs w !! q)
    /\ ((forall img, Image_open a w = (Ok img, w) ->
                     PyDict.get "exif" (img_info img) = None) -> fs w' = fs w)
    /\ (fs w' = fs w
        \/ exists img e f0 f1,
             Image_open a w = (Ok img, w)
             /\ PyDict.get "exif" (img_info img) = Some e
             /\ FS.stat (fs w) b = Some (NFile f0)
             /\ piexif_insert Demo.lib e f0 = Some f1
             /\ w' = say MsgExifKept (set_fs (<[b := NFile f1]> (fs w)) w)).
Proof.
  cbv zeta.
  exact (X10_preserve_metadata_outcomes Demo.lib ["album"; "icon.png"]
           ["album"; "notes.txt"] Demo.album_world).
Defined.

(** ** Jobs that end well, and jobs that cannot *)

Lemma compress_image_true_inv (lib : Library) (self : ImageCompressor) (a : path)
    (b : option path) (fmt : option string) (overwrite : bool) (w w' : World) :
  compress_image lib self a b fmt overwrite w = (Ok true, w') ->
  exists w0, fs w0 = fs w
             /\ compress_to lib self a (resolve_output a b) fmt w0 = (Ok true, w').
Proof.
  unfold compress_image, bind at 1, path_exists.
  destruct (FS.exists_ (fs w) a); cbn [negb]; [| discriminate].
  unfold bind at 1.
  destruct (FS.exists_ (fs w) (resolve_output a b) && negb overwrite)%bool;
    [| intros E; now exists w].
  unfold bind at 1. rewrite print_eq. unfold bind at 1. rewrite print_eq.
  unfold bind at 1, input. cbn [stdin say].
  destruct (stdin w) as [| line rest]; [discriminate |].
  destruct (negb _); [discriminate |]. intros E. eexists. split; [| exact E]. reflexivity.
Qed.

Lemma compress_to_true_inv (lib : Library) (self : ImageCompressor) (a b : path)
    (fmt : option string) (w w' : World) :
  compress_to lib self a b fmt w = (Ok true, w') ->
  exists m w2 o c,
    FS.mkdir_p (fs w) (PyPath.parent b) = Ok m
    /\ dispatch lib self a b (format_token a fmt) (set_fs m w) = (Ok (Some true), w2)
    /\ FS.size_of (fs w2) a = Ok o /\ o <> 0%N
    /\ FS.size_of (fs w2) b = Ok c
    /\ w' = say (MsgSuccess o c (compression_ratio_of c o) b) w2.
Proof.
  unfold compress_to. intros E.
  apply bind_ok_inv in E as ([] & w1 & Em & E).
  apply mkdir_parents_inv in Em as [(m & Hm & -> & _) | (e & _ & [=])].
  apply bind_ok_inv in E as (r & w2 & Ed & E).
  destruct r as [[|] |].
  - apply bind_ok_inv in E as (o & w3 & Eo & E).
    apply path_size_inv in Eo as [-> Eo].
    apply bind_ok_inv in E as (c & w4 & Ec & E).
    apply path_size_inv in Ec as [-> Ec].
    apply bind_ok_inv in E as (q & w5 & Eq & E).
    unfold compression_ratio in Eq.
    destruct (N.eqb_spec o 0) as [-> | Hne]; [discriminate Eq |].
    injection Eq as <- <-.
    apply bind_ok_inv in E as ([] & w6 & Ep & E).
    rewrite print_eq in Ep. injection Ep as <-. injection E as <-.
    exists m, w2, o, c. auto 10.
  - apply bind_ok_inv in E as ([] & w3 & _ & E). discriminate E.
  - discriminate E.
Qed.

Lemma dispatch_known_inv (lib : Library) (self : ImageCompressor) (a b : path)
    (tok format : string) (w w' : World) :
  encoder_of tok = Some format ->
  dispatch lib self a b tok w = (Ok (Some true), w') ->
  b <> [] /\ exists f1, encoded_as lib format f1 /\ fs w' = <[b := NFile f1]> (fs w).
Proof.
  unfold encoder_of, dispatch.
  destruct (PyStr.mem tok _).
  { intros [= <-] E. now apply via_inv, compress_jpeg_written in E. }
  destruct (String.eqb tok ".png").
  { intros [= <-] E. now apply via_inv, compress_png_written in E. }
  destruct (String.eqb tok ".webp"); [| discriminate].
  intros [= <-] E. now apply via_inv, compress_webp_written in E.
Qed.

(** X13: when [compress_image] returns [True], the last line it has
    printed is the success report, with the sizes that the input path and
    the requested output path have at that moment and with the ratio
    [(1 - compressed / original) * 100] of the two, the original size
    being non-zero.  When the format token is one of [.jpg], [.jpeg],
    [.png], [.webp], the requested output path then holds a regular file
    made by the encoder of that format (possibly with an EXIF block
    added), whatever the suffix of the output path says: the format
    option decides the encoding and never the name of the file. *)
Theorem X13_compress_image_success (lib : Library) (self : ImageCompressor)
    (a : path) (b : option path) (fmt : option string) (overwrite : bool)
    (w w' : World)
    (Hrun : compress_image lib self a b fmt overwrite w = (Ok true, w')) :
  let out := resolve_output a b in
  exists o c l,
    FS.size_of (fs w') a = Ok o /\ o <> 0%N
    /\ FS.size_of (fs w') out = Ok c
    /\ stdout w' = l ++ [MsgSuccess o c (compression_ratio_of c o) out]
    /\ forall format, encoder_of (format_token a fmt) = Some format ->
         exists f1, encoded_as lib format f1
                    /\ fs w' !! out = Some (NFile f1) /\ c = st_size f1.
Proof.
  intros out.
  apply compress_image_true_inv in Hrun as (w0 & Hfs & E).
  apply compress_to_true_inv in E as (m & w2 & o & c & Hm & Ed & Ho & Hne & Hc & ->).
  exists o, c, (stdout w2). cbn [fs say stdout].
  repeat (split; [assumption || reflexivity |]).
  intros format Hf.
  apply (dispatch_known_inv _ _ _ _ _ _ _ _ Hf) in Ed as (Hb & f1 & Hx & Hw2).
  exists f1. split; [exact Hx |].
  assert (Hl : fs w2 !! out = Some (NFile f1)).
  { rewrite Hw2. apply lookup_insert_eq. }
  split; [exact Hl |].
  subst out. revert Hc Hl Hb. unfold FS.size_of, FS.stat.
  destruct (resolve_output a b); [congruence |]. intros Hc Hl _.
  rewrite Hl in Hc. now injection Hc as <-.
Qed.

Lemma X13_compress_image_success_witness :
  let w' := snd (compress_image Demo.lib Demo.compressor ["a.png"]
                   (Some ["new.png"]) (Some "webp") false Demo.asked_world) in
  exists o c l,
    FS.size_of (fs w') ["a.png"] = Ok o /\ o <> 0%N
    /\ FS.size_of (fs w') ["new.png"] = Ok c
    /\ stdout w' = l ++ [MsgSuccess o c (compression_ratio_of c o) ["new.png"]]
    /\ forall format, encoder_of (format_token ["a.png"] (Some "webp")) = Some format ->
         exists f1, encoded_as Demo.lib format f1
                    /\ fs w' !! ["new.png"] = Some (NFile f1) /\ c = st_size f1.
Proof.
  cbv zeta.
  apply (X13_compress_image_success Demo.lib Demo.compressor ["a.png"]
           (Some ["new.png"]) (Some "webp") false Demo.asked_world).
  vm_compute. reflexivity.
Defined.

Lemma exists_is_file (m : gmap path node) (p : path) :
  FS.is_file m p = true -> FS.exists_ m p = true.
Proof. unfold FS.is_file, FS.exists_. now destruct (FS.stat m p) as [[|] |]. Qed.

(** The prompt of lines 296-299 on an exhausted standard input *)
Lemma compress_image_eof (lib : Library) (self : ImageCompressor) (a : path)
    (b : option path) (fmt : option string) (w : World) :
  FS.exists_ (fs w) a = true ->
  FS.exists_ (fs w) (resolve_output a b) = true ->
  stdin w = [] ->
  compress_image lib self a b fmt false w
  = (Raise EOFError,
     say MsgAskOverwrite (say (MsgOutputExists (resolve_output a b)) w)).
Proof.
  intros Hin Hout Hstdin.
  unfold compress_image, bind at 1, path_exists. rewrite Hin. cbn [negb].
  unfold bind at 1. rewrite Hout. cbn [negb andb].
  unfold bind at 1. rewrite print_eq. unfold bind at 1. rewrite print_eq.
  unfold bind at 1, input. cbn [stdin say]. now rewrite Hstdin.
Qed.

(** X14: a single-file run whose output path exists, without
    [--overwrite], and with nothing left to read on standard input does
    not decline the overwrite: the prompt is printed, [input] raises
    [EOFError], nothing in the program catches it, and the process exits
    with status 1 having written nothing. *)
Theorem X14_prompt_at_end_of_input (lib : Library) (a : Args) (w : World)
    (Hc : click_accepts a w = true)
    (Hf : FS.is_file (fs w) (a_input_path a) = true)
    (Hout : FS.exists_ (fs w)
              (resolve_output (a_input_path a) (a_output_path a)) = true)
    (Hov : a_overwrite a = false)
    (Hstdin : stdin w = []) :
  let out := resolve_output (a_input_path a) (a_output_path a) in
  let w1 := say MsgAskOverwrite (say (MsgOutputExists out) (single_world a w)) in
  compress_image lib (compressor_of a) (a_input_path a) (a_output_path a)
    (a_format a) false (single_world a w) = (Raise EOFError, w1)
  /\ run lib a w = (1, w1)
  /\ fs w1 = fs w.
Proof.
  cbv zeta.
  assert (Hfs : fs (single_world a w) = fs w)
    by (unfold single_world; destruct (a_output_dir a); reflexivity).
  assert (Hsi : stdin (single_world a w) = [])
    by (unfold single_world; destruct (a_output_dir a); exact Hstdin).
  assert (E : compress_image lib (compressor_of a) (a_input_path a) (a_output_path a)
                (a_format a) false (single_world a w)
              = (Raise EOFError,
                 say MsgAskOverwrite
                   (say (MsgOutputExists
                           (resolve_output (a_input_path a) (a_output_path a)))
                      (single_world a w)))).
  { apply compress_image_eof; rewrite ?Hfs; auto using exists_is_file. }
  split; [exact E |]. split; [| exact Hfs].
  rewrite (run_accepted _ _ _ Hc).
  assert (Hd : FS.is_dir (fs w) (a_input_path a) = false).
  { revert Hf. unfold FS.is_file, FS.is_dir. now destruct (FS.stat _ _) as [[|] |]. }
  rewrite Hd, (main_single_eq _ _ _ Hf), Hov. unfold bind. now rewrite E.
Qed.

Lemma X14_prompt_at_end_of_input_witness :
  fst (run Demo.lib (Demo.single ["a.png"] (Some ["out.png"]) false)
         Demo.silent_world) = 1
  /\ fs (snd (run Demo.lib (Demo.single ["a.png"] (Some ["out.png"]) false)
                Demo.silent_world)) = fs Demo.silent_world.
Proof.
  destruct (X14_prompt_at_end_of_input Demo.lib
              (Demo.single ["a.png"] (Some ["out.png"]) false) Demo.silent_world
              eq_refl eq_refl eq_refl eq_refl eq_refl) as (_ & Hr & Hfs).
  rewrite Hr. split; [reflexivity | exact Hfs].
Defined.

(** The probe of lines 323-338 on an image of another format *)
Lemma dispatch_foreign (lib : Library) (self : ImageCompressor) (a b : path)
    (tok : string) (w : World) (f : file) (img : Image) :
  PyStr.mem tok [".jpg"; ".jpeg"; ".png"; ".webp"] = false ->
  FS.stat (fs w) a = Some (NFile f) -> decoded f = Some img ->
  PyStr.mem (img_format img) ["JPEG"; "PNG"; "WEBP"] = false ->
  dispatch lib self a b tok w
  = (Ok None, say (MsgUnknownImageFormat (img_format img))
                (say (MsgUnsupportedFormat tok) w)).
Proof.
  intros Ht Hs Hd Hf. destruct (not_a_known_extension _ Ht) as (H1 & H2 & H3).
  unfold dispatch. rewrite H1, H2, H3.
  unfold bind at 1. rewrite print_eq.
  assert (Eo : Image_open a (say (MsgUnsupportedFormat tok) w)
               = (Ok img, say (MsgUnsupportedFormat tok) w))
    by now apply (Image_open_stat _ _ f).
  unfold PyStr.mem in Hf. cbn [existsb] in Hf.
  apply orb_false_iff in Hf as [Hj Hf]. apply orb_false_iff in Hf as [Hp Hf].
  apply orb_false_iff in Hf as [Hw _].
  erewrite try_eq_ok; [reflexivity |].
  rewrite (bind_eq_ok _ _ _ _ _ Eo), Hj, Hp, Hw. reflexivity.
Qed.

Lemma compress_image_fresh (lib : Library) (self : ImageCompressor) (a : path)
    (b : option path) (fmt : option string) (overwrite : bool) (w : World) :
  FS.exists_ (fs w) a = true ->
  (FS.exists_ (fs w) (resolve_output a b) = false \/ overwrite = true) ->
  compress_image lib self a b fmt overwrite w
  = compress_to lib self a (resolve_output a b) fmt w.
Proof.
  intros Hin Hout. unfold compress_image, bind at 1, path_exists. rewrite Hin.
  cbn [negb]. unfold bind at 1.
  assert (E : (FS.exists_ (fs w) (resolve_output a b) && negb overwrite)%bool = false).
  { destruct Hout as [-> | ->]; [reflexivity | apply andb_false_r]. }
  now rewrite E.
Qed.

Lemma exists_stat_file (m : gmap path node) (p : path) (f : file) :
  FS.stat m p = Some (NFile f) -> FS.exists_ m p = true.
Proof. unfold FS.exists_. now intros ->. Qed.

Lemma stat_mkdir_file (m m' : gmap path node) (d p : path) (f : file) :
  FS.mkdir_p m d = Ok m' -> FS.stat m p = Some (NFile f) ->
  FS.stat m' p = Some (NFile f).
Proof.
  intros Hm. destruct p as [| c r]; [discriminate |]. cbn [FS.stat].
  now apply (mkdir_p_files _ _ _ _ _ Hm).
Qed.

(** X15: an input whose format token is none of [.jpg], [.jpeg], [.png],
    [.webp] and that Pillow identifies as something other than JPEG, PNG
    or WEBP is never compressed: the job creates the missing directories
    above the output path, prints two lines, returns [False] and writes no
    file.  The batch filter admits [.bmp] and [.tiff], which are not among
    the four tokens, so with no format option a genuine BMP or TIFF file
    is selected by every batch and fails in every batch. *)
Theorem X15_foreign_format_is_not_compressed (lib : Library)
    (self : ImageCompressor) (a : path) (b : option path) (fmt : option string)
    (overwrite : bool) (w : World) (f : file) (img : Image) (m : gmap path node)
    (Hs : FS.stat (fs w) a = Some (NFile f))
    (Hd : decoded f = Some img)
    (Ht : PyStr.mem (format_token a fmt) [".jpg"; ".jpeg"; ".png"; ".webp"] = false)
    (Hf : PyStr.mem (img_format img) ["JPEG"; "PNG"; "WEBP"] = false)
    (Hout : FS.exists_ (fs w) (resolve_output a b) = false \/ overwrite = true)
    (Hm : FS.mkdir_p (fs w) (PyPath.parent (resolve_output a b)) = Ok m) :
  compress_image lib self a b fmt overwrite w
  = (Ok false,
     say (MsgUnknownImageFormat (img_format img))
       (say (MsgUnsupportedFormat (format_token a fmt)) (set_fs m w)))
  /\ same_files m (fs w)
  /\ In ".bmp" supported_formats /\ In ".tiff" supported_formats
  /\ PyStr.mem ".bmp" [".jpg"; ".jpeg"; ".png"; ".webp"] = false
  /\ PyStr.mem ".tiff" [".jpg"; ".jpeg"; ".png"; ".webp"] = false.
Proof.
  split; [| split; [| cbn; auto 10]].
  - rewrite compress_image_fresh; [| now apply (exists_stat_file _ _ f) | exact Hout].
    assert (Ed : dispatch lib self a (resolve_output a b) (format_token a fmt)
                   (set_fs m w)
                 = (Ok None,
                    say (MsgUnknownImageFormat (img_format img))
                      (say (MsgUnsupportedFormat (format_token a fmt)) (set_fs m w)))).
    { apply (dispatch_foreign _ _ _ _ _ _ f img); auto.
      cbn [fs set_fs]. now apply (stat_mkdir_file _ _ _ _ _ Hm). }
    unfold compress_to, bind at 1, mkdir_parents. rewrite Hm.
    fold (set_fs m w). now rewrite (bind_eq_ok _ _ _ _ _ Ed).
  - intros q x. symmetry. apply (mkdir_p_files _ _ _ _ _ Hm).
Qed.

Lemma X15_foreign_format_is_not_compressed_witness :
  fst (compress_image Demo.lib Demo.compressor ["album"; "scan.bmp"] None None
         false Demo.album_world) = Ok false
  /\ fs (snd (compress_image Demo.lib Demo.compressor ["album"; "scan.bmp"] None
                None false Demo.album_world)) = fs Demo.album_world.
Proof.
  destruct (X15_foreign_format_is_not_compressed Demo.lib Demo.compressor
              ["album"; "scan.bmp"] None None false Demo.album_world
              (mkFile 300 (Some (mkImage "BMP" "RGB" [] true)))
              (mkImage "BMP" "RGB" [] true) (fs Demo.album_world)
              eq_refl eq_refl eq_refl eq_refl (or_introl eq_refl) eq_refl)
    as (H & _).
  rewrite H. split; reflexivity.
Defined.

Lemma probed_cases (lib : Library) (self : ImageCompressor) (format sfx : string)
    (enc : path -> path -> M bool) :
  probed lib self format = Some (sfx, enc) ->
  (format = "JPEG" /\ sfx = ".jpg" /\ enc = compress_jpeg lib self)
  \/ (format <> "JPEG" /\ format = "PNG" /\ sfx = ".png" /\ enc = compress_png lib self)
  \/ (format <> "JPEG" /\ format <> "PNG" /\ format = "WEBP" /\ sfx = ".webp"
      /\ enc = compress_webp lib self).
Proof.
  unfold probed.
  destruct (String.eqb_spec format "JPEG"); [intros [= <- <-]; auto |].
  destruct (String.eqb_spec format "PNG"); [intros [= <- <-]; auto 10 |].
  destruct (String.eqb_spec format "WEBP"); [intros [= <- <-]; auto 10 | discriminate].
Qed.

Lemma probed_returns (lib : Library) (self : ImageCompressor) (format sfx : string)
    (enc : path -> path -> M bool) (a b : path) (w : World) :
  probed lib self format = Some (sfx, enc) ->
  exists s w', enc a b w = (Ok s, w')
               /\ forall q, q <> b -> fs w' !! q = fs w !! q.
Proof.
  intros H. apply probed_cases in H
    as [(_ & _ & ->) | [(_ & _ & _ & ->) | (_ & _ & _ & _ & ->)]].
  - destruct (compress_jpeg_returns lib self a b w) as (s & w' & E).
    exists s, w'. split; [exact E |]. intros q Hq.
    apply (writes_only_compress_jpeg lib (eq b) self a b eq_refl _ _ _ E). congruence.
  - destruct (compress_png_returns lib self a b w) as (s & w' & E).
    exists s, w'. split; [exact E |]. intros q Hq.
    apply (writes_only_compress_png lib (eq b) self a b eq_refl _ _ _ E). congruence.
  - destruct (compress_webp_returns lib self a b w) as (s & w' & E).
    exists s, w'. split; [exact E |]. intros q Hq.
    apply (writes_only_compress_webp lib (eq b) self a b eq_refl _ _ _ E). congruence.
Qed.

Lemma dispatch_probed (lib : Library) (self : ImageCompressor) (a b out : path)
    (tok sfx : string) (enc : path -> path -> M bool) (w : World) (f : file)
    (img : Image) (s : bool) (w2 : World) :
  PyStr.mem tok [".jpg"; ".jpeg"; ".png"; ".webp"] = false ->
  FS.stat (fs w) a = Some (NFile f) -> decoded f = Some img ->
  probed lib self (img_format img) = Some (sfx, enc) ->
  PyPath.with_suffix b sfx = Some out ->
  enc a out (say (MsgUnsupportedFormat tok) w) = (Ok s, w2) ->
  dispatch lib self a b tok w = (Ok (Some s), w2).
Proof.
  intros Ht Hs Hd Hp Hsfx Henc.
  destruct (not_a_known_extension _ Ht) as (H1 & H2 & H3).
  unfold dispatch. rewrite H1, H2, H3. unfold bind at 1. rewrite print_eq.
  assert (Eo : Image_open a (say (MsgUnsupportedFormat tok) w)
               = (Ok img, say (MsgUnsupportedFormat tok) w))
    by now apply (Image_open_stat _ _ f).
  apply try_eq_ok. rewrite (bind_eq_ok _ _ _ _ _ Eo).
  apply probed_cases in Hp
    as [(Hf & -> & ->) | [(Hj & Hf & -> & ->) | (Hj & Hp & Hf & -> & ->)]].
  - rewrite Hf. cbn [String.eqb Ascii.eqb Bool.eqb].
    unfold with_suffix. rewrite Hsfx. unfold bind at 1, ret at 1.
    now rewrite (bind_eq_ok _ _ _ _ _ Henc).
  - apply String.eqb_neq in Hj. rewrite Hj, Hf. cbn [String.eqb Ascii.eqb Bool.eqb].
    unfold with_suffix. rewrite Hsfx. unfold bind at 1, ret at 1.
    now rewrite (bind_eq_ok _ _ _ _ _ Henc).
  - apply String.eqb_neq in Hj, Hp. rewrite Hj, Hp, Hf.
    cbn [String.eqb Ascii.eqb Bool.eqb].
    unfold with_suffix. rewrite Hsfx. unfold bind at 1, ret at 1.
    now rewrite (bind_eq_ok _ _ _ _ _ Henc).
Qed.

(** X16: a job that the probe of the header redirects cannot report
    success.  When the format token is none of [.jpg], [.jpeg], [.png],
    [.webp], the input is identified as JPEG, PNG or WEBP, and the output
    path with the matching suffix is another path than the one requested,
    which does not exist yet, the encoder writes to the redirected path
    and lines 342-343 then ask for the size of the requested one: if the
    encoder succeeded the job ends in an uncaught [FileNotFoundError],
    with the compressed file on disk; if it failed the job returns
    [False].  The requested path is never created. *)
Theorem X16_redirected_job_cannot_succeed (lib : Library) (self : ImageCompressor)
    (a : path) (b : option path) (fmt : option string) (overwrite : bool)
    (w : World) (f : file) (img : Image) (sfx : string)
    (enc : path -> path -> M bool) (out' : path) (m : gmap path node)
    (Hs : FS.stat (fs w) a = Some (NFile f))
    (Hd : decoded f = Some img)
    (Ht : PyStr.mem (format_token a fmt) [".jpg"; ".jpeg"; ".png"; ".webp"] = false)
    (Hp : probed lib self (img_format img) = Some (sfx, enc))
    (Hfresh : FS.exists_ (fs w) (resolve_output a b) = false)
    (Hsfx : PyPath.with_suffix (resolve_output a b) sfx = Some out')
    (Hne : out' <> resolve_output a b)
    (Hm : FS.mkdir_p (fs w) (PyPath.parent (resolve_output a b)) = Ok m) :
  exists s w2,
    enc a out' (say (MsgUnsupportedFormat (format_token a fmt)) (set_fs m w))
    = (Ok s, w2)
    /\ compress_image lib self a b fmt overwrite w
       = (if s then (Raise FileNotFoundError, w2)
          else (Ok false, say MsgFailed w2))
    /\ fs w2 !! resolve_output a b = None.
Proof.
  set (out := resolve_output a b) in *.
  set (w1 := say (MsgUnsupportedFormat (format_token a fmt)) (set_fs m w)).
  destruct (probed_returns lib self _ _ _ a out' w1 Hp) as (s & w2 & Henc & Hfoot).
  exists s, w2. split; [exact Henc |].
  assert (Hout : fs w2 !! out = None).
  { rewrite (Hfoot out) by congruence. cbn [fs w1 say set_fs].
    rewrite (mkdir_parent_keeps _ _ _ Hm).
    revert Hfresh. unfold FS.exists_, FS.stat.
    destruct out; [discriminate |]. now destruct (fs w !! _). }
  split; [| exact Hout].
  assert (Ed : dispatch lib self a out (format_token a fmt) (set_fs m w)
               = (Ok (Some s), w2)).
  { apply (dispatch_probed _ _ _ _ out' _ sfx enc _ f img); auto.
    cbn [fs set_fs]. now apply (stat_mkdir_file _ _ _ _ _ Hm). }
  rewrite compress_image_fresh; [| now apply (exists_stat_file _ _ f) | now left].
  fold out. unfold compress_to, bind at 1, mkdir_parents. rewrite Hm.
  fold (set_fs m w). rewrite (bind_eq_ok _ _ _ _ _ Ed).
  destruct s; [| reflexivity].
  assert (Eo : FS.size_of (fs w2) out = Raise FileNotFoundError).
  { unfold FS.size_of, FS.stat. destruct out; [discriminate Hfresh |]. now rewrite Hout. }
  unfold bind at 1, path_size.
  destruct (FS.size_of (fs w2) a) as [o | e] eqn:Ea.
  - unfold bind at 1. now rewrite Eo.
  - apply size_of_raise in Ea as Hb. revert Ea. unfold FS.size_of.
    destruct (FS.stat (fs w2) a) as [[|] |]; now intros [= <-].
Qed.

Lemma X16_redirected_job_cannot_succeed_witness :
  fst (compress_image Demo.lib Demo.compressor ["d"; "photo.jfif"] None None false
         Demo.jfif_world) = Raise FileNotFoundError.
Proof.
  destruct (X16_redirected_job_cannot_succeed Demo.lib Demo.compressor
              ["d"; "photo.jfif"] None None false Demo.jfif_world
              (mkFile 100 (Some (mkImage "JPEG" "RGB" [] true)))
              (mkImage "JPEG" "RGB" [] true) ".jpg"
              (compress_jpeg Demo.lib Demo.compressor)
              ["d"; "compressed_photo.jpg"] (fs Demo.jfif_world)
              eq_refl eq_refl eq_refl eq_refl eq_refl eq_refl
              ltac:(discriminate) eq_refl)
    as (s & w2 & Henc & Hjob & _).
  rewrite Hjob.
  destruct (compress_jpeg_returns Demo.lib Demo.compressor ["d"; "photo.jfif"]
              ["d"; "compressed_photo.jpg"]
              (say (MsgUnsupportedFormat (format_token ["d"; "photo.jfif"] None))
                 (set_fs (fs Demo.jfif_world) Demo.jfif_world))) as (s' & w3 & E).
  assert (Hs : s = true).
  { assert (H : fst (compress_jpeg Demo.lib Demo.compressor ["d"; "photo.jfif"]
                       ["d"; "compressed_photo.jpg"]
                       (say (MsgUnsupportedFormat
                               (format_token ["d"; "photo.jfif"] None))
                          (set_fs (fs Demo.jfif_world) Demo.jfif_world))) = Ok true)
      by reflexivity.
    rewrite Henc in H. now injection H. }
  now rewrite Hs.
Defined.

(** ** Batches at the edges *)

Lemma mkdir_chain_dirs (ds : list path) (m m' : gmap path node) :
  FS.mkdir_chain ds m = Ok m' -> forall d, In d ds -> m' !! d = Some NDir.
Proof.
  revert m. induction ds as [| d0 r IH]; intros m H d Hd; [destruct Hd |].
  cbn in H. destruct (m !! d0) as [[f |] |] eqn:E; [discriminate | |].
  - destruct Hd as [<- | Hd]; [| now apply (IH _ H)].
    destruct (mkdir_chain_lookup _ _ _ H d0) as [-> | (Hn & _)]; congruence.
  - destruct Hd as [<- | Hd]; [| now apply (IH _ H)].
    destruct (mkdir_chain_lookup _ _ _ H d0) as [-> | (Hn & _)].
    + apply lookup_insert_eq.
    + now rewrite lookup_insert_eq in Hn.
Qed.

Lemma mkdir_p_is_dir (m m' : gmap path node) (p : path) :
  FS.mkdir_p m p = Ok m' -> FS.is_dir m' p = true.
Proof.
  intros H. unfold FS.is_dir, FS.stat. destruct p as [| c r]; [reflexivity |].
  rewrite (mkdir_chain_dirs _ _ _ H); [reflexivity |].
  apply prefixes_spec. split; [discriminate | exists []; now rewrite app_nil_r].
Qed.

Lemma mkdir_chain_blocked (ds : list path) (m : gmap path node) (d : path) (f : file) :
  In d ds -> m !! d = Some (NFile f) ->
  exists e, FS.mkdir_chain ds m = Raise e
            /\ (e = FileExistsError \/ e = NotADirectoryError).
Proof.
  revert m. induction ds as [| d0 r IH]; intros m Hd Hf; [destruct Hd |].
  cbn [FS.mkdir_chain]. destruct (m !! d0) as [[f0 |] |] eqn:E.
  - eexists. split; [reflexivity |]. destruct r; auto.
  - destruct Hd as [<- | Hd]; [congruence | now apply IH].
  - destruct Hd as [<- | Hd]; [congruence |]. apply IH; [exact Hd |].
    rewrite lookup_insert_ne; [exact Hf | congruence].
Qed.

(** X17: a batch over a directory that holds no file with a supported
    suffix still creates its output directory, with the missing
    directories above it; it then prints one line and returns, having
    written no file. *)
Theorem X17_batch_without_images (lib : Library) (self : ImageCompressor)
    (input_dir output_dir : path) (recursive : bool) (format : option string)
    (overwrite : bool) (w : World) (m : gmap path node)
    (Hd : FS.is_dir (fs w) input_dir = true)
    (Hm : FS.mkdir_p (fs w) output_dir = Ok m)
    (Hnone : image_files (fs w) input_dir recursive = []) :
  batch_compress lib self input_dir (Some output_dir) recursive format overwrite w
  = (Ok tt, say (MsgNoImages input_dir) (set_fs m w))
  /\ FS.is_dir m output_dir = true
  /\ same_files m (fs w).
Proof.
  split; [| split].
  - unfold batch_compress, bind at 1, path_exists, bind at 1, path_is_dir.
    assert (He : FS.exists_ (fs w) input_dir = true).
    { revert Hd. unfold FS.is_dir, FS.exists_. now destruct (FS.stat _ _) as [[|] |]. }
    rewrite He, Hd. cbn [negb orb]. unfold bind at 1, mkdir_parents. rewrite Hm.
    unfold bind at 1. cbn [fs].
    destruct (image_files m input_dir recursive) as [| p l] eqn:Ei; [reflexivity |].
    assert (Hin : In p (image_files m input_dir recursive)) by (rewrite Ei; now left).
    apply (image_files_mkdir _ _ _ _ _ _ Hm) in Hin. rewrite Hnone in Hin. destruct Hin.
  - now apply mkdir_p_is_dir in Hm.
  - intros q x. symmetry. apply (mkdir_p_files _ _ _ _ _ Hm).
Qed.

Lemma X17_batch_without_images_witness :
  let m := <[ ["docs"; "compressed"] := NDir ]> (fs Demo.docs_world) in
  batch_compress Demo.lib Demo.compressor ["docs"] (Some ["docs"; "compressed"])
    true None false Demo.docs_world
  = (Ok tt, say (MsgNoImages ["docs"]) (set_fs m Demo.docs_world))
  /\ FS.is_dir m ["docs"; "compressed"] = true
  /\ same_files m (fs Demo.docs_world).
Proof.
  cbv zeta.
  apply (X17_batch_without_images Demo.lib Demo.compressor ["docs"]
           ["docs"; "compressed"] true None false Demo.docs_world);
    reflexivity.
Defined.

(** X18: when the output directory of a batch is an existing regular file,
    creating it fails: [batch_compress] raises [FileExistsError] (or
    [NotADirectoryError], when a file is in the way further up) before it
    looks for images, nothing in the program catches it, and the process
    exits with status 1 having written nothing. *)
Theorem X18_batch_output_dir_is_a_file (lib : Library) (a : Args) (w : World)
    (Hc : click_accepts a w = true)
    (Hd : FS.is_dir (fs w) (a_input_path a) = true)
    (Hf : FS.is_file (fs w) (batch_dir a) = true) :
  exists e,
    (e = FileExistsError \/ e = NotADirectoryError)
    /\ batch_compress lib (compressor_of a) (a_input_path a) (Some (batch_dir a))
         (a_recursive a) (a_format a) (a_overwrite a) (batch_world a w)
       = (Raise e, batch_world a w)
    /\ run lib a w = (1, batch_world a w)
    /\ fs (batch_world a w) = fs w.
Proof.
  assert (Hfs : fs (batch_world a w) = fs w).
  { unfold batch_world. destruct (a_output_path a), (a_output_dir a); reflexivity. }
  apply is_file_spec in Hf as (Hne & f & Hf).
  destruct (mkdir_chain_blocked (PyPath.prefixes (batch_dir a)) (fs w) (batch_dir a) f)
    as (e & He & Hcases); [| exact Hf |].
  { apply prefixes_spec. split; [exact Hne | exists []; now rewrite app_nil_r]. }
  exists e. split; [exact Hcases |].
  assert (E : batch_compress lib (compressor_of a) (a_input_path a) (Some (batch_dir a))
                (a_recursive a) (a_format a) (a_overwrite a) (batch_world a w)
              = (Raise e, batch_world a w)).
  { unfold batch_compress, bind at 1, path_exists, bind at 1, path_is_dir.
    rewrite Hfs.
    assert (Hex : FS.exists_ (fs w) (a_input_path a) = true).
    { revert Hd. unfold FS.is_dir, FS.exists_. now destruct (FS.stat _ _) as [[|] |]. }
    rewrite Hex, Hd. cbn [negb orb]. unfold bind at 1, mkdir_parents, FS.mkdir_p.
    now rewrite Hfs, He. }
  split; [exact E |]. split; [| exact Hfs].
  rewrite (run_accepted _ _ _ Hc), Hd, main_batch_eq, E.
  destruct Hcases as [-> | ->]; reflexivity.
Qed.

Lemma X18_batch_output_dir_is_a_file_witness :
  fst (run Demo.lib (Demo.batch ["in"] ["in"; "notes.txt"] false) Demo.flat_world) = 1
  /\ fs (snd (run Demo.lib (Demo.batch ["in"] ["in"; "notes.txt"] false)
                Demo.flat_world)) = fs Demo.flat_world.
Proof.
  destruct (X18_batch_output_dir_is_a_file Demo.lib
              (Demo.batch ["in"] ["in"; "notes.txt"] false) Demo.flat_world
              eq_refl eq_refl eq_refl) as (e & _ & _ & Hr & Hfs).
  rewrite Hr. split; [reflexivity | exact Hfs].
Defined.

Lemma name_below (d rel : path) : rel <> [] -> PyPath.name (d ++ rel) = PyPath.name rel.
Proof.
  intros H. destruct (exists_last H) as (l & x & ->).
  unfold PyPath.name. now rewrite app_assoc, !last_last.
Qed.

Lemma suffix_below (d rel : path) :
  rel <> [] -> PyPath.suffix (d ++ rel) = PyPath.suffix rel.
Proof. intros H. unfold PyPath.suffix. now rewrite (name_below _ _ H). Qed.

(** X20: a recursive batch does not leave its own output directory out of
    the search.  When the output directory lies below the input directory
    (as the default [compressed] does), the file a successful job has
    written, for a format token among [.jpg], [.jpeg], [.png], [.webp], is
    itself an image file of the input directory: it is at the input's
    relative path below the output directory, it has the input's name and
    suffix, and the next recursive run over the same directory selects it
    as an input. *)
Theorem X20_recursive_batch_feeds_on_its_output (lib : Library)
    (self : ImageCompressor) (m : gmap path node)
    (input_dir sub image_file output_file : path)
    (format : option string) (overwrite : bool) (format_name : string)
    (w0 w0' w w' : World)
    (Hsel : In image_file (image_files m input_dir true))
    (Hout : output_file_of input_dir (input_dir ++ sub) true image_file w0
            = (Ok output_file, w0'))
    (Hfmt : encoder_of (format_token image_file format) = Some format_name)
    (Hrun : compress_image lib self image_file (Some output_file) format overwrite w
            = (Ok true, w')) :
  In output_file (image_files (fs w') input_dir true)
  /\ exists rel, image_file = input_dir ++ rel /\ output_file = input_dir ++ sub ++ rel.
Proof.
  apply image_files_spec in Hsel as (rel & f & -> & Hrel & _ & Hsfx).
  unfold output_file_of in Hout. rewrite strip_prefix_app in Hout.
  unfold bind, ret in Hout. injection Hout as <- <-.
  split; [| exists rel; split; [reflexivity | unfold PyPath.join; now rewrite app_assoc]].
  apply compress_image_true_inv in Hrun as (w1 & Hfs & E).
  apply compress_to_true_inv in E as (m' & w2 & o & c & Hm & Ed & _ & _ & _ & ->).
  apply (dispatch_known_inv _ _ _ _ _ _ _ _ Hfmt) in Ed as (_ & f1 & _ & Hw2).
  cbn [resolve_output] in Hw2. cbn [fs say].
  apply image_files_spec. exists (sub ++ rel), f1.
  unfold PyPath.join in *. split; [now rewrite app_assoc |].
  split; [intros E; apply app_eq_nil in E as [_ E]; congruence |].
  split; [rewrite Hw2; apply lookup_insert_eq |].
  rewrite (suffix_below _ _ Hrel) in Hsfx. now rewrite (suffix_below _ _ Hrel).
Qed.

Lemma X20_recursive_batch_feeds_on_its_output_witness :
  let w' := snd (compress_image Demo.lib Demo.compressor ["root"; "sub"; "y.png"]
                   (Some ["root"; "compressed"; "sub"; "y.png"]) None false
                   Demo.tree_world) in
  In ["root"; "compressed"; "sub"; "y.png"] (image_files (fs w') ["root"] true)
  /\ exists rel, ["root"; "sub"; "y.png"] = ["root"] ++ rel
                 /\ ["root"; "compressed"; "sub"; "y.png"]
                    = ["root"] ++ ["compressed"] ++ rel.
Proof.
  cbv zeta.
  apply (X20_recursive_batch_feeds_on_its_output Demo.lib Demo.compressor
           (fs Demo.tree_world) ["root"] ["compressed"] ["root"; "sub"; "y.png"]
           ["root"; "compressed"; "sub"; "y.png"] None false "PNG"
           Demo.tree_world Demo.tree_world Demo.tree_world).
  - vm_compute. auto.
  - reflexivity.
  - reflexivity.
  - vm_compute. reflexivity.
Defined.

(** ** Exceptions that escape a batch, and the exit status *)

Lemma batch_step_raises_Exception (lib : Library) (self : ImageCompressor)
    (input_dir output_dir : path) (recursive : bool) (format : option string)
    (overwrite : bool) (n i : nat) (image_file : path) (acc : tally)
    (w w' : World) (e : exn) :
  batch_step lib self input_dir output_dir recursive format overwrite n i
    image_file acc w = (Raise e, w') ->
  is_Exception e = true.
Proof.
  unfold batch_step. intros E.
  apply bind_raise_inv in E as [E | ([] & w1 & _ & E)]; [discriminate E |].
  apply bind_raise_inv in E as [E | (out & w2 & _ & E)].
  { revert E. unfold output_file_of, bind.
    destruct recursive; [destruct (PyPath.strip_prefix _ _) |]; try discriminate.
    now intros [= <- <-]. }
  apply bind_raise_inv in E as [E | ([] & w3 & _ & E)].
  { now apply mkdir_parents_raise in E as [H _]. }
  apply bind_raise_inv in E as [E | (ok & w4 & _ & E)].
  { now apply compress_image_raises_Exception in E. }
  destruct ok; [| discriminate E].
  apply bind_raise_inv in E as [E | (o & w5 & _ & E)].
  { apply path_size_inv in E as [_ E]. symmetry in E.
    now apply size_of_raise in E as [H _]. }
  apply bind_raise_inv in E as [E | (c & w6 & _ & E)]; [| discriminate E].
  apply path_size_inv in E as [_ E]. symmetry in E.
  now apply size_of_raise in E as [H _].
Qed.

Lemma batch_loop_raises_Exception (lib : Library) (self : ImageCompressor)
    (input_dir output_dir : path) (recursive : bool) (format : option string)
    (overwrite : bool) (n : nat) (files : list path) :
  forall i acc w w' e,
    batch_loop lib self input_dir output_dir recursive format overwrite n i
      files acc w = (Raise e, w') ->
    is_Exception e = true.
Proof.
  induction files as [| f rest IH]; intros i acc w w' e; cbn [batch_loop];
    [discriminate |].
  intros E. apply bind_raise_inv in E as [E | (acc' & w1 & _ & E)].
  - now apply batch_step_raises_Exception in E.
  - now apply IH in E.
Qed.

Lemma batch_compress_raises_Exception (lib : Library) (self : ImageCompressor)
    (input_dir : path) (output_dir : option path) (recursive : bool)
    (format : option string) (overwrite : bool) (w w' : World) (e : exn) :
  batch_compress lib self input_dir output_dir recursive format overwrite w
  = (Raise e, w') ->
  is_Exception e = true.
Proof.
  unfold batch_compress, bind at 1, path_exists, bind at 1, path_is_dir.
  destruct (_ || _)%bool; [discriminate |].
  intros E. apply bind_raise_inv in E as [E | ([] & w1 & _ & E)].
  { now apply mkdir_parents_raise in E as [H _]. }
  unfold bind at 1 in E.
  destruct (image_files _ _ _) as [| f files]; [discriminate E |].
  apply bind_raise_inv in E as [E | ([] & w2 & _ & E)]; [discriminate E |].
  apply bind_raise_inv in E as [E | ([] & w3 & _ & E)]; [discriminate E |].
  apply bind_raise_inv in E as [E | (acc & w4 & _ & E)].
  { now apply batch_loop_raises_Exception in E. }
  unfold batch_report in E.
  apply bind_raise_inv in E as [E | ([] & w5 & _ & E)]; [discriminate E |].
  apply bind_raise_inv in E as [E | ([] & w6 & _ & E)]; [discriminate E |].
  destruct (_ <? _)%nat; [| discriminate E].
  apply bind_raise_inv in E as [E | (q & w7 & _ & E)].
  - revert E. unfold compression_ratio. destruct (_ =? 0)%N; [| discriminate].
    now intros [= <- <-].
  - apply bind_raise_inv in E as [E | ([] & w8 & _ & E)]; discriminate E.
Qed.

(** X21: the exit status of a run is 0, 1 or 2, and it is 2 exactly when
    click rejects the arguments, in which case nothing is printed or
    written by the program.  Neither [compress_image] nor
    [batch_compress] ever calls [sys.exit]: once the arguments are
    accepted the status is 0 or 1, in single-file and in batch mode. *)
Theorem X21_exit_status_is_0_1_or_2 (lib : Library) (a : Args) (w : World) :
  (click_accepts a w = false /\ run lib a w = (2, w))
  \/ (click_accepts a w = true /\ (fst (run lib a w) = 0 \/ fst (run lib a w) = 1)).
Proof.
  destruct (click_accepts a w) eqn:Hc; [right | left].
  - split; [reflexivity |]. rewrite (run_accepted _ _ _ Hc).
    destruct (FS.is_dir (fs w) (a_input_path a)) eqn:Hd.
    + rewrite main_batch_eq.
      destruct (batch_compress _ _ _ _ _ _ _ _) as [[[] | e] w'] eqn:E; [now left |].
      right. apply batch_compress_raises_Exception in E. cbn.
      destruct e; try reflexivity. discriminate E.
    + destruct (FS.is_file (fs w) (a_input_path a)) eqn:Hf.
      * rewrite (main_single_eq _ _ _ Hf). unfold bind.
        destruct (compress_image _ _ _ _ _ _ _) as [[[|] | e] w'] eqn:E;
          [now left | now right |].
        right. apply compress_image_raises_Exception in E. cbn.
        destruct e; try reflexivity. discriminate E.
      * right. unfold main_single, bind at 1, path_is_file. now rewrite Hf.
  - split; [reflexivity |]. unfold run. now rewrite Hc.
Qed.

(** ** What a failed job leaves behind *)

(** A [save] that raises has written nothing, or has left its partial file
    at the path it had opened. *)
Lemma Image_save_raise_inv (lib : Library) (img : Image) (p : path) (fmt : string)
    (kw : list (string * kwarg)) (w w' : World) (e : exn) :
  Image_save lib img p fmt kw w = (Raise e, w') ->
  left_by_failed_save lib p (fs w) (fs w').
Proof.
  unfold Image_save. intros E.
  apply bind_inv in E as [(e' & E & _) | ([] & w1 & El & E)].
  { left. now rewrite (still _ _ _ _ (keeps_load _ img) E). }
  pose proof (still _ _ _ _ (keeps_load _ img) El) as ->.
  destruct (FS.open_w (fs w) p); [injection E as _ <-; now left |].
  destruct (pil_encode lib img fmt kw) as [f | f] eqn:Ee; [discriminate |].
  injection E as _ <-.
  destruct (FS.exists_ (fs w) p) eqn:Ex; cbn [negb andb].
  - right. exists img, fmt, kw, f. repeat split; auto.
  - destruct (pil_removes_created lib) eqn:Er; [now left |].
    right. exists img, fmt, kw, f. repeat split; auto.
Qed.

(** A [try] whose handler prints and returns [False] gives [False] either
    from its body or from the handler. *)
Lemma try_false_inv (m : M bool) (g : exn -> message) (w w' : World) :
  try_except m (fun e => print (g e) >> ret false) w = (Ok false, w') ->
  (exists w1, m w = (Ok false, w1) /\ w' = w1)
  \/ (exists e w1, m w = (Raise e, w1) /\ w' = say (g e) w1).
Proof.
  unfold try_except. destruct (m w) as [[s | e] w1].
  - intros [= -> <-]. left. now exists w1.
  - destruct (is_Exception e); [| discriminate].
    rewrite (bind_eq_ok _ _ _ _ _ (print_eq _ _)). intros [= <-].
    right. now exists e, w1.
Qed.

Lemma left_by_refl (lib : Library) (p : path) (m : gmap path node) :
  left_by_failed_save lib p m m.
Proof. now left. Qed.

Lemma compress_jpeg_failed (lib : Library) (self : ImageCompressor) (a b : path)
    (w w' : World) :
  compress_jpeg lib self a b w = (Ok false, w') ->
  left_by_failed_save lib b (fs w) (fs w').
Proof.
  unfold compress_jpeg. intros E.
  apply try_false_inv in E as [(w1 & E & ->) | (e & w1 & E & ->)].
  - apply bind_ok_inv in E as (img & w2 & _ & E).
    apply bind_ok_inv in E as (img' & w3 & _ & E).
    apply bind_ok_inv in E as ([] & w4 & _ & E).
    apply bind_ok_inv in E as ([] & w5 & _ & E). discriminate E.
  - cbn [fs say].
    apply bind_inv in E as [(e' & E & _) | (img & w2 & Eo & E)].
    { rewrite (still _ _ _ _ (keeps_Image_open _ a) E). apply left_by_refl. }
    pose proof (still _ _ _ _ (keeps_Image_open _ a) Eo) as ->.
    apply bind_inv in E as [(e' & E & _) | (img' & w3 & Er & E)].
    { rewrite (still _ _ _ _ (keeps_jpeg_rgb _ img) E). apply left_by_refl. }
    pose proof (still _ _ _ _ (keeps_jpeg_rgb _ img) Er) as ->.
    apply bind_inv in E as [(e' & E & _) | ([] & w4 & Es & E)].
    { now apply Image_save_raise_inv in E. }
    destruct (preserve_metadata_cases lib a b w4) as (w5 & Ep & _).
    rewrite (bind_eq_ok _ _ _ _ _ Ep) in E. discriminate E.
Qed.

Lemma compress_png_failed (lib : Library) (self : ImageCompressor) (a b : path)
    (w w' : World) :
  compress_png lib self a b w = (Ok false, w') ->
  left_by_failed_save lib b (fs w) (fs w').
Proof.
  unfold compress_png. intros E.
  assert (Hconv : forall img (r : result Image) w1,
             (if String.eqb (img_mode img) "P" then convert img "RGBA" else ret img) w
             = (r, w1) -> w1 = w).
  { intros img r w1. destruct (String.eqb _ _).
    - intros H. now apply (still _ _ _ _ (keeps_convert _ img "RGBA") H).
    - now intros [= _ <-]. }
  apply try_false_inv in E as [(w1 & E & ->) | (e & w1 & E & ->)].
  - apply bind_ok_inv in E as (img & w2 & Eo & E).
    pose proof (still _ _ _ _ (keeps_Image_open _ a) Eo) as ->.
    cbv zeta in E. apply bind_ok_inv in E as (img' & w3 & Ec & E).
    apply Hconv in Ec as ->.
    apply bind_ok_inv in E as (s & w4 & Es & E). injection E as -> <-.
    unfold _save_png_with_metadata in Es.
    apply try_false_inv in Es as [(w5 & Es & ->) | (e & w5 & Es & ->)].
    + apply bind_ok_inv in Es as ([] & w6 & _ & Es). discriminate Es.
    + cbn [fs say].
      apply bind_inv in Es as [(e' & Es & _) | ([] & w6 & _ & Es)]; [| discriminate Es].
      now apply Image_save_raise_inv in Es.
  - cbn [fs say].
    apply bind_inv in E as [(e' & E & _) | (img & w2 & Eo & E)].
    { rewrite (still _ _ _ _ (keeps_Image_open _ a) E). apply left_by_refl. }
    pose proof (still _ _ _ _ (keeps_Image_open _ a) Eo) as ->.
    cbv zeta in E.
    apply bind_inv in E as [(e' & E & _) | (img' & w3 & Ec & E)].
    { apply Hconv in E as ->. apply left_by_refl. }
    apply Hconv in Ec as ->.
    apply bind_inv in E as [(e' & E & _) | (s & w4 & Es & E)]; [| discriminate E].
    unfold _save_png_with_metadata, try_except in E.
    destruct (bind _ _ w) as [[s | e0] w5] eqn:Eb; [discriminate E |].
    apply bind_inv in Eb as [(e1 & Eb & [= <-]) | ([] & w6 & _ & Eb)];
      [| discriminate Eb].
    apply (keeps_Image_save lib (fun _ => True)) in Eb as [_ Hb]; auto.
    destruct (Hb _ eq_refl) as [Hex _]. rewrite Hex in E. discriminate E.
Qed.

Lemma compress_webp_failed (lib : Library) (self : ImageCompressor) (a b : path)
    (w w' : World) :
  compress_webp lib self a b w = (Ok false, w') ->
  left_by_failed_save lib b (fs w) (fs w').
Proof.
  unfold compress_webp. intros E.
  apply try_false_inv in E as [(w1 & E & ->) | (e & w1 & E & ->)].
  - apply bind_ok_inv in E as (img & w2 & _ & E). cbv zeta in E.
    apply bind_ok_inv in E as ([] & w3 & _ & E).
    apply bind_ok_inv in E as ([] & w4 & _ & E). discriminate E.
  - cbn [fs say].
    apply bind_inv in E as [(e' & E & _) | (img & w2 & Eo & E)].
    { rewrite (still _ _ _ _ (keeps_Image_open _ a) E). apply left_by_refl. }
    pose proof (still _ _ _ _ (keeps_Image_open _ a) Eo) as ->.
    cbv zeta in E.
    apply bind_inv in E as [(e' & E & _) | ([] & w3 & Es & E)].
    + destruct (PyStr.mem _ _).
      * apply bind_inv in E as [(e1 & E & _) | (img' & w4 & Ec & E)].
        { destruct (String.eqb _ _).
          - rewrite (still _ _ _ _ (keeps_convert _ img "RGBA") E). apply left_by_refl.
          - discriminate E. }
        assert (w4 = w) as ->.
        { destruct (String.eqb _ _).
          - now apply (still _ _ _ _ (keeps_convert _ img "RGBA") Ec).
          - now injection Ec. }
        now apply Image_save_raise_inv in E.
      * apply bind_inv in E as [(e1 & E & _) | (img' & w4 & Ec & E)].
        { rewrite (still _ _ _ _ (keeps_convert _ img "RGB") E). apply left_by_refl. }
        pose proof (still _ _ _ _ (keeps_convert _ img "RGB") Ec) as ->.
        now apply Image_save_raise_inv in E.
    + destruct (preserve_metadata_cases lib a b w3) as (w5 & Ep & _).
      rewrite (bind_eq_ok _ _ _ _ _ Ep) in E. discriminate E.
Qed.

(** From the encoder's path to any one path *)
Lemma left_by_at (lib : Library) (p out : path) (m m' : gmap path node) :
  left_by_failed_save lib p m m' -> left_at lib out m m'.
Proof.
  intros [-> | (img & fmt & kw & f & He & -> & Hc)]; [now left |].
  destruct (decide (p = out)) as [-> | Hne].
  - right. exists img, fmt, kw, f. now rewrite lookup_insert_eq.
  - left. now rewrite lookup_insert_ne.
Qed.

Lemma via_failed (lib : Library) (enc : M bool) (p out : path) (w w' : World)
    (o : option bool) :
  (forall w', enc w = (Ok false, w') -> left_by_failed_save lib p (fs w) (fs w')) ->
  (let* success := enc in ret (Some success)) w = (Ok o, w') ->
  o <> Some true -> left_at lib out (fs w) (fs w').
Proof.
  intros Henc E Ho. apply bind_ok_inv in E as (s & w1 & Ee & E).
  injection E as <- <-. destruct s; [congruence |].
  apply (left_by_at lib p), Henc, Ee.
Qed.

Lemma redirected_cases (enc : path -> M bool) (b : path) (sfx : string)
    (w w' : World) (r : result (option bool)) :
  (forall p, exists s w1, enc p w = (Ok s, w1)) ->
  (let* img_out := with_suffix b sfx in
   let* success := enc img_out in ret (Some success)) w = (r, w') ->
  (r = Raise ValueError /\ w' = w)
  \/ exists p s, r = Ok (Some s) /\ enc p w = (Ok s, w').
Proof.
  intros Hret. unfold with_suffix.
  destruct (PyPath.with_suffix b sfx) as [p |].
  - unfold bind at 1, ret at 1. destruct (Hret p) as (s & w1 & E).
    rewrite (bind_eq_ok _ _ _ _ _ E). intros [= <- <-]. right. now exists p, s.
  - intros [= <- <-]. now left.
Qed.

Lemma dispatch_failed (lib : Library) (self : ImageCompressor) (a b out : path)
    (tok : string) (w w' : World) (o : option bool) :
  dispatch lib self a b tok w = (Ok o, w') -> o <> Some true ->
  left_at lib out (fs w) (fs w').
Proof.
  unfold dispatch.
  destruct (PyStr.mem tok _).
  { apply via_failed with (p := b). intros w1. apply compress_jpeg_failed. }
  destruct (String.eqb tok ".png").
  { apply via_failed with (p := b). intros w1. apply compress_png_failed. }
  destruct (String.eqb tok ".webp").
  { apply via_failed with (p := b). intros w1. apply compress_webp_failed. }
  rewrite (bind_eq_ok _ _ _ _ _ (print_eq _ w)).
  set (w1 := say (MsgUnsupportedFormat tok) w).
  change (fs w) with (fs w1).
  assert (Hred : forall (enc : path -> M bool) sfx r w2,
             (forall p, exists s w3, enc p w1 = (Ok s, w3)) ->
             (forall p w3, enc p w1 = (Ok false, w3) ->
                           left_by_failed_save lib p (fs w1) (fs w3)) ->
             (let* img_out := with_suffix b sfx in
              let* success := enc img_out in ret (Some success)) w1 = (r, w2) ->
             (exists e, r = Raise e /\ is_Exception e = true /\ fs w2 = fs w1)
             \/ (exists o', r = Ok o'
                            /\ (o' <> Some true -> left_at lib out (fs w1) (fs w2)))).
  { intros enc sfx r w2 Hret Hf E.
    apply redirected_cases in E as [(-> & ->) | (p & s & -> & E)]; [| | exact Hret].
    - left. now exists ValueError.
    - right. exists (Some s). split; [reflexivity |]. intros Hs.
      destruct s; [congruence |]. now apply (left_by_at lib p), Hf. }
  unfold try_except.
  destruct (bind (Image_open a) _ w1) as [[o' | e] w2] eqn:Eb.
  - intros [= <- <-] Ho.
    apply bind_ok_inv in Eb as (img & w3 & Eo & Eb).
    pose proof (still _ _ _ _ (keeps_Image_open _ a) Eo) as ->.
    destruct (String.eqb (img_format img) "JPEG").
    { apply (Hred (compress_jpeg lib self a)) in Eb
        as [(e & [=] & _) | (o'' & [= <-] & H)]; auto.
      - intros p. apply compress_jpeg_returns.
      - intros p w3. apply compress_jpeg_failed. }
    destruct (String.eqb (img_format img) "PNG").
    { apply (Hred (compress_png lib self a)) in Eb
        as [(e & [=] & _) | (o'' & [= <-] & H)]; auto.
      - intros p. apply compress_png_returns.
      - intros p w3. apply compress_png_failed. }
    destruct (String.eqb (img_format img) "WEBP").
    { apply (Hred (compress_webp lib self a)) in Eb
        as [(e & [=] & _) | (o'' & [= <-] & H)]; auto.
      - intros p. apply compress_webp_returns.
      - intros p w3. apply compress_webp_failed. }
    rewrite (bind_eq_ok _ _ _ _ _ (print_eq _ _)) in Eb. injection Eb as _ <-. now left.
  - assert (He : is_Exception e = true /\ fs w2 = fs w1).
    { apply bind_inv in Eb as [(e' & Eo & [= <-]) | (img & w3 & Eo & Eb)].
      - pose proof Eo as Eo'.
        apply (keeps_Image_open (fun _ => True)) in Eo as [_ Hb].
        split; [now apply (Hb _ eq_refl) |].
        now rewrite (still _ _ _ _ (keeps_Image_open _ a) Eo').
      - pose proof (still _ _ _ _ (keeps_Image_open _ a) Eo) as ->.
        destruct (String.eqb (img_format img) "JPEG").
        { apply (Hred (compress_jpeg lib self a)) in Eb
            as [(e' & [= <-] & H) | (o'' & [=] & _)]; auto.
          - intros p. apply compress_jpeg_returns.
          - intros p w3. apply compress_jpeg_failed. }
        destruct (String.eqb (img_format img) "PNG").
        { apply (Hred (compress_png lib self a)) in Eb
            as [(e' & [= <-] & H) | (o'' & [=] & _)]; auto.
          - intros p. apply compress_png_returns.
          - intros p w3. apply compress_png_failed. }
        destruct (String.eqb (img_format img) "WEBP").
        { apply (Hred (compress_webp lib self a)) in Eb
            as [(e' & [= <-] & H) | (o'' & [=] & _)]; auto.
          - intros p. apply compress_webp_returns.
          - intros p w3. apply compress_webp_failed. }
        rewrite (bind_eq_ok _ _ _ _ _ (print_eq _ _)) in Eb. discriminate Eb. }
    destruct He as [-> Hfs].
    rewrite (bind_eq_ok _ _ _ _ _ (print_eq _ _)). intros [= _ <-] _.
    left. cbn [fs say]. now rewrite Hfs.
Qed.

Lemma compress_to_failed (lib : Library) (self : ImageCompressor) (a b : path)
    (fmt : option string) (w w' : World) :
  compress_to lib self a b fmt w = (Ok false, w') -> left_at lib b (fs w) (fs w').
Proof.
  unfold compress_to. intros E.
  apply bind_ok_inv in E as ([] & w1 & Em & E).
  apply mkdir_parents_inv in Em as [(m & Hm & -> & _) | (e & _ & [=])].
  apply bind_ok_inv in E as (o & w2 & Ed & E).
  assert (Hw : fs w' = fs w2 /\ o <> Some true).
  { destruct o as [[|] |].
    - apply bind_ok_inv in E as (x & w3 & _ & E).
      apply bind_ok_inv in E as (y & w4 & _ & E).
      apply bind_ok_inv in E as (q & w5 & _ & E).
      apply bind_ok_inv in E as ([] & w6 & _ & E). discriminate E.
    - rewrite (bind_eq_ok _ _ _ _ _ (print_eq _ _)) in E. injection E as <-.
      split; [reflexivity | discriminate].
    - injection E as <-. split; [reflexivity | discriminate]. }
  destruct Hw as [-> Ho].
  apply (dispatch_failed lib self a b b) in Ed; [| exact Ho]. cbn [fs set_fs] in Ed.
  pose proof (mkdir_parent_keeps _ _ _ Hm) as Hb.
  destruct Ed as [Ed | (img & fm & kw & f & He & Hf & Hc)].
  - left. now rewrite Ed.
  - right. exists img, fm, kw, f. split; [exact He |]. split; [exact Hf |].
    destruct Hc as [Hc | Hc]; [left | now right].
    revert Hc. unfold FS.exists_, FS.stat. destruct b; [reflexivity |]. now rewrite Hb.
Qed.

Lemma compress_image_failed (lib : Library) (self : ImageCompressor) (a : path)
    (b : option path) (fmt : option string) (overwrite : bool) (w w' : World) :
  compress_image lib self a b fmt overwrite w = (Ok false, w') ->
  left_at lib (resolve_output a b) (fs w) (fs w').
Proof.
  unfold compress_image, bind at 1, path_exists.
  destruct (FS.exists_ (fs w) a); cbn [negb].
  2:{ rewrite (bind_eq_ok _ _ _ _ _ (print_eq _ _)). intros [= <-]. now left. }
  unfold bind at 1.
  destruct (FS.exists_ (fs w) (resolve_output a b) && negb overwrite)%bool;
    [| apply compress_to_failed].
  unfold bind at 1. rewrite print_eq. unfold bind at 1. rewrite print_eq.
  unfold bind at 1, input. cbn [stdin say].
  destruct (stdin w) as [| line rest]; [discriminate |].
  destruct (negb _).
  - rewrite (bind_eq_ok _ _ _ _ _ (print_eq _ _)). intros [= <-]. now left.
  - intros E. now apply compress_to_failed in E.
Qed.

(** A job removes nothing: what exists before it exists after it. *)
Lemma compress_image_keeps_paths (lib : Library) (self : ImageCompressor)
    (a : path) (b : option path) (fmt : option string) (overwrite : bool)
    (w : World) (r : result bool) (w' : World) (q : path) :
  compress_image lib self a b fmt overwrite w = (r, w') ->
  (FS.exists_ (fs w) q = true -> FS.exists_ (fs w') q = true)
  /\ (FS.is_file (fs w) q = true -> FS.is_file (fs w') q = true).
Proof.
  intros E. split.
  - apply (steady_compress_image lib (fun x => FS.exists_ (fs x) q = true)) in E; auto.
    + intros x ds m H Hm. revert H. cbn [fs set_fs]. unfold FS.exists_, FS.stat.
      destruct q; [auto |].
      destruct (mkdir_chain_lookup _ _ _ Hm (s :: q)) as [-> | (_ & -> & _)]; auto.
    + intros x p f H _. revert H. cbn [fs set_fs]. unfold FS.exists_, FS.stat.
      destruct q; [auto |].
      destruct (decide (p = s :: q)) as [-> | Hne];
        [now rewrite lookup_insert_eq | now rewrite lookup_insert_ne].
    + intros x p f H _. revert H. cbn [fs set_fs]. unfold FS.exists_, FS.stat.
      destruct q; [auto |].
      destruct (decide (p = s :: q)) as [-> | Hne];
        [now rewrite lookup_insert_eq | now rewrite lookup_insert_ne].
  - apply (steady_compress_image lib (fun x => FS.is_file (fs x) q = true)) in E; auto.
    + intros x ds m H Hm. revert H. cbn [fs set_fs]. unfold FS.is_file, FS.stat.
      destruct q; [auto |].
      destruct (mkdir_chain_lookup _ _ _ Hm (s :: q)) as [-> | (-> & _ & _)];
        [auto | discriminate].
    + intros x p f H _. revert H. cbn [fs set_fs]. unfold FS.is_file, FS.stat.
      destruct q; [auto |].
      destruct (decide (p = s :: q)) as [-> | Hne];
        [now rewrite lookup_insert_eq | now rewrite lookup_insert_ne].
    + intros x p f H _. revert H. cbn [fs set_fs]. unfold FS.is_file, FS.stat.
      destruct q; [auto |].
      destruct (decide (p = s :: q)) as [-> | Hne];
        [now rewrite lookup_insert_eq | now rewrite lookup_insert_ne].
Qed.

(** C9, amended: a compression job that returns [False] leaves at its
    output path either what was there before or the partial file of the
    failed [save].  Each encoder that returns [False] has left the file
    system as it was, or has left at its output path the partial file
    Pillow wrote before its encoder failed; the partial file stays when
    the output path existed before the job, where it has replaced the old
    file, or when the Pillow in use does not remove a file it created.
    The same holds for the whole job at its output path; so on a Pillow that
    removes what it created, a failed job whose output path did not exist
    leaves nothing there.  A job whose input cannot be decoded (no such
    file, not an image, or pixel data that do not load) fails before
    anything is written: each encoder returns [False] with the file
    system untouched, and the job returns [False] or raises with every
    regular file as it was.  The code itself removes nothing: whatever a
    job does, a path that existed before it exists after it, and a
    regular file is still a regular file. *)
Theorem C9_what_a_failed_job_leaves (lib : Library) (self : ImageCompressor)
    (input_path output_path : path) (w : World) :
  (forall w',
      compress_jpeg lib self input_path output_path w = (Ok false, w')
      \/ compress_png lib self input_path output_path w = (Ok false, w')
      \/ compress_webp lib self input_path output_path w = (Ok false, w') ->
      left_by_failed_save lib output_path (fs w) (fs w'))
  /\ (forall out format overwrite w',
        compress_image lib self input_path out format overwrite w = (Ok false, w') ->
        left_at lib (resolve_output input_path out) (fs w) (fs w'))
  /\ (forall out format overwrite w',
        pil_removes_created lib = true ->
        FS.exists_ (fs w) (resolve_output input_path out) = false ->
        compress_image lib self input_path out format overwrite w = (Ok false, w') ->
        FS.exists_ (fs w') (resolve_output input_path out) = false)
  /\ (undecodable (fs w) input_path ->
      (exists w', compress_jpeg lib self input_path output_path w = (Ok false, w')
                  /\ fs w' = fs w)
      /\ (exists w', compress_png lib self input_path output_path w = (Ok false, w')
                     /\ fs w' = fs w)
      /\ (exists w', compress_webp lib self input_path output_path w = (Ok false, w')
                     /\ fs w' = fs w)
      /\ (forall out format overwrite r w',
             compress_image lib self input_path out format overwrite w = (r, w') ->
             r <> Ok true
             /\ same_files (fs w) (fs w')
             /\ fs w' !! resolve_output input_path out
                = fs w !! resolve_output input_path out))
  /\ (forall out format overwrite r w' q,
        compress_image lib self input_path out format overwrite w = (r, w') ->
        (FS.exists_ (fs w) q = true -> FS.exists_ (fs w') q = true)
        /\ (FS.is_file (fs w) q = true -> FS.is_file (fs w') q = true)).
Proof.
  split; [| split; [| split; [| split]]].
  - intros w' [E | [E | E]];
      [now apply compress_jpeg_failed in E | now apply compress_png_failed in E
      | now apply compress_webp_failed in E].
  - intros out format overwrite w' E. now apply compress_image_failed in E.
  - intros out format overwrite w' Hr Hx E. apply compress_image_failed in E.
    destruct E as [E | (img & fm & kw & f & _ & _ & [Hc | Hc])]; [| congruence..].
    revert Hx. unfold FS.exists_, FS.stat.
    destruct (resolve_output input_path out); [auto | now rewrite E].
  - intros H. split; [| split; [| split]].
    + destruct (compress_jpeg_undecodable lib self input_path output_path w H) as [e E].
      eexists. split; [exact E | reflexivity].
    + destruct (compress_png_undecodable lib self input_path output_path w H) as [e E].
      eexists. split; [exact E | reflexivity].
    + destruct (compress_webp_undecodable lib self input_path output_path w H) as [e E].
      eexists. split; [exact E | reflexivity].
    + intros out format overwrite r w' E.
      now apply (compress_image_undecodable _ _ _ _ _ _ _ _ _ H E).
  - intros out format overwrite r w' q E. now apply (compress_image_keeps_paths _ _ _ _ _ _ _ _ _ q E).
Qed.

Lemma bad_png_undecodable : undecodable (fs Demo.asked_world) ["bad.png"].
Proof. intros f img. vm_compute. intros [= <-]. discriminate. Qed.

Lemma C9_what_a_failed_job_leaves_witness :
  exists w',
    compress_png Demo.lib Demo.compressor ["bad.png"] ["new.png"] Demo.asked_world
    = (Ok false, w')
    /\ fs w' = fs Demo.asked_world.
Proof.
  destruct (C9_what_a_failed_job_leaves Demo.lib Demo.compressor
              ["bad.png"] ["new.png"] Demo.asked_world) as (_ & _ & _ & H & _).
  destruct (H bad_png_undecodable) as (_ & Hpng & _). exact Hpng.
Defined.

(** C9, as stated, fails.  The job is told to overwrite the existing
    [out.png], a good PNG of 30 bytes, and Pillow's encoder fails after
    [save] has opened the file: the job returns [False] and the output
    path then holds the 7 bytes the encoder had written, which are not an
    image.  The file was not created by the call, so a Pillow that removes
    what it created leaves the partial file there as well. *)
Lemma C9_failed_job_leaves_a_file_counterexample :
  fs Demo.asked_world !! ["out.png"] = Some (Demo.png 30)
  /\ (let job := compress_image Demo.failing_lib Demo.compressor ["a.png"]
                   (Some ["out.png"]) None true Demo.asked_world in
      fst job = Ok false
      /\ fs (snd job) !! ["out.png"] = Some (NFile (mkFile 7 None)))
  /\ pil_removes_created Demo.tidy_failing_lib = true
  /\ (let job := compress_image Demo.tidy_failing_lib Demo.compressor ["a.png"]
                   (Some ["out.png"]) None true Demo.asked_world in
      fst job = Ok false
      /\ fs (snd job) !! ["out.png"] = Some (NFile (mkFile 7 None))).
Proof. vm_compute. repeat split. Qed.

(** On a Pillow without that cleanup the partial file also stays at an
    output path that did not exist before. *)
Lemma untidy_save_leaves_a_new_partial_file :
  let job := compress_image Demo.failing_lib Demo.compressor ["a.png"]
               (Some ["new.png"]) None false Demo.asked_world in
  fst job = Ok false
  /\ fs Demo.asked_world !! ["new.png"] = None
  /\ fs (snd job) !! ["new.png"] = Some (NFile (mkFile 7 None)).
Proof. vm_compute. repeat split. Qed.

(** ** The exit status of a run *)








(** A job with a known format token, its directories creatable and no
    prompt to answer, returns; it writes at its output path only. *)
Section KnownJob.

Variable lib : Library.
Hypothesis Hlib : lib_ok lib.
Variable self : ImageCompressor.



End KnownJob.


Section BatchRuns.

Variable lib : Library.
Hypothesis Hlib : lib_ok lib.
Variable self : ImageCompressor.
Variable input_dir : path.
Variable output_dir : path.
Variable recursive : bool.
Variable format : option string.
Variable overwrite : bool.



(** The selected files: each lies at [input_dir ++ rel], its job writes to
    [output_dir ++ rel] with an encoder of its own, and none lies below
    another. *)
Variable files : list path.
Hypothesis Hsel :
  forall f, In f files ->
    exists rel, f = input_dir ++ rel /\ rel <> []
                /\ forall w0, output_file_of input_dir output_dir recursive f w0
                              = (Ok (output_dir ++ rel), w0).
Hypothesis Hind :
  forall r1 q, In (input_dir ++ r1) files -> In (input_dir ++ r1 ++ q) files -> q = [].
Hypothesis Htok : forall f, In f files -> encoder_of (format_token f format) <> None.



End BatchRuns.








